(** * RemindMe backend: notification dispatch and state-machine engine

    A shallow embedding of [main.py]: the reminder scheduler
    ([check_and_send_notifications]), the two fan-out pollers
    ([process_messages], [process_rsvp_messages]), the RSVP reply handler
    ([handle_rsvp_reply]) and the conversation engine
    ([analyze_event_query], [get_user_events], [get_gemini_response]).

    Every call the process makes to a collaborator (Supabase tables, the
    Twilio client, the Gemini chat) and every access to the two pieces of
    lock-protected process state is an _operation_; a Python function is a
    program that issues operations and continues with their answers.  A
    program can be run against any handler of the operations, one program
    at a time or two programs interleaved operation by operation. *)

From Stdlib Require Import ZArith Lia Bool List Ascii String.
From stdpp Require Import gmap strings list pretty.

Import ListNotations.

(* ===================================================================== *)
(** * Python values                                                       *)
(* ===================================================================== *)

(** ** Strings *)

(** [str.lower()] on ASCII text. *)
Definition lower_ascii (c : ascii) : ascii :=
  let n := nat_of_ascii c in
  if (65 <=? n)%nat && (n <=? 90)%nat then ascii_of_nat (n + 32) else c.

Fixpoint lower (s : string) : string :=
  match s with
  | EmptyString => EmptyString
  | String c rest => String (lower_ascii c) (lower rest)
  end.

(** [s.startswith(p)]. *)
Definition startswith (p s : string) : bool := String.prefix p s.

(** [needle in hay] on strings. *)
Fixpoint contains (needle hay : string) : bool :=
  startswith needle hay ||
  match hay with
  | EmptyString => false
  | String _ rest => contains needle rest
  end.

(** [any(word in s for word in words)]. *)
Definition any_in (words : list string) (s : string) : bool :=
  existsb (fun word => contains word s) words.

(** Drop the first [n] characters. *)
Fixpoint drop_chars (n : nat) (s : string) : string :=
  match n, s with
  | O, _ => s
  | S _, EmptyString => EmptyString
  | S n', String _ rest => drop_chars n' rest
  end.

(** [s.replace(old, new)]: every non-overlapping occurrence, left to
    right.  [old] is never empty at the call sites. *)
Fixpoint replace_from (fuel : nat) (old new s : string) : string :=
  match fuel with
  | O => s
  | S fuel' =>
      match s with
      | EmptyString => EmptyString
      | String c rest =>
          if startswith old s
          then (new +:+ replace_from fuel' old new
                          (drop_chars (String.length old) s))%string
          else String c (replace_from fuel' old new rest)
      end
  end.

Definition replace (old new s : string) : string :=
  replace_from (String.length s) old new s.

(** Truthiness of a string and of a nullable string. *)
Definition truthy (s : string) : bool := negb (String.eqb s "").

Definition truthy_opt (s : option string) : bool :=
  match s with
  | Some s => truthy s
  | None => false
  end.

(** How an f-string renders a nullable text column. *)
Definition str_of (s : option string) : string :=
  match s with
  | Some s => s
  | None => "None"
  end.

(** A line feed, for the message templates. *)
Definition nl : string := String (ascii_of_nat 10) EmptyString.

(** ** Dates

    [datetime.date] values, with the proleptic Gregorian ordinal of
    CPython's [datetime] module: comparing two dates, and subtracting a
    [timedelta] of whole days, is arithmetic on ordinals. *)

Record date := mkdate { d_year : Z; d_month : Z; d_day : Z }.

Definition is_leap (y : Z) : bool :=
  ((y mod 4 =? 0) && (negb (y mod 100 =? 0) || (y mod 400 =? 0)))%Z.

Definition days_before_year (y : Z) : Z :=
  let p := (y - 1)%Z in (p * 365 + p / 4 - p / 100 + p / 400)%Z.

Definition days_before_month_table : list Z :=
  [0; 31; 59; 90; 120; 151; 181; 212; 243; 273; 304; 334]%Z.

Definition days_in_month_table : list Z :=
  [31; 28; 31; 30; 31; 30; 31; 31; 30; 31; 30; 31]%Z.

Definition days_before_month (y m : Z) : Z :=
  (nth (Z.to_nat (m - 1)) days_before_month_table 0
   + (if (2 <? m) && is_leap y then 1 else 0))%Z.

(** [date.toordinal()]. *)
Definition toordinal (d : date) : Z :=
  (days_before_year (d_year d) + days_before_month (d_year d) (d_month d)
   + d_day d)%Z.

(** [date.fromordinal(n)]. *)
Definition fromordinal (n : Z) : date :=
  let n := (n - 1)%Z in
  let n400 := (n / 146097)%Z in
  let n := (n mod 146097)%Z in
  let n100 := (n / 36524)%Z in
  let n := (n mod 36524)%Z in
  let n4 := (n / 1461)%Z in
  let n := (n mod 1461)%Z in
  let n1 := (n / 365)%Z in
  let n := (n mod 365)%Z in
  let y := (n400 * 400 + 1 + n100 * 100 + n4 * 4 + n1)%Z in
  if ((n1 =? 4) || (n100 =? 4))%Z then mkdate (y - 1) 12 31
  else
    let leapyear := ((n1 =? 3) && (negb (n4 =? 24) || (n100 =? 3)))%Z in
    let m := ((n + 50) / 32)%Z in
    let preceding :=
      (nth (Z.to_nat (m - 1)) days_before_month_table 0
       + (if (2 <? m) && leapyear then 1 else 0))%Z in
    if (n <? preceding)%Z then
      let m' := (m - 1)%Z in
      let preceding' :=
        (preceding - (nth (Z.to_nat (m' - 1)) days_in_month_table 0
                      + (if (m' =? 2) && leapyear then 1 else 0)))%Z in
      mkdate y m' (n - preceding' + 1)
    else mkdate y m (n - preceding + 1).

(** [date.weekday()]: Monday is 0. *)
Definition weekday (d : date) : Z := ((toordinal d + 6) mod 7)%Z.

(** [a <= b] and [a < b] on dates. *)
Definition date_leb (a b : date) : bool := (toordinal a <=? toordinal b)%Z.
Definition date_ltb (a b : date) : bool := (toordinal a <? toordinal b)%Z.

Definition month_name_table : list string :=
  ["January"; "February"; "March"; "April"; "May"; "June"; "July";
   "August"; "September"; "October"; "November"; "December"]%string.

Definition two_digits (n : Z) : string :=
  if (n <? 10)%Z then ("0" +:+ pretty n)%string else pretty n.

(** [strftime('%B %d, %Y')], [strftime('%B %Y')] and [strftime('%B %d')]. *)
Definition month_text (d : date) : string :=
  nth (Z.to_nat (d_month d - 1)) month_name_table ""%string.

Definition strftime_B_d_Y (d : date) : string :=
  (month_text d +:+ " " +:+ two_digits (d_day d) +:+ ", "
   +:+ pretty (d_year d))%string.

Definition strftime_B_Y (d : date) : string :=
  (month_text d +:+ " " +:+ pretty (d_year d))%string.

Definition strftime_B_d (d : date) : string :=
  (month_text d +:+ " " +:+ two_digits (d_day d))%string.

(* ===================================================================== *)
(** * Intent classification                                               *)
(* ===================================================================== *)

(** The tags [analyze_event_query] returns: ['specific_month_<n>'],
    ['current_month'], ['next_month'], ['current_week'], ['upcoming'] and
    ['all']. *)
Inductive query_type :=
| specific_month (month_num : Z)
| current_month
| next_month
| current_week
| upcoming
| all.

(** The [month_names] dict, in insertion order (the order the [for] loop
    visits it). *)
Definition month_names : list (string * Z) :=
  [("january", 1); ("february", 2); ("march", 3); ("april", 4); ("may", 5);
   ("june", 6); ("july", 7); ("august", 8); ("september", 9);
   ("october", 10); ("november", 11); ("december", 12)]%Z%string.

Definition analyze_event_query (message_text : string) : query_type :=
  let message_lower := lower message_text in
  match List.find (fun mn => contains (fst mn) message_lower) month_names with
  | Some (_, month_num) => specific_month month_num
  | None =>
      if any_in ["this month"; "current month"; "month"]%string message_lower
      then current_month
      else if any_in ["next month"; "following month"]%string message_lower
      then next_month
      else if any_in ["this week"; "current week"; "week"]%string message_lower
      then current_week
      else if any_in ["upcoming"; "future"; "coming"; "ahead"]%string
                message_lower
      then upcoming
      else if any_in ["all"; "everything"; "list"]%string message_lower
      then all
      else current_month
  end.

(* ===================================================================== *)
(** * Data model                                                          *)
(* ===================================================================== *)

(** A row of [events], with the columns the code selects.  [notified] is
    NULL, the empty string, ["Yes"] or ["No"]. *)
Record event := mkevent {
  event_id : Z;
  title : string;
  event_date : date;
  days_to_notify : Z;
  event_type : string;
  user_id : string;
  notified : option string
}.

(** A row of [profiles]. *)
Record profile := mkprofile {
  profile_id : string;
  full_name : option string;
  phone_number : option string
}.

(** A row of [notifications_sent], as [log_notification_to_db] inserts it
    (the generated [id] and the [sent_at] clock reading are left out). *)
Record notification := mknotification {
  n_user_id : string;
  n_event_id : option Z;
  notification_type : string;
  notification_content : string;
  n_phone_number : string;
  twilio_message_sid : option string;
  delivery_status : string
}.

(** The two fan-out pollers work on two pairs of tables of the same
    shape: [messages] with [message_contact], and [rsvp] with
    [rsvp_contact_status]. *)
Inductive kind := Messages | Rsvp.

(** A row of [messages] ([agg_text] is its [content]) or of [rsvp]
    ([agg_title] is its [title], [agg_text] its [message]). *)
Record aggregate := mkaggregate {
  agg_id : Z;
  agg_title : option string;
  agg_text : option string;
  agg_status : option string
}.

(** A row of [message_contact] or of [rsvp_contact_status].
    [parent_id] is [message_id] or [rsvp_id]; [send_status] is the
    delivery state ([message_contact.status],
    [rsvp_contact_status.invite_status]); [reply] is
    [rsvp_contact_status.status], the yes/no answer. *)
Record contact := mkcontact {
  contact_id : Z;
  parent_id : Z;
  contact_phone : string;
  send_status : option string;
  reply : option string
}.

(** One entry of a conversation's [history]. *)
Record turn := mkturn { role : string; parts : list string }.

(** [datetime.now()]: a date and the seconds since midnight. *)
Record datetime := mkdatetime { dt_date : date; dt_seconds : Z }.

(** A value of the [conversations] dict. *)
Record session := mksession {
  last_message_time : datetime;
  history : list turn
}.

(* ===================================================================== *)
(** * Operations and programs                                             *)
(* ===================================================================== *)

(** What a call answers: a value, or a raised exception. *)
Inductive result (A : Type) :=
| Ok (a : A)
| Raise.
Arguments Ok {A} a.
Arguments Raise {A}.

(** What a Twilio send is for; the fan-out and confirmation sends carry
    no such argument in the source, the tag only names them in a trace. *)
Inductive purpose :=
| Reminder (event : option Z)
| Fanout (k : kind) (contact : Z)
| Confirmation.

Inductive op :=
(* events *)
| SelectPendingEvents
| UpdateEventNotified (id : Z) (v : string)
| SelectEventNotified (id : Z)
| SelectUserEvents (user : string) (gte lt : option date)
(* profiles *)
| SelectProfile (user : string)
| SelectProfileByPhone (phone : string)
(* notifications_sent *)
| InsertNotification (n : notification)
(* messages / rsvp and their contact tables *)
| SelectPendingAggregates (k : kind)
| SelectPendingContacts (k : kind) (parent : Z)
| UpdateContactStatus (k : kind) (id : Z) (v : string)
| UpdateAggregateStatus (k : kind) (id : Z) (v : string)
| SelectSentContacts (phone : string)
| UpdateContactReply (id : Z) (v : string)
(* Twilio and Gemini *)
| MessagesCreate (why : purpose) (to : string) (body : option string)
| ChatSendMessage (past : list turn) (message : string)
(* processing_events under processing_lock *)
| GuardTryAcquire (id : Z)
| GuardRelease (id : Z)
(* conversations under conversations_lock *)
| SessionTouch (user : string) (now : datetime)
| SessionHistory (user : string)
| SessionAppend (user : string) (turns : list turn).

Definition resp (o : op) : Type :=
  match o with
  | SelectPendingEvents => result (list event)
  | UpdateEventNotified _ _ => result (list event)
  | SelectEventNotified _ => result (option string)
  | SelectUserEvents _ _ _ => result (list event)
  | SelectProfile _ => result profile
  | SelectProfileByPhone _ => result profile
  | InsertNotification _ => result unit
  | SelectPendingAggregates _ => result (list aggregate)
  | SelectPendingContacts _ _ => result (list contact)
  | UpdateContactStatus _ _ _ => result unit
  | UpdateAggregateStatus _ _ _ => result unit
  | SelectSentContacts _ => result (list contact)
  | UpdateContactReply _ _ => result unit
  | MessagesCreate _ _ _ => result string
  | ChatSendMessage _ _ => result string
  | GuardTryAcquire _ => bool
  | GuardRelease _ => unit
  | SessionTouch _ _ => unit
  | SessionHistory _ => list turn
  | SessionAppend _ _ => unit
  end.

(** A program: return, or issue an operation and go on with its answer. *)
Inductive prog (A : Type) : Type :=
| Ret (a : A)
| Vis (o : op) (k : resp o -> prog A).
Arguments Ret {A} a.
Arguments Vis {A} o k.

Fixpoint pbind {A B : Type} (p : prog A) (f : A -> prog B) : prog B :=
  match p with
  | Ret a => f a
  | Vis o k => Vis o (fun x => pbind (k x) f)
  end.

Definition call (o : op) : prog (resp o) := Vis o Ret.

(** Programs that may raise: [bind] stops at the first exception. *)
Definition ret {A : Type} (a : A) : prog (result A) := Ret (Ok a).
Definition raise {A : Type} : prog (result A) := Ret Raise.

Definition bind {A B : Type} (m : prog (result A))
    (f : A -> prog (result B)) : prog (result B) :=
  pbind m (fun r => match r with Ok a => f a | Raise => raise end).

(** [try: m finally: fin]. *)
Definition try_finally {A : Type} (m : prog (result A)) (fin : prog unit)
    : prog (result A) :=
  pbind m (fun r => pbind fin (fun _ => Ret r)).

Declare Scope prog_scope.
Delimit Scope prog_scope with prog.
Notation "'let*' x ':=' m 'in' k" := (bind m (fun x => k))
  (at level 10, x pattern, m at level 100, k at level 200) : prog_scope.
Notation "'let+' x ':=' p 'in' k" := (pbind p (fun x => k))
  (at level 10, x pattern, p at level 100, k at level 200) : prog_scope.
Open Scope prog_scope.

(** One answered operation, and the behaviour of a run. *)
Record io := mkio { io_op : op; io_resp : resp io_op }.

Definition handler (W : Type) : Type := forall o : op, W -> resp o * W.

Fixpoint run {W A : Type} (h : handler W) (p : prog A) (w : W) : A * W :=
  match p with
  | Ret a => (a, w)
  | Vis o k => let xw := h o w in run h (k (fst xw)) (snd xw)
  end.

Fixpoint trace {W A : Type} (h : handler W) (p : prog A) (w : W) : list io :=
  match p with
  | Ret _ => []
  | Vis o k => let xw := h o w in mkio o (fst xw) :: trace h (k (fst xw)) (snd xw)
  end.

(** Two programs interleaved operation by operation: [true] lets the
    first one take a step, [false] the second; a program that has
    returned leaves the rest to the other, and when the schedule is used
    up the first runs to its end, then the second. *)
Fixpoint interleave {W A B : Type} (h : handler W) (sched : list bool)
    (p : prog A) (q : prog B) (w : W) : A * B * W :=
  match sched with
  | [] =>
      let aw := run h p w in
      let bw := run h q (snd aw) in (fst aw, fst bw, snd bw)
  | true :: sched' =>
      match p with
      | Ret a => let bw := run h q w in (a, fst bw, snd bw)
      | Vis o k => let xw := h o w in interleave h sched' (k (fst xw)) q (snd xw)
      end
  | false :: sched' =>
      match q with
      | Ret b => let aw := run h p w in (fst aw, b, snd aw)
      | Vis o k => let xw := h o w in interleave h sched' p (k (fst xw)) (snd xw)
      end
  end.

(* ===================================================================== *)
(** * Notification logging and WhatsApp sending                           *)
(* ===================================================================== *)

(** [log_notification_to_db]: one insert; an exception of the insert is
    caught and logged.  No caller uses the returned id. *)
Definition log_notification_to_db (user_id : string) (event_id : option Z)
    (notification_type notification_content phone_number : string)
    (twilio_message_sid : option string) (delivery_status : string)
    : prog unit :=
  let+ _ := call (InsertNotification
                    (mknotification user_id event_id notification_type
                       notification_content phone_number twilio_message_sid
                       delivery_status)) in
  Ret tt.

(** [send_whatsapp_notification]: [True] when Twilio accepted the
    message.  The attempt is logged only for a truthy [user_id]. *)
Definition send_whatsapp_notification (phone_number message user_id : string)
    (event_id : option Z) (notification_type : string) : prog bool :=
  let phone_number :=
    if startswith "+" phone_number then phone_number
    else ("+" +:+ phone_number)%string in
  let whatsapp_number := ("whatsapp:" +:+ phone_number)%string in
  let+ twilio_message :=
    call (MessagesCreate (Reminder event_id) whatsapp_number (Some message)) in
  match twilio_message with
  | Ok sid =>
      let+ _ := (if truthy user_id
                 then log_notification_to_db user_id event_id notification_type
                        message phone_number (Some sid) "sent"
                 else Ret tt) in
      Ret true
  | Raise =>
      let+ _ := (if truthy user_id
                 then log_notification_to_db user_id event_id notification_type
                        message phone_number None "failed"
                 else Ret tt) in
      Ret false
  end.

(* ===================================================================== *)
(** * Reminder scheduler                                                  *)
(* ===================================================================== *)

(** The reminder text, after [.strip()]. *)
Definition reminder_message (e : event) (user_profile : profile) : string :=
  let event_date_formatted := strftime_B_d_Y (event_date e) in
  let event_type_text :=
    if String.eqb (event_type e) "recurrence" then "recurring event"
    else "deadline" in
  let user_name := str_of (full_name user_profile) in
  ("ðŸ”” Event Reminder" +:+ nl +:+ nl
   +:+ "Hi " +:+ user_name +:+ "!" +:+ nl +:+ nl
   +:+ "You have an upcoming " +:+ event_type_text +:+ ":" +:+ nl
   +:+ "ðŸ“… " +:+ title e +:+ nl
   +:+ "ðŸ“† Date: " +:+ event_date_formatted +:+ nl +:+ nl
   +:+ "Don't forget to prepare for this important event!" +:+ nl +:+ nl
   +:+ "Best regards," +:+ nl
   +:+ "RemindMe")%string.

(** How the body of the dispatch loop ends for one event. *)
Inductive outcome := Skipped | Sent | Failed.

(** Which of its three closing log lines a check reaches: nothing due
    today, the summary with its two counters, or the critical error of
    the outer [except]. *)
Inductive tick_result :=
| NothingDue
| Completed (notifications_sent notifications_failed : nat)
| CriticalError.

(** [x not in [None, '', 'No']] on the re-read [notified]. *)
Definition already_notified (current : option string) : bool :=
  match current with
  | None => false
  | Some v => negb (String.eqb v "" || String.eqb v "No")
  end.

(** The [try] block of the dispatch loop, for one event. *)
Definition notify_event (e : event) : prog (result outcome) :=
  let* current := call (SelectEventNotified (event_id e)) in
  if already_notified current then ret Skipped
  else
    let* update_response := call (UpdateEventNotified (event_id e) "Yes") in
    match update_response with
    | [] => ret Failed
    | _ :: _ =>
        let+ user_response := call (SelectProfile (user_id e)) in
        match user_response with
        | Raise => ret Failed
        | Ok user_profile =>
            match phone_number user_profile with
            | Some phone =>
                if truthy phone then
                  let+ ok := send_whatsapp_notification phone
                               (reminder_message e user_profile) (user_id e)
                               (Some (event_id e)) "event_reminder" in
                  ret (if ok then Sent else Failed)
                else ret Failed
            | None => ret Failed
            end
        end
    end.

(** The second loop: guard, [try] block, [finally] release. *)
Fixpoint dispatch (events_to_process : list event)
    (notifications_sent notifications_failed : nat)
    : prog (result (nat * nat)) :=
  match events_to_process with
  | [] => ret (notifications_sent, notifications_failed)
  | e :: rest =>
      let+ acquired := call (GuardTryAcquire (event_id e)) in
      if negb acquired
      then dispatch rest notifications_sent notifications_failed
      else
        let* o := try_finally (notify_event e)
                    (call (GuardRelease (event_id e))) in
        match o with
        | Skipped => dispatch rest notifications_sent notifications_failed
        | Sent => dispatch rest (S notifications_sent) notifications_failed
        | Failed => dispatch rest notifications_sent (S notifications_failed)
        end
  end.

(** [event_date - timedelta(days=days_to_notify)], as an ordinal. *)
Definition notification_date (e : event) : Z :=
  (toordinal (event_date e) - days_to_notify e)%Z.

(** [today == notification_date] and [today > notification_date]. *)
Definition due (today : date) (e : event) : bool :=
  (toordinal today =? notification_date e)%Z.

Definition overdue (today : date) (e : event) : bool :=
  (notification_date e <? toordinal today)%Z.

(** The first loop: due today, overdue, or not yet due. *)
Fixpoint scan (today : date) (rows events_to_process : list event)
    : prog (result (list event)) :=
  match rows with
  | [] => ret events_to_process
  | e :: rest =>
      if due today e
      then scan today rest (events_to_process ++ [e])
      else if overdue today e
      then let* _ := call (UpdateEventNotified (event_id e) "No") in
           scan today rest events_to_process
      else scan today rest events_to_process
  end.

(** [check_and_send_notifications], with [today] the value of
    [datetime.now().date()] it reads on entry. *)
Definition check_and_send_notifications (today : date) : prog tick_result :=
  let+ r :=
    (let* rows := call SelectPendingEvents in
     let* events_to_process := scan today rows [] in
     match events_to_process with
     | [] => ret NothingDue
     | _ :: _ =>
         let* counters := dispatch events_to_process 0 0 in
         ret (Completed (fst counters) (snd counters))
     end) in
  match r with
  | Ok t => Ret t
  | Raise => Ret CriticalError
  end.

(* ===================================================================== *)
(** * Fan-out pollers                                                     *)
(* ===================================================================== *)

(** The [to] address of a fan-out send. *)
Definition contact_address (phone : string) : string :=
  if startswith "whatsapp:" phone then phone
  else ("whatsapp:" +:+ phone)%string.

(** The body sent to every contact of an aggregate: the [content] of a
    message; title, text and the reply instructions of an RSVP. *)
Definition fanout_body (k : kind) (a : aggregate) : option string :=
  match k with
  | Messages => agg_text a
  | Rsvp =>
      Some (str_of (agg_title a) +:+ nl +:+ str_of (agg_text a) +:+ nl +:+ nl
            +:+ "If attending, respond by replying 'rsvp: yes'. If not, reply 'rsvp: no'.")%string
  end.

(** The [try]/[except] around one contact: mark ['processing'], send,
    mark ['sent']; on any exception write the empty string back.  The
    answer is whether [all_sent] survives this contact. *)
Definition send_to_contact (k : kind) (body : option string) (c : contact)
    : prog (result bool) :=
  let+ r :=
    (let* _ := call (UpdateContactStatus k (contact_id c) "processing") in
     let* _ := call (MessagesCreate (Fanout k (contact_id c))
                       (contact_address (contact_phone c)) body) in
     call (UpdateContactStatus k (contact_id c) "sent")) in
  match r with
  | Ok _ => ret true
  | Raise =>
      let* _ := call (UpdateContactStatus k (contact_id c) "") in
      ret false
  end.

Fixpoint contact_loop (k : kind) (body : option string)
    (contacts : list contact) (all_sent : bool) : prog (result bool) :=
  match contacts with
  | [] => ret all_sent
  | c :: rest =>
      let* ok := send_to_contact k body c in
      contact_loop k body rest (all_sent && ok)
  end.

Fixpoint aggregate_loop (k : kind) (aggregates : list aggregate)
    : prog (result unit) :=
  match aggregates with
  | [] => ret tt
  | a :: rest =>
      let* contacts := call (SelectPendingContacts k (agg_id a)) in
      match contacts with
      | [] => aggregate_loop k rest
      | _ :: _ =>
          let* all_sent := contact_loop k (fanout_body k a) contacts true in
          if all_sent
          then let* _ := call (UpdateAggregateStatus k (agg_id a) "sent") in
               aggregate_loop k rest
          else aggregate_loop k rest
      end
  end.

(** The common shape of [process_messages] and [process_rsvp_messages]. *)
Definition fan_out (k : kind) : prog unit :=
  let+ _ :=
    (let* aggregates := call (SelectPendingAggregates k) in
     match aggregates with
     | [] => ret tt
     | _ :: _ => aggregate_loop k aggregates
     end) in
  Ret tt.

Definition process_messages : prog unit := fan_out Messages.
Definition process_rsvp_messages : prog unit := fan_out Rsvp.

(* ===================================================================== *)
(** * RSVP reply handler                                                  *)
(* ===================================================================== *)

(** The characters [\s] matches in ASCII text. *)
Definition re_space (c : ascii) : bool :=
  let n := nat_of_ascii c in
  ((9 <=? n) && (n <=? 13) || (28 <=? n) && (n <=? 32))%nat.

Fixpoint skip_spaces (s : string) : string :=
  match s with
  | EmptyString => EmptyString
  | String c rest => if re_space c then skip_spaces rest else s
  end.

(** [rsvp:\s*(yes|no)] anchored at the start of [s]: the group. *)
Definition rsvp_match_here (s : string) : option string :=
  if startswith "rsvp:" s then
    let r := skip_spaces (drop_chars 5 s) in
    if startswith "yes" r then Some "yes"%string
    else if startswith "no" r then Some "no"%string
    else None
  else None.

(** [re.search(r"rsvp:\s*(yes|no)", s)]: group 1 of the leftmost match. *)
Fixpoint rsvp_search (s : string) : option string :=
  match rsvp_match_here s with
  | Some g => Some g
  | None =>
      match s with
      | EmptyString => None
      | String _ rest => rsvp_search rest
      end
  end.

Definition confirmation_msg : string :=
  "Thanks for your response! Your RSVP has been recorded.".

Definition normalize_number (from_number : string) : string :=
  if truthy from_number && startswith "whatsapp:" from_number
  then replace "whatsapp:" "" from_number
  else from_number.

(** [handle_rsvp_reply]: the text of the reply it returns. *)
Definition handle_rsvp_reply (from_number body : string) : prog string :=
  let normalized_number := normalize_number from_number in
  match rsvp_search (lower body) with
  | None =>
      Ret "Sorry, I didn't understand your RSVP response. Please reply with 'rsvp: yes' or 'rsvp: no'."%string
  | Some response =>
      let status_value :=
        if String.eqb response "yes" then "yes"%string else "no"%string in
      let+ r :=
        (let* contacts := call (SelectSentContacts normalized_number) in
         match contacts with
         | c :: _ =>
             let* _ := call (UpdateContactReply (contact_id c) status_value) in
             let+ _ := (if truthy from_number
                        then let+ _ := call (MessagesCreate Confirmation
                                               from_number
                                               (Some confirmation_msg)) in
                             Ret tt
                        else Ret tt) in
             ret confirmation_msg
         | [] =>
             ret "Sorry, we could not find your RSVP invitation. Please ensure you are replying from the same WhatsApp number you received the invite on."%string
         end) in
      match r with
      | Ok text => Ret text
      | Raise =>
          Ret "Sorry, there was an error recording your RSVP. Please try again later."%string
      end
  end.

(* ===================================================================== *)
(** * Conversation engine                                                 *)
(* ===================================================================== *)

(** [get_user_id_from_whatsapp_number]. *)
Definition get_user_id_from_whatsapp_number (whatsapp_number : string)
    : prog (option string) :=
  let phone_number_clean := replace "whatsapp:" "" whatsapp_number in
  let+ response := call (SelectProfileByPhone phone_number_clean) in
  match response with
  | Ok p => Ret (Some (profile_id p))
  | Raise => Ret None
  end.

(** Truthiness of an optional integer argument. *)
Definition truthy_int (n : option Z) : bool :=
  match n with
  | Some n => negb (n =? 0)%Z
  | None => false
  end.

(** The date range [get_user_events] asks for: a month as
    [first, first of the following month), or from [today] on. *)
Definition events_range (month year : option Z) (upcoming_only : bool)
    (today : date) : option date * option date :=
  match month, year with
  | Some m, Some y =>
      if truthy_int month && truthy_int year then
        (Some (mkdate y m 1),
         Some (if (m =? 12)%Z then mkdate (y + 1) 1 1
               else mkdate y (m + 1) 1))
      else if upcoming_only then (Some today, None) else (None, None)
  | _, _ => if upcoming_only then (Some today, None) else (None, None)
  end.

(** [get_user_events]; [today] is the date it reads when
    [upcoming_only] is set.  An exception of the query gives [[]]. *)
Definition get_user_events (user_id : string) (month year : option Z)
    (upcoming_only : bool) (today : date) : prog (list event) :=
  let range := events_range month year upcoming_only today in
  let+ response := call (SelectUserEvents user_id (fst range) (snd range)) in
  match response with
  | Ok data => Ret data
  | Raise => Ret []
  end.

Definition time_info (days_until : Z) : string :=
  if (days_until =? 0)%Z then " (today)"%string
  else if (days_until =? 1)%Z then " (tomorrow)"%string
  else if (0 <? days_until)%Z
  then (" (in " +:+ pretty days_until +:+ " days)")%string
  else (" (" +:+ pretty (Z.abs days_until) +:+ " days ago)")%string.

(** One line of an event listing. *)
Definition event_line (today : date) (e : event) : string :=
  let event_type_text :=
    if String.eqb (event_type e) "recurrence" then "recurring event"%string
    else "deadline"%string in
  let days_until := (toordinal (event_date e) - toordinal today)%Z in
  ("- " +:+ title e +:+ " (" +:+ event_type_text +:+ ") on "
   +:+ strftime_B_d_Y (event_date e) +:+ time_info days_until +:+ nl)%string.

Definition event_lines (today : date) (l : list event) : string :=
  fold_left (fun acc e => (acc +:+ event_line today e)%string) l ""%string.

(** The keywords that open the filtered listing. *)
Definition schedule_keywords : list string :=
  ["event"; "events"; "schedule"; "calendar"; "reminder"; "deadline";
   "appointment"; "meeting"; "september"; "month"; "week"]%string.

(** The branch on [query_type]: the filtered events and [period_text]. *)
Definition filter_events (user_id : string) (all_user_events : list event)
    (current_date : date) (q : query_type) : prog (list event * string) :=
  match q with
  | specific_month month_num =>
      let target_year :=
        if (month_num <? d_month current_date)%Z
        then (d_year current_date + 1)%Z else d_year current_date in
      let+ filtered_events :=
        get_user_events user_id (Some month_num) (Some target_year) false
          current_date in
      Ret (filtered_events, strftime_B_Y (mkdate target_year month_num 1))
  | current_month =>
      let+ current_month_events :=
        get_user_events user_id (Some (d_month current_date))
          (Some (d_year current_date)) false current_date in
      Ret (current_month_events, strftime_B_Y current_date)
  | next_month =>
      let next_month :=
        if (d_month current_date <? 12)%Z
        then (d_month current_date + 1)%Z else 1%Z in
      let next_year :=
        if (d_month current_date <? 12)%Z
        then d_year current_date else (d_year current_date + 1)%Z in
      let+ filtered_events :=
        get_user_events user_id (Some next_month) (Some next_year) false
          current_date in
      Ret (filtered_events,
           strftime_B_Y (mkdate (d_year current_date) next_month 1))
  | current_week =>
      let+ upcoming_events :=
        get_user_events user_id None None true current_date in
      let week_start := (toordinal current_date - weekday current_date)%Z in
      let week_end := (week_start + 7)%Z in
      Ret (List.filter
             (fun e => (week_start <=? toordinal (event_date e))%Z
                       && (toordinal (event_date e) <? week_end)%Z)
             upcoming_events,
           ("this week (starting "
            +:+ strftime_B_d (fromordinal week_start) +:+ ")")%string)
  | upcoming =>
      let+ filtered_events :=
        get_user_events user_id None None true current_date in
      Ret (filtered_events, "upcoming"%string)
  | all => Ret (all_user_events, "all time"%string)
  end.

Definition unavailable_reply : string :=
  "I'm sorry, the AI service is currently unavailable. Please try again later.".

Definition apology_reply : string :=
  "I'm sorry, I couldn't process your request at the moment. Please try again.".

(** The full listing that opens [events_context]. *)
Definition listing_context (current_date : date)
    (all_user_events : list event) : string :=
  match all_user_events with
  | [] => (nl +:+ nl +:+ "You have no events in your database.")%string
  | _ :: _ =>
      (nl +:+ nl +:+ "Here are ALL your events from the database:"
       +:+ nl +:+ event_lines current_date all_user_events
       +:+ nl +:+ "Total: "
       +:+ pretty (Z.of_nat (length all_user_events))
       +:+ " event(s) in your database.")%string
  end.

(** The block behind the keyword gate: classify, filter, and append the
    filtered listing to [events_context]. *)
Definition filtered_context (user_id message_text : string)
    (all_user_events : list event) (current_date : date)
    (events_context : string) : prog string :=
  let message_lower := lower message_text in
  if any_in schedule_keywords message_lower then
    let query_type := analyze_event_query message_text in
    let+ filtered :=
      filter_events user_id all_user_events current_date query_type in
    let period_text := snd filtered in
    match fst filtered with
    | [] =>
        Ret (events_context +:+ nl +:+ nl +:+ "No events found for "
             +:+ period_text +:+ ".")%string
    | _ :: _ =>
        Ret (events_context +:+ nl +:+ nl +:+ "Filtered events for "
             +:+ period_text +:+ ":" +:+ nl
             +:+ event_lines current_date (fst filtered)
             +:+ nl +:+ "Filtered total: "
             +:+ pretty (Z.of_nat (length (fst filtered)))
             +:+ " event(s) for " +:+ period_text)%string
    end
  else Ret events_context.

Definition enhanced_message (message_text events_context : string) : string :=
  (message_text +:+ nl +:+ nl
   +:+ "Context: You are an AI assistant for RemindMe, a reminder app. You have access to the user's event database. Use this information to answer their questions about events, schedules, reminders, etc."
   +:+ events_context)%string.

(** The chat call and the two appends to the history. *)
Definition chat_turn (user_id message_text prompt : string)
    : prog (result string) :=
  let+ past := call (SessionHistory user_id) in
  let* text := call (ChatSendMessage past prompt) in
  let+ _ := call (SessionAppend user_id
                    [mkturn "user" [message_text]; mkturn "model" [text]]) in
  ret text.

(** The [try] block of [get_gemini_response]. *)
Definition gemini_try (current_date : date) (user_id message_text : string)
    : prog (result string) :=
  let+ all_user_events :=
    get_user_events user_id None None false current_date in
  let+ events_context :=
    filtered_context user_id message_text all_user_events current_date
      (listing_context current_date all_user_events) in
  chat_turn user_id message_text
    (enhanced_message message_text events_context).

(** [get_gemini_response].  [gemini_model] tells whether the model was
    configured at start-up, [now] is the value of [datetime.now()]. *)
Definition get_gemini_response (gemini_model : bool) (now : datetime)
    (user_id message_text : string) : prog string :=
  if negb gemini_model then Ret unavailable_reply
  else
    let+ _ := call (SessionTouch user_id now) in
    let+ r := gemini_try (dt_date now) user_id message_text in
    match r with
    | Ok text => Ret text
    | Raise => Ret apology_reply
    end.

(** [handle_ai_conversation]: the text of the reply. *)
Definition handle_ai_conversation (gemini_model : bool) (now : datetime)
    (from_whatsapp_number incoming_msg : string) : prog string :=
  let+ user := get_user_id_from_whatsapp_number from_whatsapp_number in
  match user with
  | Some user_id =>
      if truthy user_id then
        let+ gemini_reply :=
          get_gemini_response gemini_model now user_id incoming_msg in
        let phone_number_clean := replace "whatsapp:" "" from_whatsapp_number in
        let+ _ := log_notification_to_db user_id None "ai_response"
                    gemini_reply phone_number_clean None "sent" in
        Ret gemini_reply
      else
        Ret "I'm sorry, I can't identify your account. Please ensure your phone number is registered in our system."%string
  | None =>
      Ret "I'm sorry, I can't identify your account. Please ensure your phone number is registered in our system."%string
  end.

(* ===================================================================== *)
(** * The store, the gateway and the process state                        *)
(* ===================================================================== *)

(** One call of [twilio_client.messages.create], with its answer. *)
Record delivery := mkdelivery {
  why : purpose;
  to_address : string;
  body : option string;
  answer : result string
}.

(** The two collaborators that may fail.  Twilio answers a send with a
    message sid or raises, depending on everything it was asked before;
    a Gemini chat answers with a text or raises. *)
Record services := mkservices {
  twilio : list delivery -> string -> option string -> result string;
  gemini : list turn -> string -> result string
}.

(** The five collections, the gateway's record of sends, the dedup set
    and the conversation dict. *)
Record world := mkworld {
  events : list event;
  profiles : list profile;
  notifications_sent : list notification;
  messages : list aggregate;
  message_contact : list contact;
  rsvp : list aggregate;
  rsvp_contact_status : list contact;
  outbox : list delivery;
  processing_events : gset Z;
  conversations : gmap string session
}.

Definition set_events (f : list event -> list event) (w : world) : world :=
  mkworld (f (events w)) (profiles w) (notifications_sent w) (messages w)
    (message_contact w) (rsvp w) (rsvp_contact_status w) (outbox w)
    (processing_events w) (conversations w).

Definition set_notifications_sent
    (f : list notification -> list notification) (w : world) : world :=
  mkworld (events w) (profiles w) (f (notifications_sent w)) (messages w)
    (message_contact w) (rsvp w) (rsvp_contact_status w) (outbox w)
    (processing_events w) (conversations w).

Definition aggregates_of (k : kind) (w : world) : list aggregate :=
  match k with
  | Messages => messages w
  | Rsvp => rsvp w
  end.

Definition contacts_of (k : kind) (w : world) : list contact :=
  match k with
  | Messages => message_contact w
  | Rsvp => rsvp_contact_status w
  end.

Definition set_aggregates (k : kind) (f : list aggregate -> list aggregate)
    (w : world) : world :=
  match k with
  | Messages =>
      mkworld (events w) (profiles w) (notifications_sent w) (f (messages w))
        (message_contact w) (rsvp w) (rsvp_contact_status w) (outbox w)
        (processing_events w) (conversations w)
  | Rsvp =>
      mkworld (events w) (profiles w) (notifications_sent w) (messages w)
        (message_contact w) (f (rsvp w)) (rsvp_contact_status w) (outbox w)
        (processing_events w) (conversations w)
  end.

Definition set_contacts (k : kind) (f : list contact -> list contact)
    (w : world) : world :=
  match k with
  | Messages =>
      mkworld (events w) (profiles w) (notifications_sent w) (messages w)
        (f (message_contact w)) (rsvp w) (rsvp_contact_status w) (outbox w)
        (processing_events w) (conversations w)
  | Rsvp =>
      mkworld (events w) (profiles w) (notifications_sent w) (messages w)
        (message_contact w) (rsvp w) (f (rsvp_contact_status w)) (outbox w)
        (processing_events w) (conversations w)
  end.

Definition set_outbox (f : list delivery -> list delivery) (w : world)
    : world :=
  mkworld (events w) (profiles w) (notifications_sent w) (messages w)
    (message_contact w) (rsvp w) (rsvp_contact_status w) (f (outbox w))
    (processing_events w) (conversations w).

Definition set_processing_events (f : gset Z -> gset Z) (w : world) : world :=
  mkworld (events w) (profiles w) (notifications_sent w) (messages w)
    (message_contact w) (rsvp w) (rsvp_contact_status w) (outbox w)
    (f (processing_events w)) (conversations w).

Definition set_conversations
    (f : gmap string session -> gmap string session) (w : world) : world :=
  mkworld (events w) (profiles w) (notifications_sent w) (messages w)
    (message_contact w) (rsvp w) (rsvp_contact_status w) (outbox w)
    (processing_events w) (f (conversations w)).

(** The filter [x.is.null, x.eq.''] of the pending queries. *)
Definition is_pending (v : option string) : bool :=
  match v with
  | None => true
  | Some v => String.eqb v ""
  end.

Definition with_notified (v : option string) (e : event) : event :=
  mkevent (event_id e) (title e) (event_date e) (days_to_notify e)
    (event_type e) (user_id e) v.

Definition with_agg_status (v : option string) (a : aggregate) : aggregate :=
  mkaggregate (agg_id a) (agg_title a) (agg_text a) v.

Definition with_send_status (v : option string) (c : contact) : contact :=
  mkcontact (contact_id c) (parent_id c) (contact_phone c) v (reply c).

Definition with_reply (v : option string) (c : contact) : contact :=
  mkcontact (contact_id c) (parent_id c) (contact_phone c) (send_status c) v.

(** [update(...).eq('id', id)]: every row with that id. *)
Definition update_where {A : Type} (key : A -> Z) (id : Z) (f : A -> A)
    (rows : list A) : list A :=
  map (fun r => if (key r =? id)%Z then f r else r) rows.

(** [.single()]: the row when there is exactly one, an exception if not. *)
Definition single {A : Type} (rows : list A) : result A :=
  match rows with
  | [r] => Ok r
  | _ => Raise
  end.

(** [.order('id', desc=True).limit(1)]. *)
Definition latest (rows : list contact) : list contact :=
  match rows with
  | [] => []
  | c :: rest =>
      [fold_left (fun best r =>
                    if (contact_id best <? contact_id r)%Z then r else best)
         rest c]
  end.

Definition in_range (gte lt : option date) (d : date) : bool :=
  match gte with Some a => date_leb a d | None => true end
  && match lt with Some b => date_ltb d b | None => true end.

(** The rows the two queries of a fan-out tick select. *)
Definition pending_aggregates (k : kind) (w : world) : list aggregate :=
  List.filter (fun a => is_pending (agg_status a)) (aggregates_of k w).

Definition pending_contacts (k : kind) (parent : Z) (w : world)
    : list contact :=
  List.filter
    (fun c => (parent_id c =? parent)%Z && is_pending (send_status c))
    (contacts_of k w).

(** The rows the reply handler's query filters: the invitations sent to
    [phone]. *)
Definition sent_invitations (phone : string) (w : world) : list contact :=
  List.filter
    (fun c => String.eqb (contact_phone c) phone
              && match send_status c with
                 | Some v => String.eqb v "sent"
                 | None => false
                 end)
    (rsvp_contact_status w).

(** The store answers from its tables and never raises, except for
    [.single()] on no row or several; Twilio and Gemini answer as the
    [services] say; the guard and the sessions are the process's own. *)
Definition exec (svc : services) : handler world :=
  fun o =>
    match o as o0 return world -> resp o0 * world with
    | SelectPendingEvents => fun w =>
        (Ok (List.filter (fun e => is_pending (notified e)) (events w)), w)
    | UpdateEventNotified id v => fun w =>
        (Ok (map (with_notified (Some v))
               (List.filter (fun e => (event_id e =? id)%Z) (events w))),
         set_events (update_where event_id id (with_notified (Some v))) w)
    | SelectEventNotified id => fun w =>
        (match single (List.filter (fun e => (event_id e =? id)%Z) (events w))
         with
         | Ok e => Ok (notified e)
         | Raise => Raise
         end, w)
    | SelectUserEvents user gte lt => fun w =>
        (Ok (List.filter
               (fun e => String.eqb (user_id e) user
                         && in_range gte lt (event_date e))
               (events w)), w)
    | SelectProfile user => fun w =>
        (single (List.filter (fun p => String.eqb (profile_id p) user)
                   (profiles w)), w)
    | SelectProfileByPhone phone => fun w =>
        (single (List.filter
                   (fun p => match phone_number p with
                             | Some n => String.eqb n phone
                             | None => false
                             end)
                   (profiles w)), w)
    | InsertNotification n => fun w =>
        (Ok tt, set_notifications_sent (fun l => l ++ [n]) w)
    | SelectPendingAggregates k => fun w =>
        (Ok (pending_aggregates k w), w)
    | SelectPendingContacts k parent => fun w =>
        (Ok (pending_contacts k parent w), w)
    | UpdateContactStatus k id v => fun w =>
        (Ok tt,
         set_contacts k (update_where contact_id id (with_send_status (Some v)))
           w)
    | UpdateAggregateStatus k id v => fun w =>
        (Ok tt,
         set_aggregates k (update_where agg_id id (with_agg_status (Some v))) w)
    | SelectSentContacts phone => fun w =>
        (Ok (latest (sent_invitations phone w)), w)
    | UpdateContactReply id v => fun w =>
        (Ok tt,
         set_contacts Rsvp (update_where contact_id id (with_reply (Some v))) w)
    | MessagesCreate reason to text => fun w =>
        let r := twilio svc (outbox w) to text in
        (r, set_outbox (fun l => l ++ [mkdelivery reason to text r]) w)
    | ChatSendMessage past message => fun w => (gemini svc past message, w)
    | GuardTryAcquire id => fun w =>
        if bool_decide (id ∈ processing_events w) then (false, w)
        else (true, set_processing_events (fun s => {[id]} ∪ s) w)
    | GuardRelease id => fun w =>
        (tt, set_processing_events (fun s => s ∖ {[id]}) w)
    | SessionTouch user now => fun w =>
        (tt,
         set_conversations
           (fun m => <[user := mksession now
                                 (match m !! user with
                                  | Some s => history s
                                  | None => []
                                  end)]> m) w)
    | SessionHistory user => fun w =>
        (match conversations w !! user with
         | Some s => history s
         | None => []
         end, w)
    | SessionAppend user turns => fun w =>
        (tt,
         set_conversations
           (alter (fun s => mksession (last_message_time s)
                              (history s ++ turns)) user) w)
    end.

(* ===================================================================== *)
(** * Vocabulary of the statements                                        *)
(* ===================================================================== *)

(** The events of [user] in the month [m] of year [y], as the month
    query selects them from [rows]. *)
Definition events_in_month (user : string) (y m : Z) (rows : list event)
    : list event :=
  List.filter
    (fun e => String.eqb (user_id e) user
              && in_range (Some (mkdate y m 1))
                   (Some (if (m =? 12)%Z then mkdate (y + 1) 1 1
                          else mkdate y (m + 1) 1))
                   (event_date e))
    rows.

(** The operation asks the store for a user's events in a date range
    that is bounded on both sides (a month window). *)
Definition is_window_query (o : op) : bool :=
  match o with
  | SelectUserEvents _ (Some _) (Some _) => true
  | _ => false
  end.

(** The month-window queries a run issues, in order. *)
Definition window_queries {W A : Type} (h : handler W) (p : prog A) (w : W)
    : list op :=
  List.filter is_window_query (map io_op (trace h p w)).

(** The query for the month [m] of year [y]. *)
Definition month_query (user : string) (y m : Z) : op :=
  SelectUserEvents user (Some (mkdate y m 1))
    (Some (if (m =? 12)%Z then mkdate (y + 1) 1 1 else mkdate y (m + 1) 1)).

(** A [datetime.date]: year 1 to 9999, a month, a day of that month. *)
Definition valid_date (d : date) : bool :=
  ((1 <=? d_year d) && (d_year d <=? 9999)
   && (1 <=? d_month d) && (d_month d <=? 12)
   && (1 <=? d_day d)
   && (d_day d <=? nth (Z.to_nat (d_month d - 1)) days_in_month_table 0
                   + (if (d_month d =? 2) && is_leap (d_year d)
                      then 1 else 0)))%Z.

(** ** Footprints *)

(** Every operation a program can issue, whatever it is answered,
    satisfies [P]. *)
Fixpoint only_ops {A : Type} (P : op -> Prop) (p : prog A) : Prop :=
  match p with
  | Ret _ => True
  | Vis o k => P o /\ forall x, only_ops P (k x)
  end.

(** ** Events and reminders *)

(** [id] is a key of [events]. *)
Definition event_ids_unique (w : world) : Prop :=
  List.NoDup (map event_id (events w)).

(** The [notified] values stored under an event id. *)
Definition notified_of (id : Z) (w : world) : list (option string) :=
  map notified (List.filter (fun e => (event_id e =? id)%Z) (events w)).

Definition about_event (id : Z) (n : notification) : bool :=
  match n_event_id n with
  | Some i => (i =? id)%Z
  | None => false
  end.

(** The NotificationRecords of an event. *)
Definition records_for (id : Z) (w : world) : list notification :=
  List.filter (about_event id) (notifications_sent w).

(** The profile of the event's user can be resolved and has a phone
    number, and the user id is truthy: the dispatch reaches the gateway
    and logs the attempt. *)
Definition reachable (w : world) (e : event) : bool :=
  match single (List.filter (fun p => String.eqb (profile_id p) (user_id e))
                  (profiles w)) with
  | Ok p => truthy_opt (phone_number p) && truthy (user_id e)
  | Raise => false
  end.

(** What the first loop leaves in [events]: every fetched overdue row's
    id is written ['No']. *)
Definition expire (today : date) (rows evs : list event) : list event :=
  fold_left
    (fun evs e =>
       if overdue today e
       then update_where event_id (event_id e) (with_notified (Some "No"%string))
              evs
       else evs)
    rows evs.

(** [expire], row by row. *)
Definition expire_row (today : date) (rows : list event) (r : event) : event :=
  if existsb (fun c => overdue today c && (event_id c =? event_id r)%Z) rows
  then with_notified (Some "No"%string) r else r.

(** Some candidate has this id and its guard is free in [guard]: the
    second loop takes it up. *)
Definition dispatched (guard : gset Z) (cands : list event) (id : Z) : bool :=
  negb (bool_decide (id ∈ guard))
  && existsb (fun c => (event_id c =? id)%Z) cands.

(** What the second loop leaves in [events]. *)
Definition mark_yes (guard : gset Z) (cands : list event) (r : event) : event :=
  if dispatched guard cands (event_id r)
  then with_notified (Some "Yes"%string) r else r.

(** A candidate with this id is taken up and its attempt is logged. *)
Definition logged (w : world) (cands : list event) (id : Z) : bool :=
  dispatched (processing_events w) cands id
  && existsb (fun c => (event_id c =? id)%Z && reachable w c) cands.

(** The rows the check fetches, and those it finds due today. *)
Definition pending_rows (w : world) : list event :=
  List.filter (fun e => is_pending (notified e)) (events w).

Definition candidates (today : date) (w : world) : list event :=
  List.filter (due today) (pending_rows w).

(** What one uninterrupted check does to a row of [events]. *)
Definition tick_row (today : date) (guard : gset Z) (r : event) : event :=
  if is_pending (notified r) then
    if overdue today r then with_notified (Some "No"%string) r
    else if due today r && negb (bool_decide (event_id r ∈ guard))
    then with_notified (Some "Yes"%string) r
    else r
  else r.

(** A run answered an [update({'notified': 'Yes'})] for [id] with at
    least one row. *)
Definition confirms (id : Z) (ev : io) : bool :=
  match ev with
  | mkio o r =>
      match o as o0 return resp o0 -> bool with
      | UpdateEventNotified j v =>
          fun r => (j =? id)%Z && String.eqb v "Yes"
                   && match r with
                      | Ok (_ :: _) => true
                      | _ => false
                      end
      | _ => fun _ => false
      end r
  end.

(** The operation is a reminder send for event [id]. *)
Definition is_reminder_send (id : Z) (o : op) : bool :=
  match o with
  | MessagesCreate (Reminder (Some j)) _ _ => (j =? id)%Z
  | _ => false
  end.

Definition is_send (o : op) : bool :=
  match o with
  | MessagesCreate _ _ _ => true
  | _ => false
  end.

(** In a trace, every reminder send for [id] comes after a confirmed
    write of ['Yes'] for [id]. *)
Definition sends_follow_confirmation (id : Z) (t : list io) : Prop :=
  forall pre ev post,
    t = pre ++ ev :: post ->
    is_reminder_send id (io_op ev) = true ->
    existsb (confirms id) pre = true.

(** The same, as a check along the trace: [confirmed] tells whether a
    confirmation was already seen. *)
Fixpoint guarded (id : Z) (confirmed : bool) (t : list io) : bool :=
  match t with
  | [] => true
  | ev :: t' =>
      if is_reminder_send id (io_op ev)
      then confirmed && guarded id confirmed t'
      else guarded id (confirmed || confirms id ev) t'
  end.

(** A store that refuses the write of [notified]: the update answers
    with no row and changes nothing; all else is [exec]. *)
Definition exec_refusing (svc : services) : handler world :=
  fun o =>
    match o as o0 return world -> resp o0 * world with
    | UpdateEventNotified _ _ => fun w => (Ok [], w)
    | o' => exec svc o'
    end.

(** The operations a dispatch of the events with ids [ids] may issue. *)
Definition dispatch_op (ids : list Z) (o : op) : Prop :=
  match o with
  | GuardTryAcquire i | GuardRelease i | SelectEventNotified i => In i ids
  | UpdateEventNotified i v => In i ids /\ v = "Yes"%string
  | SelectProfile _ => True
  | MessagesCreate (Reminder (Some i)) _ _ => In i ids
  | InsertNotification n => exists i, n_event_id n = Some i /\ In i ids
  | _ => False
  end.

(** The only operation of the first loop: an overdue event's ['No']. *)
Definition scan_op (o : op) : Prop :=
  exists i, o = UpdateEventNotified i "No"%string.

(** The operation takes the guard of event [id], or sends its reminder. *)
Definition dispatches (id : Z) (o : op) : bool :=
  match o with
  | GuardTryAcquire i => (i =? id)%Z
  | MessagesCreate (Reminder (Some i)) _ _ => (i =? id)%Z
  | _ => false
  end.


(** The store after one uninterrupted check. *)
Definition after_check (svc : services) (today : date) (w : world) : world :=
  snd (run (exec svc) (check_and_send_notifications today) w).


(** ** Fan-out *)

Definition kind_eqb (a b : kind) : bool :=
  match a, b with
  | Messages, Messages | Rsvp, Rsvp => true
  | _, _ => false
  end.

(** The delivery is a fan-out send of kind [k] for the contact [cid]. *)
Definition tagged (k : kind) (cid : Z) (d : delivery) : bool :=
  match why d with
  | Fanout k' i => kind_eqb k' k && (i =? cid)%Z
  | _ => false
  end.

(** The gateway's record of the sends for a contact. *)
Definition attempts (k : kind) (cid : Z) (w : world) : list delivery :=
  List.filter (tagged k cid) (outbox w).

(** The status a contact is left with after a send: ['sent'], or the
    empty string when the gateway raised. *)
Definition status_of_answer (r : result string) : string :=
  match r with
  | Ok _ => "sent"
  | Raise => ""
  end.

Definition is_ok (r : result string) : bool :=
  match r with
  | Ok _ => true
  | Raise => false
  end.

(** The delivery states stored under a contact id, and the states
    stored under an aggregate id. *)
Definition statuses (k : kind) (cid : Z) (w : world) : list (option string) :=
  map send_status
    (List.filter (fun c => (contact_id c =? cid)%Z) (contacts_of k w)).

Definition aggregate_statuses (k : kind) (aid : Z) (w : world)
    : list (option string) :=
  map agg_status
    (List.filter (fun a => (agg_id a =? aid)%Z) (aggregates_of k w)).

(** What a sequence of fan-out sends leaves in a contact row. *)
Definition settle (k : kind) (news : list delivery) (r : contact) : contact :=
  fold_left
    (fun r d =>
       if tagged k (contact_id r) d
       then with_send_status (Some (status_of_answer (answer d))) r
       else r)
    news r.

(** [d] is the send of a fan-out tick to the contact [c]. *)
Definition attempt_of (svc : services) (k : kind) (text : option string)
    (c : contact) (d : delivery) : Prop :=
  why d = Fanout k (contact_id c)
  /\ to_address d = contact_address (contact_phone c)
  /\ body d = text
  /\ exists sent_before, answer d = twilio svc sent_before (to_address d) text.

(** The store after one fan-out tick, and after [n] of them. *)
Definition after_fan_out (svc : services) (k : kind) (w : world) : world :=
  snd (run (exec svc) (fan_out k) w).

Fixpoint after_fan_outs (svc : services) (k : kind) (n : nat) (w : world)
    : world :=
  match n with
  | O => w
  | S n' => after_fan_outs svc k n' (after_fan_out svc k w)
  end.

(** [id] is a key of the aggregate table and of the contact table. *)
Definition fan_out_ids_unique (k : kind) (w : world) : Prop :=
  List.NoDup (map agg_id (aggregates_of k w))
  /\ List.NoDup (map contact_id (contacts_of k w)).

(** The aggregate [q] is rolled up by a run of the aggregate loop over
    [aggs] that starts in [w] and ends in [w']: it is in the loop, it
    had pending contacts in [w], and each of them ends ['sent']. *)
Definition rolled_up (k : kind) (aggs : list aggregate) (q : Z)
    (w w' : world) : Prop :=
  In q (map agg_id aggs)
  /\ pending_contacts k q w <> []
  /\ forall c, In c (pending_contacts k q w) ->
               statuses k (contact_id c) w' = [Some "sent"%string].

(** All the contact rows stored under an aggregate, whatever their
    state, and whether each of them reads ['sent']. *)
Definition contact_rows (k : kind) (aid : Z) (w : world) : list contact :=
  List.filter (fun c => (parent_id c =? aid)%Z) (contacts_of k w).

Definition is_sent (s : option string) : bool :=
  match s with
  | Some s => String.eqb s "sent"
  | None => false
  end.

Definition all_rows_sent (k : kind) (aid : Z) (w : world) : bool :=
  forallb (fun c => is_sent (send_status c)) (contact_rows k aid w).

(** ** Two checks at once

    A thread-local protocol.  [follows permit rely next p g Q]: from the
    stage [g] the program [p] issues only operations its stage permits,
    whatever answers it gets among those its stage lets it rely on, and
    returns a value and a stage that satisfy [Q]. *)
Section Protocol.
Context {G : Type}.
Context (permit : G -> op -> Prop).
Context (rely : G -> forall o : op, resp o -> Prop).
Context (next : G -> forall o : op, resp o -> G).

Fixpoint follows {A : Type} (p : prog A) (g : G) (Q : A -> G -> Prop)
    : Prop :=
  match p with
  | Ret a => Q a g
  | Vis o k =>
      permit g o /\ forall r, rely g o r -> follows (k r) (next g o r) Q
  end.

End Protocol.










Section CheckProtocol.
Context (e : event) (ids : list Z) (pr : result profile).






End CheckProtocol.


(** The store after two checks interleaved by [sched]. *)
Definition after_checks (svc : services) (today : date) (sched : list bool)
    (w : world) : world :=
  snd (interleave (exec svc) sched (check_and_send_notifications today)
         (check_and_send_notifications today) w).

(** ** Sample data *)

(** A gateway and a chat that accept everything, and ones that fail
    every call. *)
Definition accepting : services :=
  mkservices (fun _ _ _ => Ok "SM0001"%string) (fun _ _ => Ok "Noted."%string).

Definition failing : services :=
  mkservices (fun _ _ _ => Raise) (fun _ _ => Raise).

Definition empty_world : world := mkworld [] [] [] [] [] [] [] [] ∅ ∅.

(** The first of March 2024, at midnight. *)
Definition march_first : datetime := mkdatetime (mkdate 2024 3 1) 0.

(** The two events of the spec's context-filtering example. *)
Definition two_events_world : world :=
  set_events
    (fun _ => [mkevent 1 "Review" (mkdate 2024 3 5) 1 "deadline" "u1" None;
               mkevent 2 "Launch" (mkdate 2024 4 10) 1 "deadline" "u1" None])
    empty_world.

(** Three events and one profile.  On the third of March 2024 the
    dentist reminder is due, the tax reminder is overdue and the picnic
    is not yet due; on the ninth of April the picnic is due, and its
    user has no profile. *)
Definition dentist : event :=
  mkevent 1 "Dentist" (mkdate 2024 3 5) 2 "deadline" "u1" None.

Definition taxes : event :=
  mkevent 2 "Taxes" (mkdate 2024 3 1) 0 "recurrence" "u1" (Some ""%string).

Definition picnic : event :=
  mkevent 3 "Picnic" (mkdate 2024 4 10) 1 "deadline" "u2" None.

Definition reminders_world : world :=
  mkworld [dentist; taxes; picnic]
    [mkprofile "u1" (Some "Ann"%string) (Some "15550001"%string)]
    [] [] [] [] [] [] ∅ ∅.

Definition march_third : date := mkdate 2024 3 3.

(** The spec's reply example: two sent invitations, ids 10 and 14, for
    one phone number, and a third for another number. *)
Definition invitations_world : world :=
  mkworld [] [] [] [] [] []
    [mkcontact 10 1 "+15550001" (Some "sent"%string) None;
     mkcontact 12 1 "+15550002" (Some "sent"%string) None;
     mkcontact 14 2 "+15550001" (Some "sent"%string) None]
    [] ∅ ∅.

(** A gateway that refuses one number and accepts the others. *)
Definition flaky : services :=
  mkservices
    (fun _ to _ =>
       if String.eqb to "whatsapp:+15550002" then Raise
       else Ok "SM0001"%string)
    (fun _ _ => Ok "Noted."%string).

(** Two pending broadcasts.  The first has a pending contact and one
    left ['processing']; the only contact of the second is ['sent']
    already. *)
Definition hello : aggregate :=
  mkaggregate 1 None (Some "Hello"%string) None.

Definition goodbye : aggregate :=
  mkaggregate 2 None (Some "Goodbye"%string) None.

Definition broadcasts_world : world :=
  mkworld [] [] [] [hello; goodbye]
    [mkcontact 21 1 "+15550001" None None;
     mkcontact 22 1 "+15550003" (Some "processing"%string) None;
     mkcontact 23 2 "+15550004" (Some "sent"%string) None]
    [] [] [] ∅ ∅.

(** One pending broadcast with two pending contacts; [flaky] refuses
    the first of them. *)
Definition refused : contact := mkcontact 31 1 "+15550002" None None.

Definition flaky_world : world :=
  mkworld [] [] [] [hello]
    [refused; mkcontact 32 1 "+15550001" None None]
    [] [] [] ∅ ∅.

(** ** Guards and counters along a trace *)




(** A gateway send that was accepted, and one that raised. *)
Definition accepted (ev : io) : bool :=
  match ev with
  | mkio o r =>
      match o as o0 return resp o0 -> bool with
      | MessagesCreate _ _ _ => fun r => match r with
                                         | Ok _ => true
                                         | Raise => false
                                         end
      | _ => fun _ => false
      end r
  end.

Definition refused_send (ev : io) : bool :=
  match ev with
  | mkio o r =>
      match o as o0 return resp o0 -> bool with
      | MessagesCreate _ _ _ => fun r => match r with
                                         | Ok _ => false
                                         | Raise => true
                                         end
      | _ => fun _ => false
      end r
  end.

(** ** What a program may touch *)

(** The operations of a fan-out tick of kind [k]: the queries and
    writes on its own pair of tables, and its sends. *)
Definition fan_out_op (k : kind) (o : op) : Prop :=
  match o with
  | SelectPendingAggregates k' | SelectPendingContacts k' _
  | UpdateContactStatus k' _ _ | UpdateAggregateStatus k' _ _ => k' = k
  | MessagesCreate (Fanout k' _) _ _ => k' = k
  | _ => False
  end.

(** The operations of the reply handler: the query for the sent
    invitations, the write of the answer, the confirmation send. *)
Definition rsvp_reply_op (o : op) : Prop :=
  match o with
  | SelectSentContacts _ | UpdateContactReply _ _ => True
  | MessagesCreate Confirmation _ _ => True
  | _ => False
  end.


(** The other pair of fan-out tables. *)
Definition other_kind (k : kind) : kind :=
  match k with
  | Messages => Rsvp
  | Rsvp => Messages
  end.

(** ** Replies *)

(** Every character of the string is one [\s] matches. *)
Fixpoint all_space (s : string) : bool :=
  match s with
  | EmptyString => true
  | String c rest => re_space c && all_space rest
  end.

(** The three texts the reply handler answers besides the
    confirmation. *)
Definition not_understood_reply : string :=
  "Sorry, I didn't understand your RSVP response. Please reply with 'rsvp: yes' or 'rsvp: no'.".

Definition no_invitation_reply : string :=
  "Sorry, we could not find your RSVP invitation. Please ensure you are replying from the same WhatsApp number you received the invite on.".

(** The store after a reply was handled. *)
Definition after_reply (svc : services) (from_number body : string)
    (w : world) : world :=
  snd (run (exec svc) (handle_rsvp_reply from_number body) w).

(** ** Flask routes *)

(** [str.strip()] on ASCII text: the white space of [\s] is dropped at
    both ends. *)
Fixpoint rstrip (s : string) : string :=
  match s with
  | EmptyString => EmptyString
  | String c rest =>
      match rstrip rest with
      | EmptyString =>
          if re_space c then EmptyString else String c EmptyString
      | String c' rest' => String c (String c' rest')
      end
  end.

Definition strip (s : string) : string := rstrip (skip_spaces s).

(** [request.values.get(key, '').strip()]. *)
Definition form_value (v : option string) : string :=
  strip (match v with
         | Some s => s
         | None => ""%string
         end).

(** [twilio_webhook]: the text of the reply; [Body] and [From] are the
    two form values of the request, when present. *)
Definition twilio_webhook (gemini_model : bool) (now : datetime)
    (Body From : option string) : prog string :=
  let incoming_msg := form_value Body in
  let from_whatsapp_number := form_value From in
  if startswith "rsvp:" (lower incoming_msg)
  then handle_rsvp_reply from_whatsapp_number incoming_msg
  else handle_ai_conversation gemini_model now from_whatsapp_number
         incoming_msg.

(** A JSON answer of a route: the HTTP status code, the ['status']
    field and the ['message'] field; the message of an answer built
    from a caught exception is that exception's text, [None] here. *)
Record http_reply := mkreply {
  reply_code : Z;
  reply_status : string;
  reply_message : option string
}.

(** [manual_check_notifications]; the check itself catches every
    exception, so the route's own [except] has nothing to catch. *)
Definition manual_check_notifications (today : date) : prog http_reply :=
  let+ _ := check_and_send_notifications today in
  Ret (mkreply 200 "success"
         (Some "Manual notification check completed. Check server logs for details."%string)).

(** The test message, after [.strip()]. *)
Definition test_message (user_profile : profile) : string :=
  ("ðŸ”” Test Notification" +:+ nl +:+ nl
   +:+ "Hi " +:+ str_of (full_name user_profile) +:+ "!" +:+ nl +:+ nl
   +:+ "This is a test message from RemindMe to verify WhatsApp notifications are working correctly."
   +:+ nl +:+ nl
   +:+ "If you received this message, your notifications are set up properly! ðŸŽ‰")%string.

(** [test_notification]. *)
Definition test_notification (user_id : string) : prog http_reply :=
  let+ user_response := call (SelectProfile user_id) in
  match user_response with
  | Raise => Ret (mkreply 500 "error" None)
  | Ok user_profile =>
      match phone_number user_profile with
      | Some phone =>
          if truthy phone then
            let+ ok := send_whatsapp_notification phone
                         (test_message user_profile) user_id None
                         "test_notification" in
            if ok
            then Ret (mkreply 200 "success"
                        (Some ("Test notification sent to " +:+ phone)%string))
            else Ret (mkreply 500 "error"
                        (Some "Failed to send test notification"%string))
          else Ret (mkreply 404 "error"
                      (Some "User not found or no phone number"%string))
      | None =>
          Ret (mkreply 404 "error"
                 (Some "User not found or no phone number"%string))
      end
  end.

(** The text [handle_ai_conversation] answers to a number it cannot
    resolve. *)
Definition unidentified_reply : string :=
  "I'm sorry, I can't identify your account. Please ensure your phone number is registered in our system.".

(** The operations of [get_gemini_response]: the event queries, the
    session and the chat. *)
Definition engine_op (o : op) : Prop :=
  match o with
  | SelectUserEvents _ _ _ => True
  | SessionTouch _ _ | SessionHistory _ | SessionAppend _ _ => True
  | ChatSendMessage _ _ => True
  | _ => False
  end.

(** The store after the webhook handled a request. *)
Definition after_webhook (svc : services) (gemini_model : bool)
    (now : datetime) (Body From : option string) (w : world) : world :=
  snd (run (exec svc) (twilio_webhook gemini_model now Body From) w).

(** Two profiles that share a phone number. *)
Definition shared_phone_world : world :=
  mkworld []
    [mkprofile "u1" (Some "Ann"%string) (Some "+15550001"%string);
     mkprofile "u2" (Some "Bob"%string) (Some "+15550001"%string)]
    [] [] [] [] [] [] ∅ ∅.

(** A store that is down: the query for the pending events raises;
    all else is [exec]. *)
Definition exec_down (svc : services) : handler world :=
  fun o =>
    match o as o0 return world -> resp o0 * world with
    | SelectPendingEvents => fun w => (Raise, w)
    | o' => exec svc o'
    end.

(** ** Conversations *)


(** Four events of one user around the turn of a year. *)
Definition year_end_world : world :=
  set_events
    (fun _ => [mkevent 1 "Advent" (mkdate 2024 11 30) 1 "deadline" "u1" None;
               mkevent 2 "Solstice" (mkdate 2024 12 1) 1 "deadline" "u1" None;
               mkevent 3 "New Year's Eve" (mkdate 2024 12 31) 1 "recurrence"
                 "u1" None;
               mkevent 4 "New Year" (mkdate 2025 1 1) 1 "recurrence" "u1"
                 None])
    empty_world.



(* ===================================================================== *)
(** * Running programs: general facts                                     *)
(* ===================================================================== *)

Section Running.
Context {W : Type} (h : handler W).

Lemma run_pbind {A B : Type} (p : prog A) (f : A -> prog B) (w : W) :
  run h (pbind p f) w = run h (f (fst (run h p w))) (snd (run h p w)).
Proof.
  revert w. induction p as [a | o k IH]; intros w; simpl; [reflexivity |].
  apply IH.
Qed.

Lemma trace_pbind {A B : Type} (p : prog A) (f : A -> prog B) (w : W) :
  trace h (pbind p f) w
  = trace h p w ++ trace h (f (fst (run h p w))) (snd (run h p w)).
Proof.
  revert w. induction p as [a | o k IH]; intros w; simpl; [reflexivity |].
  f_equal. apply IH.
Qed.

Lemma run_bind {A B : Type} (m : prog (result A))
    (f : A -> prog (result B)) (w : W) :
  run h (bind m f) w
  = match fst (run h m w) with
    | Ok a => run h (f a) (snd (run h m w))
    | Raise => (Raise, snd (run h m w))
    end.
Proof.
  unfold bind. rewrite run_pbind. destruct (fst (run h m w)); reflexivity.
Qed.

Lemma trace_bind {A B : Type} (m : prog (result A))
    (f : A -> prog (result B)) (w : W) :
  trace h (bind m f) w
  = trace h m w ++ match fst (run h m w) with
                   | Ok a => trace h (f a) (snd (run h m w))
                   | Raise => []
                   end.
Proof.
  unfold bind. rewrite trace_pbind. destruct (fst (run h m w)); reflexivity.
Qed.

Lemma run_call (o : op) (w : W) : run h (call o) w = h o w.
Proof. simpl. destruct (h o w); reflexivity. Qed.

Lemma trace_call (o : op) (w : W) :
  trace h (call o) w = [mkio o (fst (h o w))].
Proof. reflexivity. Qed.

Lemma run_try_finally {A : Type} (m : prog (result A)) (fin : prog unit)
    (w : W) :
  run h (try_finally m fin) w
  = (fst (run h m w), snd (run h fin (snd (run h m w)))).
Proof. unfold try_finally. rewrite !run_pbind. reflexivity. Qed.

Lemma trace_try_finally {A : Type} (m : prog (result A)) (fin : prog unit)
    (w : W) :
  trace h (try_finally m fin) w
  = trace h m w ++ trace h fin (snd (run h m w)).
Proof.
  unfold try_finally. rewrite !trace_pbind. simpl. rewrite app_nil_r.
  reflexivity.
Qed.

(** Interleaving with an empty schedule is running one after the other. *)
Lemma interleave_nil {A B : Type} (p : prog A) (q : prog B) (w : W) :
  interleave h [] p q w
  = (fst (run h p w), fst (run h q (snd (run h p w))),
     snd (run h q (snd (run h p w)))).
Proof. reflexivity. Qed.

End Running.

(* ===================================================================== *)
(** * Strings                                                             *)
(* ===================================================================== *)

Lemma contains_unfold (needle hay : string) :
  contains needle hay
  = startswith needle hay
    || match hay with
       | EmptyString => false
       | String _ rest => contains needle rest
       end.
Proof. destruct hay; reflexivity. Qed.

Lemma prefix_app_contains (a b s : string) :
  startswith (a +:+ b) s = true -> contains b s = true.
Proof.
  unfold startswith. revert s. induction a as [| c a IH]; intros s H.
  - rewrite contains_unfold. apply orb_true_iff. left. exact H.
  - destruct s as [| c' s]; simpl in H; [discriminate |].
    destruct (ascii_dec c c'); [| discriminate].
    rewrite contains_unfold, (IH s H). apply orb_true_r.
Qed.

Lemma contains_app_r (a b s : string) :
  contains (a +:+ b) s = true -> contains b s = true.
Proof.
  induction s as [| c s IH]; rewrite contains_unfold; intros H;
    apply orb_true_iff in H; destruct H as [H | H].
  - apply (prefix_app_contains a b _ H).
  - discriminate.
  - apply (prefix_app_contains a b _ H).
  - rewrite contains_unfold, (IH H). apply orb_true_r.
Qed.

Lemma find_none_of {A : Type} (f : A -> bool) (l : list A) :
  (forall x, In x l -> f x = false) -> List.find f l = None.
Proof.
  induction l as [| x l IH]; intros H; simpl; [reflexivity |].
  rewrite (H x (or_introl eq_refl)). apply IH.
  intros y Hy. apply H. right. exact Hy.
Qed.

(* ===================================================================== *)
(** * Conversation engine                                                 *)
(* ===================================================================== *)

(** Answer the next operation of a run: name its answer and the state
    it leaves. *)
Ltac next_op h :=
  match goal with
  | |- context [h ?o ?w] =>
      is_var w;
      let x := fresh "x" in
      let w' := fresh "w" in
      destruct (h o w) as [x w'] eqn:?; cbn [fst snd]
  end.

Section Engine.
Context {W : Type} (h : handler W).

Lemma window_queries_pbind {A B : Type} (p : prog A) (f : A -> prog B) (w : W) :
  window_queries h (pbind p f) w
  = window_queries h p w
    ++ window_queries h (f (fst (run h p w))) (snd (run h p w)).
Proof.
  unfold window_queries. rewrite trace_pbind, map_app, List.filter_app. reflexivity.
Qed.

Lemma window_queries_get_user_events user m y up today w :
  window_queries h (get_user_events user m y up today) w
  = List.filter is_window_query
      [SelectUserEvents user (fst (events_range m y up today))
         (snd (events_range m y up today))].
Proof.
  unfold window_queries, get_user_events, call. cbn [pbind trace].
  next_op h. destruct x; reflexivity.
Qed.

Lemma window_queries_month user m y today w :
  m <> 0%Z -> y <> 0%Z ->
  window_queries h (get_user_events user (Some m) (Some y) false today) w
  = [month_query user y m].
Proof.
  intros Hm Hy. rewrite window_queries_get_user_events.
  unfold events_range, truthy_int.
  destruct (Z.eqb_spec m 0); [contradiction |].
  destruct (Z.eqb_spec y 0); [contradiction |]. reflexivity.
Qed.

Lemma window_queries_chat_turn user text prompt w :
  window_queries h (chat_turn user text prompt) w = [].
Proof.
  unfold window_queries, chat_turn, bind, call. cbn [pbind trace].
  next_op h. next_op h. destruct x0; cbn [pbind trace]; [next_op h |];
    reflexivity.
Qed.

Lemma window_queries_filtered_context user text all cur ctx w :
  window_queries h (filtered_context user text all cur ctx) w
  = if any_in schedule_keywords (lower text)
    then window_queries h
           (filter_events user all cur (analyze_event_query text)) w
    else [].
Proof.
  unfold filtered_context.
  destruct (any_in schedule_keywords (lower text)); [| reflexivity].
  cbv zeta. rewrite window_queries_pbind.
  destruct (fst (fst (run h (filter_events _ _ _ _) w)));
    unfold window_queries at 2; simpl; apply app_nil_r.
Qed.

(** The month windows [get_gemini_response] asks for are those of its
    gated filtering block. *)
Lemma window_queries_gemini now user text w :
  exists all w',
    window_queries h (get_gemini_response true now user text) w
    = if any_in schedule_keywords (lower text)
      then window_queries h
             (filter_events user all (dt_date now)
                (analyze_event_query text)) w'
      else [].
Proof.
  unfold get_gemini_response. simpl negb. cbv iota.
  rewrite window_queries_pbind. unfold window_queries at 1.
  unfold call at 1. cbn [trace map List.filter is_window_query io_op app].
  rewrite window_queries_pbind.
  unfold gemini_try at 1. rewrite !window_queries_pbind.
  rewrite window_queries_get_user_events. cbn [events_range fst snd List.filter is_window_query app].
  rewrite window_queries_filtered_context, window_queries_chat_turn.
  eexists _, _.
  match goal with |- (?a ++ []) ++ ?b = _ => assert (b = []) as -> end.
  { match goal with |- context [match ?r with Ok _ => _ | Raise => _ end] => destruct r end; reflexivity. }
  rewrite !app_nil_r. reflexivity.
Qed.

Lemma gemini_result_cases now user text w :
  let r := fst (run h (get_gemini_response true now user text) w) in
  r = apology_reply
  \/ exists past msg w', fst (h (ChatSendMessage past msg) w') = Ok r.
Proof.
  unfold get_gemini_response. simpl negb. cbv iota zeta.
  rewrite !run_pbind. unfold gemini_try. rewrite !run_pbind.
  unfold chat_turn, bind, call. cbn [pbind run].
  match goal with |- context [h (ChatSendMessage ?p ?m) ?w0] =>
    destruct (h (ChatSendMessage p m) w0) as [r w1] eqn:E
  end.
  cbn [fst snd]. destruct r as [t |]; cbn [pbind run fst snd ret].
  - right. do 3 eexists. rewrite E. reflexivity.
  - left. reflexivity.
Qed.

Lemma gemini_raise_gives_apology now user text w :
  (forall past msg w', fst (h (ChatSendMessage past msg) w') = Raise) ->
  fst (run h (get_gemini_response true now user text) w) = apology_reply.
Proof.
  intros Hfail.
  destruct (gemini_result_cases now user text w) as [E | (past & msg & w' & E)];
    [exact E |].
  rewrite Hfail in E. discriminate.
Qed.

End Engine.

Lemma keyword_month (s : string) :
  contains "month" s = true -> any_in schedule_keywords s = true.
Proof.
  intros H. unfold any_in. apply existsb_exists. exists "month"%string.
  split; [| exact H]. do 9 right. left. reflexivity.
Qed.

Lemma analyze_month_range (text : string) (n : Z) :
  analyze_event_query text = specific_month n -> (1 <= n <= 12)%Z.
Proof.
  unfold analyze_event_query. cbv zeta.
  destruct (List.find _ month_names) as [[name m] |] eqn:E.
  - intros [= <-]. apply find_some in E. destruct E as [Hin _].
    simpl in Hin.
    repeat (destruct Hin as [Hin | Hin]; [injection Hin as _ <-; lia |]).
    contradiction.
  - repeat match goal with |- context [if ?b then _ else _] => destruct b end;
      discriminate.
Qed.

Lemma valid_date_nonzero (d : date) :
  valid_date d = true -> d_year d <> 0%Z /\ d_month d <> 0%Z.
Proof.
  unfold valid_date. rewrite !andb_true_iff, !Z.leb_le. lia.
Qed.

(** C8: a query that says "next month" and names no month is classified
    as [current_month], never as [next_month], because the bare keyword
    "month" of the earlier group already matches; the month window the
    engine then asks the store for is the current month. *)
Theorem next_month_query_gets_current_month {W : Type} (h : handler W)
    (now : datetime) (user text : string) (w : W) :
  valid_date (dt_date now) = true ->
  contains "next month" (lower text) = true ->
  (forall mn, In mn month_names -> contains (fst mn) (lower text) = false) ->
  analyze_event_query text = current_month
  /\ window_queries h (get_gemini_response true now user text) w
     = [month_query user (d_year (dt_date now)) (d_month (dt_date now))].
Proof.
  intros Hvalid Hnext Hnames.
  assert (Hmonth : contains "month" (lower text) = true)
    by exact (contains_app_r "next " "month" _ Hnext).
  assert (Hq : analyze_event_query text = current_month).
  { unfold analyze_event_query. cbv zeta.
    rewrite (find_none_of _ _ Hnames).
    unfold any_in at 1. cbn [existsb]. rewrite Hmonth, !orb_true_r.
    reflexivity. }
  split; [exact Hq |].
  destruct (window_queries_gemini h now user text w) as (evs & w' & ->).
  rewrite (keyword_month _ Hmonth), Hq.
  destruct (valid_date_nonzero _ Hvalid) as [Hy Hm].
  unfold filter_events. rewrite window_queries_pbind.
  rewrite (window_queries_month h _ _ _ _ _ Hm Hy). reflexivity.
Qed.

Lemma next_month_query_gets_current_month_witness :
  analyze_event_query "What is on next month?" = current_month
  /\ window_queries (exec accepting)
       (get_gemini_response true march_first "u1" "What is on next month?")
       two_events_world
     = [month_query "u1" 2024 3].
Proof.
  apply (next_month_query_gets_current_month (exec accepting) march_first
           "u1" "What is on next month?" two_events_world).
  - reflexivity.
  - reflexivity.
  - intros mn Hin. simpl in Hin.
    repeat (destruct Hin as [<- | Hin]; [reflexivity |]). contradiction.
Defined.

(** The classifier never answers [next_month]. *)
Lemma next_month_unreachable (text : string) :
  analyze_event_query text <> next_month.
Proof.
  unfold analyze_event_query. cbv zeta.
  destruct (List.find _ month_names) as [[name m] |]; [discriminate |].
  destruct (any_in ["this month"; "current month"; "month"]%string _) eqn:E1;
    [discriminate |].
  destruct (any_in ["next month"; "following month"]%string _) eqn:E2.
  - exfalso. unfold any_in in E1, E2. cbn [existsb] in E1, E2.
    rewrite !orb_false_r in E2. rewrite !orb_false_iff in E1.
    destruct E1 as (_ & _ & E1 & _).
    apply orb_true_iff in E2. destruct E2 as [E2 | E2].
    + rewrite (contains_app_r "next " "month" _ E2) in E1. discriminate.
    + rewrite (contains_app_r "following " "month" _ E2) in E1. discriminate.
  - repeat match goal with |- context [if ?b then _ else _] => destruct b end;
      discriminate.
Qed.

(** C9: without a configured model the engine answers the fixed
    "unavailable" text and does nothing else; when the chat call raises
    it answers the fixed apology; and whatever the collaborators do, it
    returns a text: the apology or what the chat answered. *)
Theorem gemini_failure_gives_fallback {W : Type} (h : handler W)
    (now : datetime) (user text : string) (w : W) :
  run h (get_gemini_response false now user text) w = (unavailable_reply, w)
  /\ ((forall past msg w', fst (h (ChatSendMessage past msg) w') = Raise) ->
      fst (run h (get_gemini_response true now user text) w) = apology_reply)
  /\ (fst (run h (get_gemini_response true now user text) w) = apology_reply
      \/ exists past msg w',
           fst (h (ChatSendMessage past msg) w')
           = Ok (fst (run h (get_gemini_response true now user text) w))).
Proof.
  split; [reflexivity |]. split.
  - apply gemini_raise_gives_apology.
  - apply gemini_result_cases.
Qed.

Lemma gemini_failure_gives_fallback_witness :
  fst (run (exec failing)
         (get_gemini_response true march_first "u1" "What is due this week?")
         two_events_world)
  = apology_reply.
Proof.
  apply (gemini_failure_gives_fallback (exec failing) march_first "u1"
           "What is due this week?" two_events_world).
  intros past msg w'. reflexivity.
Defined.

(** The store answers a month query with the user's events of that month. *)
Lemma month_query_answer (svc : services) (user : string) (y m : Z)
    (w : world) :
  exec svc (month_query user y m) w
  = (Ok (events_in_month user y m (events w)), w).
Proof. reflexivity. Qed.

(** C10, as the code has it: behind the keyword gate, a query classified
    as naming month [n] asks for that month of the next year when [n] is
    below the current month, and of the current year otherwise. *)
Theorem named_month_window {W : Type} (h : handler W) (now : datetime)
    (user text : string) (n : Z) (w : W) :
  valid_date (dt_date now) = true ->
  any_in schedule_keywords (lower text) = true ->
  analyze_event_query text = specific_month n ->
  window_queries h (get_gemini_response true now user text) w
  = [month_query user
       (if (n <? d_month (dt_date now))%Z then (d_year (dt_date now) + 1)%Z
        else d_year (dt_date now)) n].
Proof.
  intros Hvalid Hgate Hq.
  destruct (window_queries_gemini h now user text w) as (evs & w' & ->).
  rewrite Hgate, Hq.
  destruct (valid_date_nonzero _ Hvalid) as [Hy Hm].
  pose proof (analyze_month_range _ _ Hq) as Hn.
  unfold filter_events. rewrite window_queries_pbind.
  rewrite window_queries_month; [reflexivity | lia |].
  destruct (n <? d_month (dt_date now))%Z; [| exact Hy].
  unfold valid_date in Hvalid. rewrite !andb_true_iff, !Z.leb_le in Hvalid.
  lia.
Qed.

Lemma named_month_window_witness :
  window_queries (exec accepting)
    (get_gemini_response true march_first "u1" "Any events in January?")
    two_events_world
  = [month_query "u1" 2025 1]
  /\ window_queries (exec accepting)
       (get_gemini_response true march_first "u1" "Any events in April?")
       two_events_world
     = [month_query "u1" 2024 4].
Proof.
  split.
  - apply (named_month_window (exec accepting) march_first "u1"
             "Any events in January?" 1 two_events_world); reflexivity.
  - apply (named_month_window (exec accepting) march_first "u1"
             "Any events in April?" 4 two_events_world); reflexivity.
Defined.

(** C10 as stated fails: "january plans" names January, which is before
    March, yet it holds none of the gate's keywords, so no month window
    is asked for at all. *)
Lemma named_month_without_keyword_has_no_window :
  analyze_event_query "january plans" = specific_month 1
  /\ (1 <? d_month (dt_date march_first))%Z = true
  /\ window_queries (exec accepting)
       (get_gemini_response true march_first "u1" "january plans")
       two_events_world
     = []
  /\ window_queries (exec accepting)
       (get_gemini_response true march_first "u1" "january plans")
       two_events_world
     <> [month_query "u1" 2025 1].
Proof. repeat split; try reflexivity. vm_compute. discriminate. Qed.

(* ===================================================================== *)
(** * Footprints and guarded sends                                        *)
(* ===================================================================== *)

Lemma guarded_mono id c1 c2 t :
  (c1 = true -> c2 = true) -> guarded id c1 t = true -> guarded id c2 t = true.
Proof.
  revert c1 c2. induction t as [| ev t IH]; intros c1 c2 Hc; simpl; [reflexivity |].
  destruct (is_reminder_send id (io_op ev)).
  - rewrite !andb_true_iff. intros [H1 H2]. split; [auto | eapply IH; eauto].
  - apply IH. rewrite !orb_true_iff. intros [H | H]; auto.
Qed.

Lemma guarded_app id c t1 t2 :
  guarded id c t1 = true -> guarded id c t2 = true ->
  guarded id c (t1 ++ t2) = true.
Proof.
  revert c. induction t1 as [| ev t1 IH]; intros c H1 H2; simpl in *; [exact H2 |].
  destruct (is_reminder_send id (io_op ev)).
  - apply andb_true_iff in H1. destruct H1 as [Hc H1]. subst c. simpl.
    apply IH; assumption.
  - apply IH; [exact H1 |].
    eapply guarded_mono; [| exact H2]. intros ->. reflexivity.
Qed.

Lemma guarded_confirmed id t : guarded id true t = true.
Proof.
  induction t as [| ev t IH]; simpl; [reflexivity |].
  destruct (is_reminder_send id (io_op ev)); simpl; exact IH.
Qed.

Lemma guarded_sound id c t :
  guarded id c t = true ->
  forall pre ev post,
    t = pre ++ ev :: post ->
    is_reminder_send id (io_op ev) = true ->
    c || existsb (confirms id) pre = true.
Proof.
  intros H pre. revert c t H.
  induction pre as [| p pre IH]; intros c t H ev post -> Hsend; simpl in H.
  - rewrite Hsend in H. apply andb_true_iff in H. destruct H as [-> _].
    reflexivity.
  - destruct (is_reminder_send id (io_op p)).
    + apply andb_true_iff in H. destruct H as [-> _]. reflexivity.
    + specialize (IH _ _ H ev post eq_refl Hsend). simpl.
      rewrite orb_assoc. exact IH.
Qed.

Section Guarded.
Context {W : Type} (h : handler W).

Lemma only_ops_pbind {A B : Type} (P : op -> Prop) (p : prog A)
    (f : A -> prog B) :
  only_ops P p -> (forall a, only_ops P (f a)) -> only_ops P (pbind p f).
Proof.
  intros Hp Hf. induction p as [a | o k IH]; simpl; [apply Hf |].
  destruct Hp as [Ho Hk]. split; [exact Ho |]. intros x. apply IH, Hk.
Qed.

Lemma only_ops_bind {A B : Type} (P : op -> Prop) (m : prog (result A))
    (f : A -> prog (result B)) :
  only_ops P m -> (forall a, only_ops P (f a)) -> only_ops P (bind m f).
Proof.
  intros Hm Hf. apply only_ops_pbind; [exact Hm |].
  intros [a |]; [apply Hf | exact I].
Qed.

Lemma only_ops_mono {A : Type} (P Q : op -> Prop) (p : prog A) :
  (forall o, P o -> Q o) -> only_ops P p -> only_ops Q p.
Proof.
  intros HPQ. induction p as [a | o k IH]; simpl; [trivial |].
  intros [Ho Hk]. split; [auto |]. intros x. apply IH, Hk.
Qed.

Lemma only_ops_trace {A : Type} (P : op -> Prop) (p : prog A) (w : W) :
  only_ops P p -> Forall (fun ev => P (io_op ev)) (trace h p w).
Proof.
  revert w. induction p as [a | o k IH]; intros w; simpl; [constructor |].
  intros [Ho Hk]. constructor; [exact Ho |]. apply IH, Hk.
Qed.

Lemma guarded_no_sends id c (t : list io) :
  Forall (fun ev => is_reminder_send id (io_op ev) = false) t ->
  guarded id c t = true.
Proof.
  revert c. induction t as [| ev t IH]; intros c Hall; simpl; [reflexivity |].
  inversion Hall as [| ? ? Hev Ht]; subst. rewrite Hev. apply IH, Ht.
Qed.

End Guarded.

(** Case on the answer a run branches on. *)
Ltac case_result :=
  match goal with
  | |- context [match ?r with Ok _ => _ | Raise => _ end] => destruct r
  end.

(** Break a footprint goal down to its operations. *)
Ltac footprint :=
  repeat first
    [ exact I
    | progress cbn [only_ops pbind bind call ret raise try_finally]
    | match goal with
      | |- _ /\ _ => split
      | |- forall _, _ => intro
      | |- only_ops _ (match ?x with _ => _ end) => destruct x
      | |- only_ops _ (if ?b then _ else _) => destruct b
      | |- only_ops _ ?p =>
          match p with
          | context [match ?x with _ => _ end] => is_var x; destruct x
          | context [if ?b then _ else _] => destruct b
          end
      end ].

Lemma notify_event_footprint e :
  only_ops (fun o => forall id, is_reminder_send id o = true -> id = event_id e)
    (notify_event e).
Proof.
  unfold notify_event, send_whatsapp_notification, log_notification_to_db.
  footprint.
  all:  match goal with
    | H : is_reminder_send _ _ = true |- _ =>
        simpl in H; try discriminate; apply Z.eqb_eq in H; symmetry; exact H
    end.
Qed.

Section GuardedRuns.
Context {W : Type} (h : handler W).

Lemma notify_event_guarded (e : event) (id : Z) (w : W) :
  guarded id false (trace h (notify_event e) w) = true.
Proof.
  destruct (Z.eq_dec id (event_id e)) as [-> | Hne].
  - unfold notify_event, bind, call. cbn [pbind trace].
    next_op h. destruct x as [current |]; [| reflexivity].
    destruct (already_notified current); [reflexivity |].
    cbn [pbind trace]. next_op h.
    destruct x as [[| r rows] |]; try reflexivity.
    cbn [guarded io_op is_reminder_send confirms orb].
    rewrite Z.eqb_refl. simpl. apply guarded_confirmed.
  - apply guarded_no_sends.
    eapply List.Forall_impl; [| apply only_ops_trace, notify_event_footprint].
    intros ev Hev. simpl in Hev.
    destruct (is_reminder_send id (io_op ev)) eqn:E; [| reflexivity].
    exfalso. apply Hne. apply Hev. exact E.
Qed.

Lemma dispatch_guarded (id : Z) (cands : list event) (s f : nat) (w : W) :
  guarded id false (trace h (dispatch cands s f) w) = true.
Proof.
  revert s f w. induction cands as [| e rest IH]; intros s f w; [reflexivity |].
  cbn [dispatch]. unfold call at 1. cbn [pbind trace].
  next_op h. cbn [guarded io_op is_reminder_send confirms orb].
  destruct x; cbn [negb]; [| apply IH].
  rewrite trace_bind, trace_try_finally.
  repeat apply guarded_app.
  - apply notify_event_guarded.
  - reflexivity.
  - destruct (fst (run h (try_finally _ _) w0)) as [[| |] |];
      [apply IH | apply IH | apply IH | reflexivity].
Qed.

Lemma scan_footprint today rows acc :
  only_ops (fun o => is_send o = false) (scan today rows acc).
Proof.
  revert acc. induction rows as [| e rest IH]; intros acc; [exact I |].
  cbn [scan].
  destruct (due today e); [apply IH |].
  destruct (overdue today e); [| apply IH].
  apply only_ops_bind; [split; [reflexivity | intros; exact I] |].
  intros _. apply IH.
Qed.

Lemma is_send_reminder id o : is_send o = false -> is_reminder_send id o = false.
Proof. destruct o; simpl; try reflexivity. discriminate. Qed.

Lemma tick_guarded (id : Z) (today : date) (w : W) :
  guarded id false (trace h (check_and_send_notifications today) w) = true.
Proof.
  unfold check_and_send_notifications. rewrite trace_pbind.
  apply guarded_app;
    [| destruct (fst (run h _ w)); reflexivity].
  rewrite trace_bind. apply guarded_app; [reflexivity |].
  case_result; [| reflexivity].
  rewrite trace_bind. apply guarded_app.
  - apply guarded_no_sends.
    eapply List.Forall_impl; [| apply only_ops_trace, scan_footprint].
    intros ev Hev. apply is_send_reminder, Hev.
  - destruct (fst (run h (scan _ _ _) _)) as [[| c cands] |];
      try reflexivity.
    rewrite trace_bind. apply guarded_app; [apply dispatch_guarded |].
    destruct (fst (run h (dispatch _ _ _) _)); reflexivity.
Qed.

End GuardedRuns.

(* ===================================================================== *)
(** * The reminder scheduler on the store                                 *)
(* ===================================================================== *)

Lemma set_events_same (f : list event -> list event) (w : world) :
  f (events w) = events w -> set_events f w = w.
Proof. intros H. destruct w. unfold set_events. simpl in *. rewrite H. reflexivity. Qed.

Lemma overdue_not_due today e : due today e = true -> overdue today e = false.
Proof. unfold due, overdue. rewrite Z.eqb_eq, Z.ltb_ge. lia. Qed.

Lemma set_events_ext (f g : list event -> list event) (w : world) :
  f (events w) = g (events w) -> set_events f w = set_events g w.
Proof. intros H. unfold set_events. rewrite H. reflexivity. Qed.

Lemma set_events_compose (f g : list event -> list event) (w : world) :
  set_events f (set_events g w) = set_events (fun l => f (g l)) w.
Proof. reflexivity. Qed.

Lemma run_scan svc today rows acc w :
  run (exec svc) (scan today rows acc) w
  = (Ok (acc ++ List.filter (due today) rows), set_events (expire today rows) w).
Proof.
  revert acc w. induction rows as [| e rest IH]; intros acc w.
  - simpl. rewrite app_nil_r, set_events_same; reflexivity.
  - cbn [scan List.filter].
    destruct (due today e) eqn:Hdue.
    + rewrite IH, <- app_assoc. f_equal. apply set_events_ext.
      cbn [expire fold_left]. rewrite (overdue_not_due _ _ Hdue). reflexivity.
    + destruct (overdue today e) eqn:Hover.
      * rewrite run_bind. cbn [call run exec fst snd]. rewrite IH. f_equal.
        rewrite set_events_compose. apply set_events_ext.
        cbn [expire fold_left]. rewrite Hover. reflexivity.
      * rewrite IH. f_equal. apply set_events_ext.
        cbn [expire fold_left]. rewrite Hover. reflexivity.
Qed.

Lemma update_where_key {A : Type} (key : A -> Z) (id : Z) (f : A -> A)
    (rows : list A) :
  (forall r, key (f r) = key r) ->
  map key (update_where key id f rows) = map key rows.
Proof.
  intros Hf. unfold update_where. rewrite map_map. apply map_ext.
  intros r. destruct (key r =? id)%Z; [apply Hf | reflexivity].
Qed.

Lemma filter_update_where {A : Type} (key : A -> Z) (id i : Z) (f : A -> A)
    (rows : list A) :
  (forall r, key (f r) = key r) ->
  List.filter (fun r => (key r =? i)%Z) (update_where key id f rows)
  = map (fun r => if (key r =? id)%Z then f r else r)
      (List.filter (fun r => (key r =? i)%Z) rows).
Proof.
  intros Hf. unfold update_where.
  induction rows as [| r rows IH]; [reflexivity |].
  cbn [map List.filter].
  replace (key (if (key r =? id)%Z then f r else r)) with (key r)
    by (destruct (key r =? id)%Z; [symmetry; apply Hf | reflexivity]).
  destruct (key r =? i)%Z; cbn [map]; rewrite IH; reflexivity.
Qed.

Lemma filter_about_app i (l1 l2 : list notification) :
  List.filter (about_event i) (l1 ++ l2)
  = List.filter (about_event i) l1 ++ List.filter (about_event i) l2.
Proof. apply List.filter_app. Qed.

Lemma notify_event_run svc e w r :
  List.filter (fun x => (event_id x =? event_id e)%Z) (events w) = [r] ->
  already_notified (notified r) = false ->
  exists o w',
    run (exec svc) (notify_event e) w = (Ok o, w')
    /\ events w'
       = update_where event_id (event_id e) (with_notified (Some "Yes"%string))
           (events w)
    /\ profiles w' = profiles w
    /\ processing_events w' = processing_events w
    /\ exists ns,
         notifications_sent w' = notifications_sent w ++ ns
         /\ forall i,
              length (List.filter (about_event i) ns)
              = if (event_id e =? i)%Z && reachable w e then 1 else 0.
Proof.
  intros Hrow Hcur. unfold notify_event.
  rewrite run_bind. cbn [call run exec fst snd]. rewrite Hrow. cbn [single].
  rewrite Hcur. rewrite run_bind. cbn [call run exec fst snd]. rewrite Hrow.
  cbn [map]. rewrite run_pbind. cbn [call run exec fst snd set_events profiles].
  unfold reachable.
  destruct (single (List.filter _ (profiles w))) as [p |].
  2:{ do 2 eexists. split; [reflexivity |]. repeat split.
      exists []. split; [symmetry; apply app_nil_r |].
      intros i. rewrite andb_false_r. reflexivity. }
  destruct (phone_number p) as [phone |]; cbn [truthy_opt].
  2:{ do 2 eexists. split; [reflexivity |]. repeat split.
      exists []. split; [symmetry; apply app_nil_r |].
      intros i. rewrite andb_false_r. reflexivity. }
  destruct (truthy phone).
  2:{ do 2 eexists. split; [reflexivity |]. repeat split.
      exists []. split; [symmetry; apply app_nil_r |].
      intros i. rewrite andb_false_r. reflexivity. }
  rewrite run_pbind. unfold send_whatsapp_notification, log_notification_to_db.
  cbn [andb].
  destruct (truthy (user_id e));
    cbn [pbind call run exec fst snd];
    destruct (twilio svc _ _ _);
    cbn [pbind call run exec fst snd ret];
    do 2 eexists; (split; [reflexivity |]); repeat split.
  1, 2: eexists; split; [reflexivity |]; intros i;
    cbn [List.filter about_event n_event_id];
    destruct (event_id e =? i)%Z; reflexivity.
  all: exists []; split; [symmetry; apply app_nil_r |];
    intros i; rewrite andb_false_r; reflexivity.
Qed.

Lemma reachable_profiles (w w' : world) (c : event) :
  profiles w' = profiles w -> reachable w' c = reachable w c.
Proof. intros H. unfold reachable. rewrite H. reflexivity. Qed.

Lemma existsb_fresh (P : event -> bool) (id : Z) (rest : list event) :
  ~ In id (map event_id rest) ->
  existsb (fun c => (event_id c =? id)%Z && P c) rest = false.
Proof.
  intros Hid. induction rest as [| c rest IH]; [reflexivity |].
  cbn [existsb]. rewrite IH by (intros H; apply Hid; right; exact H).
  destruct (Z.eqb_spec (event_id c) id) as [E |]; [| reflexivity].
  exfalso. apply Hid. left. exact E.
Qed.

Lemma existsb_pointwise {A : Type} (f g : A -> bool) (l : list A) :
  (forall x, f x = g x) -> existsb f l = existsb g l.
Proof.
  intros H. induction l as [| x l IH]; [reflexivity |].
  cbn [existsb]. rewrite H, IH. reflexivity.
Qed.

Lemma existsb_fresh_id (id : Z) (rest : list event) :
  ~ In id (map event_id rest) ->
  existsb (fun c => (event_id c =? id)%Z) rest = false.
Proof.
  intros Hid. rewrite <- (existsb_fresh (fun _ => true) id rest Hid).
  apply existsb_pointwise. intros c. rewrite andb_true_r. reflexivity.
Qed.

Lemma guard_restored (id : Z) (G : gset Z) :
  id ∉ G -> ({[id]} ∪ G) ∖ {[id]} = G.
Proof.
  intros Hid. apply set_eq. intros x.
  rewrite elem_of_difference, elem_of_union, elem_of_singleton.
  split; [tauto |]. intros Hx. split; [tauto |]. intros ->. contradiction.
Qed.

Lemma dispatch_run svc cands :
  forall s f w,
    List.NoDup (map event_id cands) ->
    (forall c, In c cands ->
       exists r,
         List.filter (fun x => (event_id x =? event_id c)%Z) (events w) = [r]
         /\ already_notified (notified r) = false) ->
    exists s' f' w',
      run (exec svc) (dispatch cands s f) w = (Ok (s', f'), w')
      /\ events w' = map (mark_yes (processing_events w) cands) (events w)
      /\ profiles w' = profiles w
      /\ processing_events w' = processing_events w
      /\ exists ns,
           notifications_sent w' = notifications_sent w ++ ns
           /\ forall i,
                length (List.filter (about_event i) ns)
                = if logged w cands i then 1 else 0.
Proof.
  induction cands as [| e rest IH]; intros s f w Hnd Hrows.
  - exists s, f, w. split; [reflexivity |]. repeat split.
    + symmetry. unfold mark_yes, dispatched. cbn [existsb].
      erewrite map_ext; [apply map_id |].
      intros r. rewrite andb_false_r. reflexivity.
    + exists []. split; [symmetry; apply app_nil_r |].
      intros i. unfold logged, dispatched. cbn [existsb].
      rewrite !andb_false_r. reflexivity.
  - inversion Hnd as [| ? ? Hfresh Hnd']; subst.
    cbn [dispatch]. rewrite run_pbind. cbn [call run exec fst snd].
    destruct (bool_decide (event_id e ∈ processing_events w)) eqn:Hg;
      cbn [fst snd negb].
    + destruct (IH s f w Hnd') as (s' & f' & w' & Hrun & Hev & Hpr & Hgu & ns & Hns & Hlen).
      { intros c Hc. apply Hrows. right. exact Hc. }
      exists s', f', w'. split; [exact Hrun |]. repeat split; try assumption.
      * rewrite Hev. apply map_ext. intros r. unfold mark_yes, dispatched.
        cbn [existsb].
        destruct (Z.eqb_spec (event_id e) (event_id r)) as [E |];
          [| reflexivity].
        rewrite <- E, Hg. reflexivity.
      * exists ns. split; [exact Hns |]. intros i. rewrite Hlen.
        unfold logged, dispatched. cbn [existsb].
        destruct (Z.eqb_spec (event_id e) i) as [E |]; [| reflexivity].
        rewrite <- E, Hg. reflexivity.
    + apply bool_decide_eq_false in Hg.
      destruct (Hrows e (or_introl eq_refl)) as (r & Hr & Hcur).
      rewrite run_bind, run_try_finally.
      set (w1 := set_processing_events (fun s0 => {[event_id e]} ∪ s0) w).
      destruct (notify_event_run svc e w1 r Hr Hcur)
        as (o & w2 & Hrun & Hev2 & Hpr2 & Hgu2 & ns2 & Hns2 & Hlen2).
      rewrite Hrun. cbn [fst snd call run exec].
      set (w3 := set_processing_events (fun s0 => s0 ∖ {[event_id e]}) w2).
      assert (Hev3 : events w3
                     = update_where event_id (event_id e)
                         (with_notified (Some "Yes"%string)) (events w))
        by exact Hev2.
      assert (Hgu3 : processing_events w3 = processing_events w).
      { unfold w3. cbn [processing_events set_processing_events].
        rewrite Hgu2. unfold w1. cbn [processing_events set_processing_events].
        apply guard_restored, Hg. }
      assert (Hpr3 : profiles w3 = profiles w) by exact Hpr2.
      assert (Hns3 : notifications_sent w3 = notifications_sent w ++ ns2)
        by exact Hns2.
      assert (Hrows3 : forall c, In c rest ->
                exists r0,
                  List.filter (fun x => (event_id x =? event_id c)%Z) (events w3)
                  = [r0]
                  /\ already_notified (notified r0) = false).
      { intros c Hc. destruct (Hrows c (or_intror Hc)) as (r0 & Hr0 & Hcur0).
        exists r0. split; [| exact Hcur0].
        rewrite Hev3, filter_update_where by reflexivity. rewrite Hr0.
        cbn [map].
        assert (Hin : In r0 (List.filter (fun x => (event_id x =? event_id c)%Z)
                               (events w)))
          by (rewrite Hr0; left; reflexivity).
        apply filter_In in Hin. destruct Hin as [_ Hid].
        apply Z.eqb_eq in Hid.
        destruct (Z.eqb_spec (event_id r0) (event_id e)) as [E |];
          [| reflexivity].
        exfalso. apply Hfresh. rewrite <- E, Hid. apply in_map, Hc. }
      assert (Hcont : forall s0 f0,
                exists s' f' w',
                  run (exec svc) (dispatch rest s0 f0) w3 = (Ok (s', f'), w')
                  /\ events w' = map (mark_yes (processing_events w) (e :: rest))
                                   (events w)
                  /\ profiles w' = profiles w
                  /\ processing_events w' = processing_events w
                  /\ exists ns,
                       notifications_sent w' = notifications_sent w ++ ns
                       /\ forall i,
                            length (List.filter (about_event i) ns)
                            = if logged w (e :: rest) i then 1 else 0).
      { intros s0 f0.
        destruct (IH s0 f0 w3 Hnd' Hrows3)
          as (s' & f' & w' & Hrun' & Hev' & Hpr' & Hgu' & ns & Hns & Hlen).
        exists s', f', w'. split; [exact Hrun' |]. repeat split.
        - rewrite Hev', Hev3, Hgu3. unfold update_where. rewrite map_map.
          apply map_ext. intros r0. unfold mark_yes, dispatched.
          cbn [existsb].
          rewrite (Z.eqb_sym (event_id e) (event_id r0)).
          destruct (Z.eqb_spec (event_id r0) (event_id e)) as [E |].
          + cbn [event_id with_notified]. rewrite E.
            rewrite (existsb_fresh_id _ _ Hfresh).
            rewrite bool_decide_eq_false_2 by exact Hg. reflexivity.
          + reflexivity.
        - rewrite Hpr'. exact Hpr3.
        - rewrite Hgu'. exact Hgu3.
        - exists (ns2 ++ ns). split.
          + rewrite Hns, Hns3, app_assoc. reflexivity.
          + intros i. rewrite List.filter_app, length_app, Hlen2, Hlen.
            unfold logged. rewrite Hgu3. unfold dispatched. cbn [existsb].
            rewrite (existsb_pointwise
                       (fun c => (event_id c =? i)%Z && reachable w3 c)
                       (fun c => (event_id c =? i)%Z && reachable w c))
              by (intros c; cbv beta;
                  rewrite (reachable_profiles w w3 c Hpr3); reflexivity).
            rewrite (reachable_profiles w w1 e eq_refl).
            destruct (Z.eqb_spec (event_id e) i) as [E |].
            * subst i. rewrite (existsb_fresh_id _ _ Hfresh).
              rewrite (existsb_fresh _ _ _ Hfresh).
              rewrite bool_decide_eq_false_2 by exact Hg.
              cbn. destruct (reachable w e); reflexivity.
            * reflexivity. }
      destruct o; apply Hcont.
Qed.

Lemma key_inj {A : Type} (key : A -> Z) (l : list A) (a b : A) :
  List.NoDup (map key l) -> In a l -> In b l -> key a = key b -> a = b.
Proof.
  induction l as [| x l IH]; intros Hnd Ha Hb Hk; [contradiction |].
  cbn [map] in Hnd. inversion Hnd as [| ? ? Hx Hnd']; subst.
  destruct Ha as [-> | Ha], Hb as [-> | Hb].
  - reflexivity.
  - exfalso. apply Hx. rewrite Hk. apply in_map, Hb.
  - exfalso. apply Hx. rewrite <- Hk. apply in_map, Ha.
  - apply IH; assumption.
Qed.

Lemma filter_key_absent {A : Type} (key : A -> Z) (l : list A) (k : Z) :
  ~ In k (map key l) -> List.filter (fun x => (key x =? k)%Z) l = [].
Proof.
  induction l as [| x l IH]; intros Hk; [reflexivity |].
  cbn [List.filter]. destruct (Z.eqb_spec (key x) k) as [E |].
  - exfalso. apply Hk. left. exact E.
  - apply IH. intros H. apply Hk. right. exact H.
Qed.

Lemma filter_key_unique {A : Type} (key : A -> Z) (l : list A) (a : A) :
  List.NoDup (map key l) -> In a l ->
  List.filter (fun x => (key x =? key a)%Z) l = [a].
Proof.
  induction l as [| x l IH]; intros Hnd Ha; [contradiction |].
  cbn [map] in Hnd. inversion Hnd as [| ? ? Hx Hnd']; subst.
  cbn [List.filter]. destruct Ha as [-> | Ha].
  - rewrite Z.eqb_refl, (filter_key_absent _ _ _ Hx). reflexivity.
  - destruct (Z.eqb_spec (key x) (key a)) as [E |].
    + exfalso. apply Hx. rewrite E. apply in_map, Ha.
    + apply IH; assumption.
Qed.

Lemma NoDup_map_filter {A : Type} (key : A -> Z) (p : A -> bool) (l : list A) :
  List.NoDup (map key l) -> List.NoDup (map key (List.filter p l)).
Proof.
  induction l as [| x l IH]; intros Hnd; [constructor |].
  cbn [map] in Hnd. inversion Hnd as [| ? ? Hx Hnd']; subst.
  cbn [List.filter]. destruct (p x); [| apply IH, Hnd'].
  cbn [map]. constructor; [| apply IH, Hnd'].
  intros H. apply Hx. apply in_map_iff in H. destruct H as (y & <- & Hy).
  apply filter_In in Hy. apply in_map, Hy.
Qed.

Lemma existsb_filter {A : Type} (f p : A -> bool) (l : list A) :
  existsb f (List.filter p l) = existsb (fun x => p x && f x) l.
Proof.
  induction l as [| x l IH]; [reflexivity |].
  cbn [List.filter existsb]. destruct (p x); cbn [existsb andb]; rewrite IH;
    reflexivity.
Qed.

Lemma expire_cons today e rest evs :
  expire today (e :: rest) evs
  = expire today rest
      (if overdue today e
       then update_where event_id (event_id e)
              (with_notified (Some "No"%string)) evs
       else evs).
Proof. reflexivity. Qed.

Lemma expire_map today rows evs :
  expire today rows evs = map (expire_row today rows) evs.
Proof.
  revert evs. induction rows as [| e rest IH]; intros evs.
  - cbn [expire fold_left]. symmetry. erewrite map_ext; [apply map_id |].
    reflexivity.
  - rewrite expire_cons, IH.
    destruct (overdue today e) eqn:Hover.
    + unfold update_where. rewrite map_map. apply map_ext. intros r.
      unfold expire_row. cbn [existsb]. rewrite Hover. cbn [andb].
      rewrite (Z.eqb_sym (event_id e) (event_id r)).
      destruct (event_id r =? event_id e)%Z; cbn [orb event_id with_notified].
      * destruct (existsb _ rest); reflexivity.
      * reflexivity.
    + apply map_ext. intros r. unfold expire_row. cbn [existsb].
      rewrite Hover. reflexivity.
Qed.

Lemma expire_row_id today rows r :
  event_id (expire_row today rows r) = event_id r.
Proof. unfold expire_row. destruct (existsb _ rows); reflexivity. Qed.

Lemma expire_row_not_notified today rows r :
  is_pending (notified r) = true ->
  already_notified (notified (expire_row today rows r)) = false.
Proof.
  unfold expire_row. destruct (existsb _ rows); [reflexivity |].
  destruct (notified r) as [v |]; cbn; [| reflexivity].
  intros ->. reflexivity.
Qed.

Section UniqueIds.
Context (today : date) (w : world) (Hnd : event_ids_unique w).

Lemma expire_row_unique r :
  In r (events w) ->
  expire_row today (pending_rows w) r
  = if is_pending (notified r) && overdue today r
    then with_notified (Some "No"%string) r else r.
Proof.
  intros Hr. unfold expire_row, pending_rows. rewrite existsb_filter.
  match goal with |- (if ?a then _ else _) = (if ?b then _ else _) =>
    assert (a = b) as ->; [| reflexivity] end.
  apply Bool.eq_iff_eq_true. rewrite existsb_exists. split.
  - intros (c & Hc & Hp). rewrite !andb_true_iff, Z.eqb_eq in Hp.
    destruct Hp as (Hpend & Hover & Hid).
    rewrite (key_inj event_id _ _ _ Hnd Hc Hr Hid) in *.
    rewrite Hpend, Hover. reflexivity.
  - rewrite andb_true_iff. intros [Hpend Hover]. exists r.
    split; [exact Hr |]. rewrite Hpend, Hover, Z.eqb_refl. reflexivity.
Qed.

Lemma dispatched_unique G r :
  In r (events w) ->
  dispatched G (candidates today w) (event_id r)
  = negb (bool_decide (event_id r ∈ G))
    && (is_pending (notified r) && due today r).
Proof.
  intros Hr. unfold dispatched, candidates, pending_rows. f_equal.
  rewrite !existsb_filter.
  apply Bool.eq_iff_eq_true. rewrite existsb_exists. split.
  - intros (c & Hc & Hp). rewrite !andb_true_iff, Z.eqb_eq in Hp.
    destruct Hp as (Hpend & Hdue & Hid).
    rewrite (key_inj event_id _ _ _ Hnd Hc Hr Hid) in *.
    rewrite Hpend, Hdue. reflexivity.
  - rewrite andb_true_iff. intros [Hpend Hdue]. exists r.
    split; [exact Hr |]. rewrite Hpend, Hdue, Z.eqb_refl. reflexivity.
Qed.

Lemma tick_row_unique G r :
  In r (events w) ->
  mark_yes G (candidates today w) (expire_row today (pending_rows w) r)
  = tick_row today G r.
Proof.
  intros Hr. unfold mark_yes. rewrite expire_row_id, dispatched_unique,
    expire_row_unique by exact Hr.
  unfold tick_row.
  destruct (is_pending (notified r)); cbn [andb].
  - destruct (overdue today r) eqn:Hover.
    + assert (due today r = false) as ->.
      { unfold due, overdue in *. apply Z.ltb_lt in Hover.
        apply Z.eqb_neq. lia. }
      rewrite andb_false_r. reflexivity.
    + rewrite (andb_comm (negb _)). reflexivity.
  - rewrite andb_false_r. reflexivity.
Qed.

End UniqueIds.

Lemma filter_map_key {A : Type} (key : A -> Z) (f : A -> A) (k : Z)
    (l : list A) :
  (forall r, key (f r) = key r) ->
  List.filter (fun x => (key x =? k)%Z) (map f l)
  = map f (List.filter (fun x => (key x =? k)%Z) l).
Proof.
  intros Hf. induction l as [| x l IH]; [reflexivity |].
  cbn [map List.filter]. rewrite Hf.
  destruct (key x =? k)%Z; cbn [map]; rewrite IH; reflexivity.
Qed.

Lemma logged_profiles (w w1 : world) cands i :
  profiles w1 = profiles w -> processing_events w1 = processing_events w ->
  logged w1 cands i = logged w cands i.
Proof.
  intros Hp Hg. unfold logged. rewrite Hg. f_equal.
  apply existsb_pointwise. intros c.
  rewrite (reachable_profiles w w1 c Hp). reflexivity.
Qed.

(** One uninterrupted check on a store whose event ids are unique. *)
Lemma tick_run svc today w :
  event_ids_unique w ->
  exists res w',
    run (exec svc) (check_and_send_notifications today) w = (res, w')
    /\ res <> CriticalError
    /\ events w' = map (tick_row today (processing_events w)) (events w)
    /\ profiles w' = profiles w
    /\ processing_events w' = processing_events w
    /\ exists ns,
         notifications_sent w' = notifications_sent w ++ ns
         /\ forall i,
              length (List.filter (about_event i) ns)
              = if logged w (candidates today w) i then 1 else 0.
Proof.
  intros Hnd.
  set (w1 := set_events (expire today (pending_rows w)) w).
  assert (Hev1 : events w1 = map (expire_row today (pending_rows w)) (events w))
    by apply expire_map.
  destruct (dispatch_run svc (candidates today w) 0 0 w1)
    as (s' & f' & w' & Hrun & Hev & Hpr & Hgu & ns & Hns & Hlen).
  { apply NoDup_map_filter, NoDup_map_filter, Hnd. }
  { intros c Hc. unfold candidates, pending_rows in Hc.
    apply filter_In in Hc. destruct Hc as [Hc _].
    apply filter_In in Hc. destruct Hc as [Hc Hpend].
    exists (expire_row today (pending_rows w) c). split.
    - rewrite Hev1, filter_map_key by apply expire_row_id.
      rewrite (filter_key_unique event_id (events w) c Hnd Hc). reflexivity.
    - apply expire_row_not_notified, Hpend. }
  assert (Hev' : events w' = map (tick_row today (processing_events w))
                               (events w)).
  { rewrite Hev, Hev1, map_map. apply map_ext_in. intros r Hr.
    apply (tick_row_unique today w Hnd), Hr. }
  assert (Hlen' : forall i,
             length (List.filter (about_event i) ns)
             = if logged w (candidates today w) i then 1 else 0).
  { intros i. rewrite Hlen. rewrite (logged_profiles w w1); reflexivity. }
  unfold check_and_send_notifications.
  rewrite run_pbind, run_bind. cbn [call run exec fst snd].
  fold (pending_rows w). rewrite run_bind, run_scan. cbn [fst snd app].
  fold (candidates today w). fold w1.
  destruct (candidates today w) as [| c cands] eqn:Hc.
  - cbn [run ret fst snd]. injection Hrun as _ _ <-.
    exists NothingDue, w1. split; [reflexivity |]. split; [discriminate |].
    repeat split; try assumption. exists ns. split; assumption.
  - rewrite run_bind, Hrun. cbn [fst snd run ret].
    exists (Completed s' f'), w'. split; [reflexivity |].
    split; [discriminate |].
    repeat split; try assumption. exists ns. split; assumption.
Qed.

Section LoopBody.
Context {W : Type} (h : handler W).


(** The loop body when the write of ['Yes'] comes back with no row. *)
Lemma unconfirmed_write e rest s f w w1 w2 w3 w4 cur :
  h (GuardTryAcquire (event_id e)) w = (true, w1) ->
  h (SelectEventNotified (event_id e)) w1 = (Ok cur, w2) ->
  already_notified cur = false ->
  h (UpdateEventNotified (event_id e) "Yes") w2 = (Ok [], w3) ->
  h (GuardRelease (event_id e)) w3 = (tt, w4) ->
  run h (dispatch (e :: rest) s f) w = run h (dispatch rest s (S f)) w4
  /\ trace h (dispatch (e :: rest) s f) w
     = mkio (GuardTryAcquire (event_id e)) true
       :: mkio (SelectEventNotified (event_id e)) (Ok cur)
       :: mkio (UpdateEventNotified (event_id e) "Yes") (Ok [])
       :: mkio (GuardRelease (event_id e)) tt
       :: trace h (dispatch rest s (S f)) w4.
Proof.
  intros Hacq Hread Hcur Hupd Hrel.
  cbn [dispatch]. unfold notify_event, try_finally, bind, call.
  cbn [pbind run trace]. rewrite Hacq. cbn [fst snd negb pbind run trace].
  rewrite Hread. cbn [fst snd]. rewrite Hcur.
  cbn [pbind run trace ret]. rewrite Hupd. cbn [fst snd pbind run trace ret].
  rewrite Hrel. cbn [fst snd].
  split; reflexivity.
Qed.

End LoopBody.

(** C4: in any run of the check, against any store and gateway, a
    reminder send for an event comes only after the write of
    [notified = 'Yes'] for that event was answered with a row; and when
    that write is answered with no row, the loop body ends there: no
    send, the guard released, the failure counter one higher. *)
Theorem delivery_follows_confirmed_write {W : Type} (h : handler W)
    (today : date) (w : W) (id : Z) :
  sends_follow_confirmation id (trace h (check_and_send_notifications today) w)
  /\ forall e rest s f w0 w1 w2 w3 w4 cur,
       h (GuardTryAcquire (event_id e)) w0 = (true, w1) ->
       h (SelectEventNotified (event_id e)) w1 = (Ok cur, w2) ->
       already_notified cur = false ->
       h (UpdateEventNotified (event_id e) "Yes") w2 = (Ok [], w3) ->
       h (GuardRelease (event_id e)) w3 = (tt, w4) ->
       run h (dispatch (e :: rest) s f) w0 = run h (dispatch rest s (S f)) w4
       /\ trace h (dispatch (e :: rest) s f) w0
          = mkio (GuardTryAcquire (event_id e)) true
            :: mkio (SelectEventNotified (event_id e)) (Ok cur)
            :: mkio (UpdateEventNotified (event_id e) "Yes") (Ok [])
            :: mkio (GuardRelease (event_id e)) tt
            :: trace h (dispatch rest s (S f)) w4.
Proof.
  split.
  - intros pre ev post Ht Hsend.
    exact (guarded_sound id false _ (tick_guarded h id today w) pre ev post
             Ht Hsend).
  - intros e rest s f w0 w1 w2 w3 w4 cur. apply unconfirmed_write.
Qed.

Lemma delivery_follows_confirmed_write_witness :
  existsb (confirms 1)
    (firstn 6 (trace (exec accepting)
                 (check_and_send_notifications march_third) reminders_world))
  = true
  /\ fst (run (exec_refusing accepting) (dispatch [dentist] 0 0)
           reminders_world)
     = Ok (0, 1).
Proof.
  split.
  - eapply (proj1 (delivery_follows_confirmed_write (exec accepting)
                     march_third reminders_world 1))
      with (post := skipn 7 (trace (exec accepting)
                               (check_and_send_notifications march_third)
                               reminders_world)).
    + vm_compute. reflexivity.
    + reflexivity.
  - destruct (proj2 (delivery_follows_confirmed_write
                       (exec_refusing accepting) march_third reminders_world 1)
                dentist [] 0 0 reminders_world _ _ _ _ _
                eq_refl eq_refl eq_refl eq_refl eq_refl) as [Hrun _].
    rewrite Hrun. reflexivity.
Defined.

Lemma dispatch_op_mono (ids ids' : list Z) (o : op) :
  incl ids ids' -> dispatch_op ids o -> dispatch_op ids' o.
Proof.
  intros Hincl. destruct o; cbn [dispatch_op]; try tauto; try (apply Hincl).
  - intros [H ->]. split; [apply Hincl, H | reflexivity].
  - intros (i & Hi & Hin). exists i. split; [exact Hi | apply Hincl, Hin].
  - match goal with p : purpose |- _ => destruct p as [[i |] | |] end;
      try tauto. apply Hincl.
Qed.

Lemma notify_event_ops (e : event) :
  only_ops (dispatch_op [event_id e]) (notify_event e).
Proof.
  unfold notify_event, send_whatsapp_notification, log_notification_to_db.
  footprint; cbn [dispatch_op n_event_id]; eauto using in_eq.
Qed.

Lemma dispatch_footprint (cands : list event) (s f : nat) :
  only_ops (dispatch_op (map event_id cands)) (dispatch cands s f).
Proof.
  revert s f. induction cands as [| e rest IH]; intros s f; [exact I |].
  assert (Hrest : forall s0 f0,
            only_ops (dispatch_op (map event_id (e :: rest)))
              (dispatch rest s0 f0)).
  { intros s0 f0. eapply only_ops_mono; [| apply IH].
    intros o. apply dispatch_op_mono. apply incl_tl, incl_refl. }
  cbn [dispatch]. apply only_ops_pbind.
  { split; [left; reflexivity | intros; exact I]. }
  intros [|]; cbn [negb]; [| apply Hrest].
  apply only_ops_bind.
  - unfold try_finally. apply only_ops_pbind.
    + eapply only_ops_mono; [| apply notify_event_ops].
      intros o. apply dispatch_op_mono.
      intros i [<- | []]. left. reflexivity.
    + intros r. split; [left; reflexivity | intros; exact I].
  - intros [| |]; apply Hrest.
Qed.

Lemma scan_ops today rows acc : only_ops scan_op (scan today rows acc).
Proof.
  revert acc. induction rows as [| e rest IH]; intros acc; [exact I |].
  cbn [scan].
  destruct (due today e); [apply IH |].
  destruct (overdue today e); [| apply IH].
  apply only_ops_bind; [split; [eexists; reflexivity | intros; exact I] |].
  intros _. apply IH.
Qed.

(** The operations of one check on the store: the fetch, the first loop
    on the fetched rows, the second loop on those due today. *)
Lemma tick_trace svc today w :
  trace (exec svc) (check_and_send_notifications today) w
  = mkio SelectPendingEvents (Ok (pending_rows w))
    :: trace (exec svc) (scan today (pending_rows w) []) w
    ++ match candidates today w with
       | [] => []
       | _ :: _ =>
           trace (exec svc) (dispatch (candidates today w) 0 0)
             (set_events (expire today (pending_rows w)) w)
       end.
Proof.
  unfold check_and_send_notifications. rewrite trace_pbind.
  match goal with
  | |- ?t ++ ?b = _ => assert (b = []) as ->; [case_result; reflexivity |]
  end.
  rewrite app_nil_r, trace_bind. cbn [call trace run exec fst snd app].
  fold (pending_rows w). f_equal.
  rewrite trace_bind, run_scan. cbn [fst snd app].
  fold (candidates today w). f_equal.
  destruct (candidates today w) as [| c cands]; [reflexivity |].
  rewrite trace_bind.
  match goal with
  | |- ?t ++ ?a = ?t => assert (a = []) as ->; [case_result; reflexivity |]
  end.
  apply app_nil_r.
Qed.

Lemma notified_of_map (f : event -> event) (w w' : world) (r : event) :
  event_ids_unique w -> In r (events w) ->
  (forall x, event_id (f x) = event_id x) ->
  events w' = map f (events w) ->
  notified_of (event_id r) w' = [notified (f r)].
Proof.
  intros Hnd Hr Hf Hev. unfold notified_of.
  rewrite Hev, (filter_map_key event_id f _ _ Hf).
  rewrite (filter_key_unique event_id _ _ Hnd Hr). reflexivity.
Qed.

Lemma tick_row_id today G r : event_id (tick_row today G r) = event_id r.
Proof.
  unfold tick_row.
  repeat match goal with |- context [if ?b then _ else _] => destruct b end;
    reflexivity.
Qed.

Lemma records_for_app (i : Z) (w w' : world) (ns : list notification) :
  notifications_sent w' = notifications_sent w ++ ns ->
  records_for i w' = records_for i w ++ List.filter (about_event i) ns.
Proof. intros H. unfold records_for. rewrite H. apply List.filter_app. Qed.


Lemma not_dispatched_op (ids : list Z) (id : Z) (o : op) :
  ~ In id ids -> dispatch_op ids o -> dispatches id o = false.
Proof.
  intros Hid. destruct o; cbn [dispatch_op dispatches]; try reflexivity.
  - match goal with p : purpose |- _ => destruct p as [[i |] | |] end;
      try reflexivity.
    intros Hi. apply Z.eqb_neq. intros ->. contradiction.
  - intros Hi. apply Z.eqb_neq. intros ->. contradiction.
Qed.

(** The operations of a check that concern an event which is not among
    those due today: none takes its guard or sends its reminder. *)
Lemma tick_leaves_alone svc today w id :
  ~ In id (map event_id (candidates today w)) ->
  Forall (fun ev => dispatches id (io_op ev) = false)
    (trace (exec svc) (check_and_send_notifications today) w).
Proof.
  intros Hid. rewrite tick_trace. constructor; [reflexivity |].
  apply Forall_app. split.
  - eapply List.Forall_impl; [| apply only_ops_trace, scan_ops].
    intros ev (i & ->). reflexivity.
  - destruct (candidates today w) as [| c cands] eqn:Hc; [constructor |].
    rewrite <- Hc in *.
    eapply List.Forall_impl; [| apply only_ops_trace, dispatch_footprint].
    intros ev Hev. eapply not_dispatched_op; eassumption.
Qed.
























Lemma rsvp_match_here_group s g :
  rsvp_match_here s = Some g -> g = "yes"%string \/ g = "no"%string.
Proof.
  unfold rsvp_match_here.
  repeat match goal with |- context [if ?b then _ else _] => destruct b end;
    intros [= <-]; auto.
Qed.

Lemma rsvp_search_group s g :
  rsvp_search s = Some g -> g = "yes"%string \/ g = "no"%string.
Proof.
  induction s as [| c s IH]; cbn [rsvp_search].
  - destruct (rsvp_match_here "") eqn:E; [| discriminate].
    intros [= <-]. eapply rsvp_match_here_group, E.
  - destruct (rsvp_match_here (String c s)) eqn:E; [| exact IH].
    intros [= <-]. eapply rsvp_match_here_group, E.
Qed.

Lemma best_by_id (rest : list contact) (c0 : contact) :
  let b := fold_left (fun best r =>
                        if (contact_id best <? contact_id r)%Z then r else best)
             rest c0 in
  In b (c0 :: rest)
  /\ forall c, In c (c0 :: rest) -> (contact_id c <= contact_id b)%Z.
Proof.
  revert c0. induction rest as [| r rest IH]; intros c0; cbn [fold_left].
  - split; [left; reflexivity |]. intros c [<- | []]. lia.
  - destruct (Z.ltb_spec (contact_id c0) (contact_id r)) as [Hlt | Hge].
    + destruct (IH r) as [Hin Hmax]. split.
      * destruct Hin as [<- | Hin]; [right; left; reflexivity |].
        right; right; exact Hin.
      * intros c [<- | [<- | Hc]].
        -- specialize (Hmax r (or_introl eq_refl)). lia.
        -- apply Hmax. left. reflexivity.
        -- apply Hmax. right. exact Hc.
    + destruct (IH c0) as [Hin Hmax]. split.
      * destruct Hin as [<- | Hin]; [left; reflexivity |].
        right; right; exact Hin.
      * intros c [<- | [<- | Hc]].
        -- apply Hmax. left. reflexivity.
        -- specialize (Hmax c0 (or_introl eq_refl)). lia.
        -- apply Hmax. right. exact Hc.
Qed.

Lemma latest_spec (rows : list contact) :
  rows <> [] ->
  exists c,
    latest rows = [c] /\ In c rows
    /\ forall c', In c' rows -> (contact_id c' <= contact_id c)%Z.
Proof.
  destruct rows as [| c0 rest]; [congruence |]. intros _.
  destruct (best_by_id rest c0) as [Hin Hmax].
  eexists. split; [reflexivity |]. split; assumption.
Qed.

(** C7: a reply that matches [rsvp:\s*(yes|no)], from a number with at
    least one sent invitation, records the answer on the invitation with
    the greatest id and on no other row. *)
Theorem reply_recorded_on_latest_invitation (svc : services) (w : world)
    (from_number text g : string) :
  List.NoDup (map contact_id (rsvp_contact_status w)) ->
  rsvp_search (lower text) = Some g ->
  sent_invitations (normalize_number from_number) w <> [] ->
  exists c,
    In c (sent_invitations (normalize_number from_number) w)
    /\ (forall c', In c' (sent_invitations (normalize_number from_number) w) ->
                   (contact_id c' <= contact_id c)%Z)
    /\ (g = "yes"%string \/ g = "no"%string)
    /\ fst (run (exec svc) (handle_rsvp_reply from_number text) w)
       = confirmation_msg
    /\ rsvp_contact_status
         (snd (run (exec svc) (handle_rsvp_reply from_number text) w))
       = map (fun r => if (contact_id r =? contact_id c)%Z
                       then with_reply (Some g) r else r)
           (rsvp_contact_status w)
    /\ (forall r, In r (rsvp_contact_status w) -> r <> c ->
          In r (rsvp_contact_status
                  (snd (run (exec svc) (handle_rsvp_reply from_number text) w))))
    /\ message_contact
         (snd (run (exec svc) (handle_rsvp_reply from_number text) w))
       = message_contact w.
Proof.
  intros Hnd Hmatch Hsent.
  destruct (latest_spec _ Hsent) as (c & Hlatest & Hc & Hmax).
  pose proof (rsvp_search_group _ _ Hmatch) as Hg.
  assert (Hstatus : (if String.eqb g "yes" then "yes"%string else "no"%string)
                    = g)
    by (destruct Hg as [-> | ->]; reflexivity).
  exists c. split; [exact Hc |]. split; [exact Hmax |]. split; [exact Hg |].
  unfold handle_rsvp_reply. cbv zeta. rewrite Hmatch, Hstatus.
  rewrite run_pbind, run_bind. cbn [call run exec fst snd]. rewrite Hlatest.
  rewrite run_bind. cbn [call run exec fst snd]. rewrite run_pbind.
  assert (Htable : forall w',
            rsvp_contact_status w'
            = update_where contact_id (contact_id c) (with_reply (Some g))
                (rsvp_contact_status w) ->
            message_contact w' = message_contact w ->
            rsvp_contact_status w'
            = map (fun r => if (contact_id r =? contact_id c)%Z
                            then with_reply (Some g) r else r)
                (rsvp_contact_status w)
            /\ (forall r, In r (rsvp_contact_status w) -> r <> c ->
                  In r (rsvp_contact_status w'))
            /\ message_contact w' = message_contact w).
  { intros w' Hw' Hm. split; [exact Hw' |]. split; [| exact Hm].
    intros r Hr Hne. rewrite Hw'. unfold update_where.
    apply in_map_iff. exists r. split; [| exact Hr].
    destruct (Z.eqb_spec (contact_id r) (contact_id c)) as [E |];
      [| reflexivity].
    exfalso. apply Hne. apply (key_inj contact_id _ _ _ Hnd Hr); [| exact E].
    unfold sent_invitations in Hc. apply filter_In in Hc. apply Hc. }
  destruct (truthy from_number); cbn [pbind call run exec fst snd ret];
    (split; [reflexivity |]); apply Htable; reflexivity.
Qed.

Lemma reply_recorded_on_latest_invitation_witness :
  exists c,
    In c (sent_invitations (normalize_number "whatsapp:+15550001")
            invitations_world)
    /\ (forall c', In c' (sent_invitations
                           (normalize_number "whatsapp:+15550001")
                           invitations_world) ->
                   (contact_id c' <= contact_id c)%Z)
    /\ ("yes"%string = "yes"%string \/ "yes"%string = "no"%string)
    /\ fst (run (exec accepting)
              (handle_rsvp_reply "whatsapp:+15550001" "RSVP: Yes")
              invitations_world)
       = confirmation_msg
    /\ rsvp_contact_status
         (snd (run (exec accepting)
                 (handle_rsvp_reply "whatsapp:+15550001" "RSVP: Yes")
                 invitations_world))
       = map (fun r => if (contact_id r =? contact_id c)%Z
                       then with_reply (Some "yes"%string) r else r)
           (rsvp_contact_status invitations_world)
    /\ (forall r, In r (rsvp_contact_status invitations_world) -> r <> c ->
          In r (rsvp_contact_status
                  (snd (run (exec accepting)
                          (handle_rsvp_reply "whatsapp:+15550001" "RSVP: Yes")
                          invitations_world))))
    /\ message_contact
         (snd (run (exec accepting)
                 (handle_rsvp_reply "whatsapp:+15550001" "RSVP: Yes")
                 invitations_world))
       = message_contact invitations_world.
Proof.
  apply (reply_recorded_on_latest_invitation accepting invitations_world
           "whatsapp:+15550001" "RSVP: Yes" "yes").
  - cbn. repeat constructor; cbn; intuition lia.
  - reflexivity.
  - vm_compute. discriminate.
Defined.

(** The spec's example: of the invitations 10 and 14, only 14 is updated. *)
Example reply_updates_14_only :
  rsvp_contact_status
    (snd (run (exec accepting)
            (handle_rsvp_reply "whatsapp:+15550001" "rsvp: yes")
            invitations_world))
  = [mkcontact 10 1 "+15550001" (Some "sent"%string) None;
     mkcontact 12 1 "+15550002" (Some "sent"%string) None;
     mkcontact 14 2 "+15550001" (Some "sent"%string) (Some "yes"%string)].
Proof. vm_compute. reflexivity. Qed.

(** ** The tables of one kind *)

Lemma contacts_set_contacts k f w :
  contacts_of k (set_contacts k f w) = f (contacts_of k w).
Proof. destruct k; reflexivity. Qed.

Lemma aggregates_set_contacts k f w :
  aggregates_of k (set_contacts k f w) = aggregates_of k w.
Proof. destruct k; reflexivity. Qed.

Lemma outbox_set_contacts k f w : outbox (set_contacts k f w) = outbox w.
Proof. destruct k; reflexivity. Qed.

Lemma contacts_set_aggregates k f w :
  contacts_of k (set_aggregates k f w) = contacts_of k w.
Proof. destruct k; reflexivity. Qed.

Lemma aggregates_set_aggregates k f w :
  aggregates_of k (set_aggregates k f w) = f (aggregates_of k w).
Proof. destruct k; reflexivity. Qed.

Lemma outbox_set_aggregates k f w : outbox (set_aggregates k f w) = outbox w.
Proof. destruct k; reflexivity. Qed.

Lemma contacts_set_outbox k f w :
  contacts_of k (set_outbox f w) = contacts_of k w.
Proof. destruct k; reflexivity. Qed.

Lemma aggregates_set_outbox k f w :
  aggregates_of k (set_outbox f w) = aggregates_of k w.
Proof. destruct k; reflexivity. Qed.

(** Read a table through the updates of the others. *)
Ltac tables :=
  rewrite ?contacts_set_contacts, ?aggregates_set_contacts,
    ?outbox_set_contacts, ?contacts_set_aggregates,
    ?aggregates_set_aggregates, ?outbox_set_aggregates,
    ?contacts_set_outbox, ?aggregates_set_outbox.

Lemma settle_cons k d news r :
  settle k (d :: news) r
  = settle k news
      (if tagged k (contact_id r) d
       then with_send_status (Some (status_of_answer (answer d))) r
       else r).
Proof. reflexivity. Qed.

Lemma kind_eqb_refl k : kind_eqb k k = true.
Proof. destruct k; reflexivity. Qed.

Lemma settle_id k news r : contact_id (settle k news r) = contact_id r.
Proof.
  revert r. induction news as [| d news IH]; intros r; [reflexivity |].
  rewrite settle_cons, IH.
  destruct (tagged k (contact_id r) d); reflexivity.
Qed.

Lemma settle_parent k news r : parent_id (settle k news r) = parent_id r.
Proof.
  revert r. induction news as [| d news IH]; intros r; [reflexivity |].
  rewrite settle_cons, IH.
  destruct (tagged k (contact_id r) d); reflexivity.
Qed.

Lemma settle_app k n1 n2 r :
  settle k (n1 ++ n2) r = settle k n2 (settle k n1 r).
Proof. unfold settle. apply fold_left_app. Qed.

Lemma settle_untagged k news r :
  List.filter (tagged k (contact_id r)) news = [] -> settle k news r = r.
Proof.
  induction news as [| d news IH]; [reflexivity |].
  rewrite settle_cons. cbn [List.filter].
  destruct (tagged k (contact_id r) d); [discriminate | exact IH].
Qed.

Lemma settle_once k news r d :
  List.filter (tagged k (contact_id r)) news = [d] ->
  settle k news r = with_send_status (Some (status_of_answer (answer d))) r.
Proof.
  induction news as [| d' news IH]; [discriminate |].
  rewrite settle_cons. cbn [List.filter].
  destruct (tagged k (contact_id r) d') eqn:E.
  - intros [= -> Hrest]. apply settle_untagged. exact Hrest.
  - exact IH.
Qed.

(** One contact on the store: mark, send, and mark again by the answer. *)
Lemma send_to_contact_run svc k text c w :
  exists d w',
    run (exec svc) (send_to_contact k text c) w = (Ok (is_ok (answer d)), w')
    /\ outbox w' = outbox w ++ [d]
    /\ contacts_of k w' = map (settle k [d]) (contacts_of k w)
    /\ aggregates_of k w' = aggregates_of k w
    /\ attempt_of svc k text c d.
Proof.
  set (d := mkdelivery (Fanout k (contact_id c))
              (contact_address (contact_phone c)) text
              (twilio svc (outbox w) (contact_address (contact_phone c)) text)).
  assert (Htable : forall v,
            update_where contact_id (contact_id c) (with_send_status (Some v))
              (update_where contact_id (contact_id c)
                 (with_send_status (Some "processing"%string))
                 (contacts_of k w))
            = map (fun r => if tagged k (contact_id r) d
                            then with_send_status (Some v) r else r)
                (contacts_of k w)).
  { intros v. unfold update_where. rewrite map_map. apply map_ext. intros r.
    unfold tagged. cbn [why d]. rewrite kind_eqb_refl. cbn [andb].
    rewrite (Z.eqb_sym (contact_id c)).
    destruct (contact_id r =? contact_id c)%Z eqn:E;
      cbn [contact_id with_send_status]; rewrite ?E; reflexivity. }
  exists d. unfold send_to_contact.
  rewrite run_pbind, run_bind. cbn [call run exec fst snd].
  rewrite run_bind. cbn [call run exec fst snd outbox].
  tables. fold d.
  destruct (twilio svc (outbox w) _ text) eqn:Ht;
    cbn [call run exec fst snd pbind bind ret raise]; eexists;
    (split; [reflexivity |]); tables; cbn [outbox set_outbox]; tables;
    repeat split; try (rewrite Htable; reflexivity);
    exists (outbox w); symmetry; exact Ht.
Qed.

(** The contacts of one aggregate on the store. *)
Lemma contact_loop_run svc k text cs :
  forall b w,
  exists news w',
    run (exec svc) (contact_loop k text cs b) w
    = (Ok (b && forallb (fun d => is_ok (answer d)) news), w')
    /\ outbox w' = outbox w ++ news
    /\ contacts_of k w' = map (settle k news) (contacts_of k w)
    /\ aggregates_of k w' = aggregates_of k w
    /\ Forall2 (attempt_of svc k text) cs news.
Proof.
  induction cs as [| c cs IH]; intros b w.
  - exists [], w. split; [rewrite andb_true_r; reflexivity |].
    rewrite app_nil_r. repeat split; [| constructor].
    symmetry. erewrite map_ext; [apply map_id | reflexivity].
  - cbn [contact_loop]. rewrite run_bind.
    destruct (send_to_contact_run svc k text c w)
      as (d & w1 & Hrun & Hout & Hcon & Hagg & Hatt).
    rewrite Hrun. cbn [fst snd].
    destruct (IH (b && is_ok (answer d)) w1)
      as (news & w' & Hrun' & Hout' & Hcon' & Hagg' & Hatts).
    exists (d :: news), w'. rewrite Hrun'. cbn [forallb].
    split; [rewrite andb_assoc; reflexivity |].
    split; [rewrite Hout', Hout, <- app_assoc; reflexivity |].
    split; [| split; [rewrite Hagg'; exact Hagg | constructor; assumption]].
    rewrite Hcon', Hcon, map_map. apply map_ext. intros r.
    symmetry. apply (settle_app k [d] news r).
Qed.

Lemma in_pending_contacts k p w c :
  In c (pending_contacts k p w)
  <-> In c (contacts_of k w) /\ parent_id c = p
      /\ is_pending (send_status c) = true.
Proof.
  unfold pending_contacts. rewrite filter_In, andb_true_iff, Z.eqb_eq.
  tauto.
Qed.

Lemma attempts_app k i w w' news :
  outbox w' = outbox w ++ news ->
  attempts k i w' = attempts k i w ++ List.filter (tagged k i) news.
Proof. intros H. unfold attempts. rewrite H. apply List.filter_app. Qed.

Lemma tagged_attempt svc k text c d i :
  attempt_of svc k text c d -> tagged k i d = (contact_id c =? i)%Z.
Proof.
  intros (Hwhy & _). unfold tagged. rewrite Hwhy, kind_eqb_refl. reflexivity.
Qed.

Lemma untagged_news svc k text cs news i :
  Forall2 (attempt_of svc k text) cs news ->
  ~ In i (map contact_id cs) ->
  List.filter (tagged k i) news = [].
Proof.
  induction 1 as [| c d cs news Hcd _ IH]; intros Hi; [reflexivity |].
  cbn [List.filter]. rewrite (tagged_attempt _ _ _ _ _ i Hcd).
  destruct (Z.eqb_spec (contact_id c) i) as [E |].
  - exfalso. apply Hi. left. exact E.
  - apply IH. intros H. apply Hi. right. exact H.
Qed.

Lemma tagged_news svc k text cs news c :
  Forall2 (attempt_of svc k text) cs news ->
  List.NoDup (map contact_id cs) ->
  In c cs ->
  exists d,
    List.filter (tagged k (contact_id c)) news = [d]
    /\ attempt_of svc k text c d.
Proof.
  induction 1 as [| c0 d cs news Hcd Hrest IH]; intros Hnd Hc;
    [contradiction |].
  cbn [map] in Hnd. apply NoDup_cons_iff in Hnd. destruct Hnd as [Hc0 Hnd].
  cbn [List.filter]. rewrite (tagged_attempt _ _ _ _ _ (contact_id c) Hcd).
  destruct Hc as [-> | Hc].
  - rewrite Z.eqb_refl. exists d.
    rewrite (untagged_news _ _ _ _ _ _ Hrest Hc0). split; [reflexivity |].
    exact Hcd.
  - destruct (Z.eqb_spec (contact_id c0) (contact_id c)) as [E |].
    + exfalso. apply Hc0. rewrite E. apply in_map, Hc.
    + apply IH; assumption.
Qed.

Lemma settle_ids k news (cs : list contact) :
  map contact_id (map (settle k news) cs) = map contact_id cs.
Proof. rewrite map_map. apply map_ext. intros r. apply settle_id. Qed.

Lemma update_agg_ids id f (aggs : list aggregate) :
  (forall a, agg_id (f a) = agg_id a) ->
  map agg_id (update_where agg_id id f aggs) = map agg_id aggs.
Proof. apply update_where_key. Qed.

Lemma existsb_absent {A : Type} (key : A -> Z) (q : Z) (l : list A) :
  ~ In q (map key l) -> existsb (fun a => (key a =? q)%Z) l = false.
Proof.
  intros Hq. induction l as [| a l IH]; [reflexivity |].
  cbn [existsb]. rewrite IH by (intros H; apply Hq; right; exact H).
  destruct (Z.eqb_spec (key a) q) as [E |]; [| reflexivity].
  exfalso. apply Hq. left. exact E.
Qed.

Section FanOutOnStore.
Context (svc : services) (k : kind).

(** What a run of the aggregate loop does for one contact row [c]: when
    [c] is pending and its aggregate is in the loop, one send, and the
    row's status by the answer; if not, nothing. *)
Lemma aggregate_loop_contact (aggs : list aggregate) :
  forall w c,
    List.NoDup (map agg_id aggs) ->
    List.NoDup (map contact_id (contacts_of k w)) ->
    In c (contacts_of k w) ->
    exists w',
      run (exec svc) (aggregate_loop k aggs) w = (Ok tt, w')
      /\ map contact_id (contacts_of k w') = map contact_id (contacts_of k w)
      /\ map agg_id (aggregates_of k w') = map agg_id (aggregates_of k w)
      /\ if is_pending (send_status c)
            && existsb (fun a => (agg_id a =? parent_id c)%Z) aggs
         then exists a d,
                In a aggs /\ agg_id a = parent_id c
                /\ attempt_of svc k (fanout_body k a) c d
                /\ attempts k (contact_id c) w'
                   = attempts k (contact_id c) w ++ [d]
                /\ List.filter (fun r => (contact_id r =? contact_id c)%Z)
                     (contacts_of k w')
                   = [with_send_status (Some (status_of_answer (answer d))) c]
         else attempts k (contact_id c) w' = attempts k (contact_id c) w
              /\ List.filter (fun r => (contact_id r =? contact_id c)%Z)
                   (contacts_of k w')
                 = [c].
Proof.
  induction aggs as [| a0 rest IH]; intros w c Hnda Hndc Hc.
  - exists w. split; [reflexivity |]. split; [reflexivity |].
    split; [reflexivity |]. cbn [existsb]. rewrite andb_false_r.
    split; [reflexivity |]. apply (filter_key_unique contact_id _ _ Hndc Hc).
  - cbn [map] in Hnda. apply NoDup_cons_iff in Hnda.
    destruct Hnda as [Ha0 Hnda].
    cbn [aggregate_loop]. rewrite run_bind. cbn [call run exec fst snd].
    destruct (pending_contacts k (agg_id a0) w) as [| c0 cs0] eqn:Hcs.
    + (* nothing to send for [a0] *)
      destruct (IH w c Hnda Hndc Hc) as (w' & Hrun & Hids & Haids & Hc').
      exists w'. split; [exact Hrun |]. split; [exact Hids |].
      split; [exact Haids |]. cbn [existsb].
      destruct (is_pending (send_status c)) eqn:Hp; [| exact Hc'].
      destruct (Z.eqb_spec (agg_id a0) (parent_id c)) as [E |].
      * exfalso.
        assert (Hin : In c (pending_contacts k (agg_id a0) w))
          by (apply in_pending_contacts; auto).
        rewrite Hcs in Hin. exact Hin.
      * cbn [orb andb] in *. destruct (existsb _ rest); [| exact Hc'].
        destruct Hc' as (a & d & Ha & Hrest). exists a, d.
        split; [right; exact Ha | exact Hrest].
    + rewrite <- Hcs. clear c0 cs0 Hcs.
      set (cs := pending_contacts k (agg_id a0) w).
      rewrite run_bind.
      destruct (contact_loop_run svc k (fanout_body k a0) cs true w)
        as (news & w1 & Hrun1 & Hout1 & Hcon1 & Hagg1 & Hatt).
      rewrite Hrun1. cbn [fst snd andb].
      (* the store after the roll-up *)
      assert (Hnext : exists w2,
                run (exec svc)
                  (if forallb (fun d => is_ok (answer d)) news
                   then let* _ := call (UpdateAggregateStatus k (agg_id a0)
                                          "sent") in
                        aggregate_loop k rest
                   else aggregate_loop k rest) w1
                = run (exec svc) (aggregate_loop k rest) w2
                /\ outbox w2 = outbox w ++ news
                /\ contacts_of k w2 = map (settle k news) (contacts_of k w)
                /\ map agg_id (aggregates_of k w2)
                   = map agg_id (aggregates_of k w)).
      { destruct (forallb _ news).
        - eexists. rewrite run_bind. cbn [call run exec fst snd].
          split; [reflexivity |]. tables.
          split; [exact Hout1 |]. split; [exact Hcon1 |].
          rewrite Hagg1. apply update_agg_ids. reflexivity.
        - exists w1. split; [reflexivity |]. split; [exact Hout1 |].
          split; [exact Hcon1 |]. rewrite Hagg1. reflexivity. }
      destruct Hnext as (w2 & -> & Hout2 & Hcon2 & Haids2).
      assert (Hndc2 : List.NoDup (map contact_id (contacts_of k w2)))
        by (rewrite Hcon2, settle_ids; exact Hndc).
      assert (Hc2 : In (settle k news c) (contacts_of k w2))
        by (rewrite Hcon2; apply in_map, Hc).
      destruct (IH w2 (settle k news c) Hnda Hndc2 Hc2)
        as (w' & Hrun & Hids & Haids & Hc').
      exists w'. split; [exact Hrun |].
      split; [rewrite Hids, Hcon2; apply settle_ids |].
      split; [rewrite Haids; exact Haids2 |].
      rewrite settle_id, settle_parent in Hc'.
      rewrite (attempts_app k _ w w2 news Hout2) in Hc'.
      assert (Hcsnd : List.NoDup (map contact_id cs))
        by (apply NoDup_map_filter, Hndc).
      destruct (is_pending (send_status c)
                && (agg_id a0 =? parent_id c)%Z) eqn:Hmine.
      * (* [c] is one of the contacts of [a0] *)
        apply andb_true_iff in Hmine. destruct Hmine as [Hp E].
        apply Z.eqb_eq in E.
        assert (Hin : In c cs) by (apply in_pending_contacts; auto).
        destruct (tagged_news _ _ _ _ _ c Hatt Hcsnd Hin) as (d & Hd & Hcd).
        rewrite Hd in Hc'. rewrite (settle_once k news c d Hd) in Hc'.
        rewrite Hp. cbn [existsb andb]. rewrite E, Z.eqb_refl. cbn [orb].
        rewrite <- E, (existsb_absent agg_id _ _ Ha0), andb_false_r in Hc'.
        destruct Hc' as [Hatt' Hrow'].
        exists a0, d. split; [left; reflexivity |]. split; [exact E |].
        split; [exact Hcd |]. split; [exact Hatt' |]. exact Hrow'.
      * (* [c] is not *)
        assert (Hnot : ~ In (contact_id c) (map contact_id cs)).
        { intros Hin. apply in_map_iff in Hin. destruct Hin as (c1 & Hid & Hc1).
          apply in_pending_contacts in Hc1. destruct Hc1 as (Hc1 & Hpar & Hp1).
          rewrite (key_inj contact_id _ _ _ Hndc Hc1 Hc Hid) in *.
          rewrite Hp1, Hpar, Z.eqb_refl in Hmine. discriminate. }
        rewrite (untagged_news _ _ _ _ _ _ Hatt Hnot), app_nil_r in Hc'.
        rewrite (settle_untagged k news c
                   (untagged_news _ _ _ _ _ _ Hatt Hnot)) in Hc'.
        cbn [existsb].
        destruct (is_pending (send_status c)); cbn [andb] in *;
          [| exact Hc'].
        rewrite Hmine. cbn [orb].
        destruct (existsb _ rest); [| exact Hc'].
        destruct Hc' as (a & d & Ha & Hrest). exists a, d.
        split; [right; exact Ha | exact Hrest].
Qed.

(** A contact whose aggregate is not in the loop keeps its status. *)
Lemma aggregate_loop_keeps_status (rest : list aggregate) (w : world)
    (c : contact) :
  List.NoDup (map agg_id rest) ->
  List.NoDup (map contact_id (contacts_of k w)) ->
  In c (contacts_of k w) ->
  ~ In (parent_id c) (map agg_id rest) ->
  statuses k (contact_id c)
    (snd (run (exec svc) (aggregate_loop k rest) w))
  = [send_status c].
Proof.
  intros Hnda Hndc Hc Hpar.
  destruct (aggregate_loop_contact rest w c Hnda Hndc Hc)
    as (w' & Hrun & _ & _ & Hc').
  rewrite Hrun. cbn [snd].
  rewrite (existsb_absent agg_id _ _ Hpar), andb_false_r in Hc'.
  destruct Hc' as [_ Hrow]. unfold statuses. rewrite Hrow. reflexivity.
Qed.

Lemma filter_map_fixed {A : Type} (sel : A -> bool) (f : A -> A)
    (l : list A) :
  (forall r, In r l -> sel (f r) = sel r /\ (sel r = true -> f r = r)) ->
  List.filter sel (map f l) = List.filter sel l.
Proof.
  induction l as [| r l IH]; intros H; [reflexivity |].
  cbn [map List.filter].
  destruct (H r (or_introl eq_refl)) as [Hsel Hfix]. rewrite Hsel.
  rewrite IH by (intros r' Hr'; apply H; right; exact Hr').
  destruct (sel r) eqn:E; [rewrite Hfix by reflexivity |]; reflexivity.
Qed.

(** The sends for one aggregate leave the pending contacts of every
    other aggregate as they are. *)
Lemma pending_contacts_stable (w w2 : world) (a0 : aggregate)
    (news : list delivery) (text : option string) (q : Z) :
  List.NoDup (map contact_id (contacts_of k w)) ->
  Forall2 (attempt_of svc k text) (pending_contacts k (agg_id a0) w) news ->
  contacts_of k w2 = map (settle k news) (contacts_of k w) ->
  q <> agg_id a0 ->
  pending_contacts k q w2 = pending_contacts k q w.
Proof.
  intros Hndc Hatt Hcon Hq. unfold pending_contacts at 1. rewrite Hcon.
  apply filter_map_fixed. intros r Hr.
  assert (Hfix : (parent_id r =? q)%Z = true -> settle k news r = r).
  { intros Hpar. apply Z.eqb_eq in Hpar.
    apply settle_untagged. eapply untagged_news; [exact Hatt |].
    intros Hin. apply in_map_iff in Hin. destruct Hin as (c1 & Hid & Hc1).
    apply in_pending_contacts in Hc1. destruct Hc1 as (Hc1 & Hpar1 & _).
    rewrite (key_inj contact_id _ _ _ Hndc Hc1 Hr Hid) in Hpar1. congruence. }
  rewrite settle_parent. split.
  - destruct (parent_id r =? q)%Z eqn:E; [| reflexivity].
    rewrite Hfix; reflexivity.
  - intros Hsel. apply andb_true_iff in Hsel. apply Hfix, Hsel.
Qed.

Lemma filter_update_key {A : Type} (key : A -> Z) (id q : Z) (f : A -> A)
    (rows : list A) :
  (forall r, key (f r) = key r) ->
  List.filter (fun r => (key r =? q)%Z) (update_where key id f rows)
  = if (id =? q)%Z
    then map f (List.filter (fun r => (key r =? q)%Z) rows)
    else List.filter (fun r => (key r =? q)%Z) rows.
Proof.
  intros Hf. rewrite filter_update_where by exact Hf.
  destruct (Z.eqb_spec id q) as [-> | Hne].
  - apply map_ext_in. intros r Hr. apply filter_In in Hr.
    destruct Hr as [_ ->]. reflexivity.
  - erewrite map_ext_in; [apply map_id |]. intros r Hr.
    apply filter_In in Hr. destruct Hr as [_ Hr]. apply Z.eqb_eq in Hr.
    destruct (Z.eqb_spec (key r) id); [congruence | reflexivity].
Qed.

Lemma aggregate_loop_aggregate (aggs : list aggregate) :
  forall w q,
    List.NoDup (map agg_id aggs) ->
    List.NoDup (map contact_id (contacts_of k w)) ->
    exists w',
      run (exec svc) (aggregate_loop k aggs) w = (Ok tt, w')
      /\ ((rolled_up k aggs q w w'
           /\ List.filter (fun a => (agg_id a =? q)%Z) (aggregates_of k w')
              = map (with_agg_status (Some "sent"%string))
                  (List.filter (fun a => (agg_id a =? q)%Z)
                     (aggregates_of k w)))
          \/ (~ rolled_up k aggs q w w'
              /\ List.filter (fun a => (agg_id a =? q)%Z) (aggregates_of k w')
                 = List.filter (fun a => (agg_id a =? q)%Z)
                     (aggregates_of k w))).
Proof.
  induction aggs as [| a0 rest IH]; intros w q Hnda Hndc.
  - exists w. split; [reflexivity |]. right.
    split; [intros (H & _); exact H | reflexivity].
  - cbn [map] in Hnda. apply NoDup_cons_iff in Hnda.
    destruct Hnda as [Ha0 Hnda].
    cbn [aggregate_loop]. rewrite run_bind. cbn [call run exec fst snd].
    destruct (pending_contacts k (agg_id a0) w) as [| c0 cs0] eqn:Hcs.
    + destruct (IH w q Hnda Hndc) as (w' & Hrun & Hcase).
      exists w'. split; [exact Hrun |].
      destruct Hcase as [[(Hin & Hp & Hs) Hrows] | [Hno Hrows]].
      * left. split; [| exact Hrows]. split; [right; exact Hin |]. auto.
      * right. split; [| exact Hrows]. intros (Hin & Hp & Hs).
        destruct Hin as [E | Hin].
        -- apply Hp. rewrite <- E. exact Hcs.
        -- apply Hno. split; [exact Hin |]. auto.
    + rewrite <- Hcs.
      assert (Hne : pending_contacts k (agg_id a0) w <> [])
        by (rewrite Hcs; discriminate).
      clear c0 cs0 Hcs.
      set (cs := pending_contacts k (agg_id a0) w) in *.
      rewrite run_bind.
      destruct (contact_loop_run svc k (fanout_body k a0) cs true w)
        as (news & w1 & Hrun1 & Hout1 & Hcon1 & Hagg1 & Hatt).
      rewrite Hrun1. cbn [fst snd andb].
      set (b := forallb (fun d => is_ok (answer d)) news).
      assert (Hnext : exists w2,
                run (exec svc)
                  (if b
                   then let* _ := call (UpdateAggregateStatus k (agg_id a0)
                                          "sent") in
                        aggregate_loop k rest
                   else aggregate_loop k rest) w1
                = run (exec svc) (aggregate_loop k rest) w2
                /\ contacts_of k w2 = map (settle k news) (contacts_of k w)
                /\ List.filter (fun a => (agg_id a =? q)%Z)
                     (aggregates_of k w2)
                   = if b && (agg_id a0 =? q)%Z
                     then map (with_agg_status (Some "sent"%string))
                            (List.filter (fun a => (agg_id a =? q)%Z)
                               (aggregates_of k w))
                     else List.filter (fun a => (agg_id a =? q)%Z)
                            (aggregates_of k w)).
      { destruct b.
        - eexists. rewrite run_bind. cbn [call run exec fst snd].
          split; [reflexivity |]. tables. split; [exact Hcon1 |].
          rewrite Hagg1. apply filter_update_key. reflexivity.
        - exists w1. split; [reflexivity |]. split; [exact Hcon1 |].
          rewrite Hagg1. reflexivity. }
      destruct Hnext as (w2 & -> & Hcon2 & Hagg2).
      assert (Hndc2 : List.NoDup (map contact_id (contacts_of k w2)))
        by (rewrite Hcon2, settle_ids; exact Hndc).
      destruct (IH w2 q Hnda Hndc2) as (w' & Hrun & Hcase).
      exists w'. split; [exact Hrun |].
      assert (Hcsnd : List.NoDup (map contact_id cs))
        by (apply NoDup_map_filter, Hndc).
      (* how the contacts of [a0] end *)
      assert (Hend : forall c d,
                In c cs -> List.filter (tagged k (contact_id c)) news = [d] ->
                statuses k (contact_id c) w'
                = [Some (status_of_answer (answer d))]).
      { intros c d Hc Hd.
        assert (Hc' : In c (contacts_of k w))
          by (apply in_pending_contacts in Hc; apply Hc).
        assert (Hpar : parent_id c = agg_id a0)
          by (apply in_pending_contacts in Hc; apply Hc).
        pose proof (aggregate_loop_keeps_status rest w2 (settle k news c)
                      Hnda Hndc2) as Hkeep.
        rewrite Hrun, settle_id, settle_parent in Hkeep. cbn [snd] in Hkeep.
        rewrite Hkeep.
        - rewrite (settle_once k news c d Hd). reflexivity.
        - rewrite Hcon2. apply in_map, Hc'.
        - rewrite Hpar. exact Ha0. }
      destruct (Z.eqb_spec (agg_id a0) q) as [E | Hq].
      * (* [q] is [a0] *)
        subst q. rewrite andb_true_r in Hagg2.
        assert (Hrows : List.filter (fun a => (agg_id a =? agg_id a0)%Z)
                          (aggregates_of k w')
                        = List.filter (fun a => (agg_id a =? agg_id a0)%Z)
                            (aggregates_of k w2)).
        { destruct Hcase as [[(Hin & _) _] | [_ Hrows]];
            [contradiction | exact Hrows]. }
        rewrite Hrows, Hagg2.
        destruct b eqn:Hb.
        -- left. split; [| reflexivity].
           split; [left; reflexivity |]. split; [exact Hne |].
           intros c Hc.
           destruct (tagged_news _ _ _ _ _ c Hatt Hcsnd Hc) as (d & Hd & _).
           rewrite (Hend c d Hc Hd).
           assert (Hok : is_ok (answer d) = true).
           { unfold b in Hb. rewrite forallb_forall in Hb. apply Hb.
             assert (Hin : In d (List.filter (tagged k (contact_id c)) news))
               by (rewrite Hd; left; reflexivity).
             apply filter_In in Hin. apply Hin. }
           destruct (answer d); [reflexivity | discriminate].
        -- right. split; [| reflexivity].
           intros (_ & _ & Hs).
           assert (Hbad : exists c d,
                     In c cs
                     /\ List.filter (tagged k (contact_id c)) news = [d]
                     /\ is_ok (answer d) = false).
           { unfold b in Hb. clear - Hatt Hcsnd Hb. revert Hcsnd Hb.
             induction Hatt as [| c d cs news Hcd Hatt IHatt];
               intros Hcsnd Hb; [discriminate |].
             cbn [map] in Hcsnd. apply NoDup_cons_iff in Hcsnd.
             destruct Hcsnd as [Hc Hcsnd].
             cbn [forallb] in Hb. apply andb_false_iff in Hb.
             destruct (is_ok (answer d)) eqn:Hok.
             - destruct Hb as [Hb | Hb]; [discriminate |].
               destruct (IHatt Hcsnd Hb) as (c1 & d1 & Hc1 & Hd1 & Hok1).
               exists c1, d1. split; [right; exact Hc1 |].
               split; [| exact Hok1].
               cbn [List.filter].
               rewrite (tagged_attempt _ _ _ _ _ (contact_id c1) Hcd).
               destruct (Z.eqb_spec (contact_id c) (contact_id c1)) as [E |];
                 [| exact Hd1].
               exfalso. apply Hc. rewrite E. apply in_map, Hc1.
             - exists c, d. split; [left; reflexivity |].
               split; [| exact Hok].
               cbn [List.filter].
               rewrite (tagged_attempt _ _ _ _ _ (contact_id c) Hcd),
                 Z.eqb_refl.
               rewrite (untagged_news _ _ _ _ _ _ Hatt Hc). reflexivity. }
           destruct Hbad as (c & d & Hc & Hd & Hok).
           specialize (Hs c Hc). rewrite (Hend c d Hc Hd) in Hs.
           destruct (answer d); discriminate.
      * (* [q] is another aggregate *)
        rewrite andb_false_r in Hagg2.
        assert (Hstable : pending_contacts k q w2 = pending_contacts k q w).
        { eapply pending_contacts_stable; eauto. }
        destruct Hcase as [[(Hin & Hp & Hs) Hrows] | [Hno Hrows]].
        -- left. split; [| rewrite Hrows, Hagg2; reflexivity].
           split; [right; exact Hin |]. rewrite <- Hstable. auto.
        -- right. split; [| rewrite Hrows, Hagg2; reflexivity].
           intros (Hin & Hp & Hs). apply Hno.
           destruct Hin as [E | Hin]; [congruence |].
           split; [exact Hin |]. rewrite Hstable. auto.
Qed.

End FanOutOnStore.

(* ===================================================================== *)
(** * One fan-out tick on the store                                       *)
(* ===================================================================== *)

Section FanOutTick.
Context (svc : services) (k : kind).

Lemma aggregate_loop_ids (aggs : list aggregate) :
  forall w,
    exists w',
      run (exec svc) (aggregate_loop k aggs) w = (Ok tt, w')
      /\ map contact_id (contacts_of k w') = map contact_id (contacts_of k w)
      /\ map agg_id (aggregates_of k w') = map agg_id (aggregates_of k w).
Proof.
  induction aggs as [| a0 rest IH]; intros w.
  - exists w. repeat split.
  - cbn [aggregate_loop]. rewrite run_bind. cbn [call run exec fst snd].
    destruct (pending_contacts k (agg_id a0) w) as [| c0 cs0] eqn:Hcs;
      [apply IH |].
    rewrite run_bind.
    destruct (contact_loop_run svc k (fanout_body k a0) (c0 :: cs0) true w)
      as (news & w1 & Hrun1 & _ & Hcon1 & Hagg1 & _).
    rewrite Hrun1. cbn [fst snd andb].
    destruct (forallb _ news).
    + rewrite run_bind. cbn [call run exec fst snd].
      match goal with
      | |- exists w', run _ _ ?w2 = _ /\ _ =>
          destruct (IH w2) as (w' & Hrun & Hci & Hai)
      end.
      exists w'. split; [exact Hrun |]. revert Hci Hai. tables.
      intros -> ->. rewrite Hcon1, Hagg1, settle_ids.
      split; [reflexivity | apply update_agg_ids; reflexivity].
    + destruct (IH w1) as (w' & Hrun & Hci & Hai).
      exists w'. split; [exact Hrun |].
      rewrite Hci, Hai, Hcon1, Hagg1, settle_ids. split; reflexivity.
Qed.

Lemma fan_out_run (w : world) :
  after_fan_out svc k w
  = snd (run (exec svc) (aggregate_loop k (pending_aggregates k w)) w).
Proof.
  unfold after_fan_out, fan_out. rewrite run_pbind, run_bind.
  cbn [call run exec fst snd].
  destruct (pending_aggregates k w); reflexivity.
Qed.

Lemma pending_aggregates_unique (w : world) :
  fan_out_ids_unique k w -> List.NoDup (map agg_id (pending_aggregates k w)).
Proof. intros [H _]. apply NoDup_map_filter, H. Qed.

Lemma fan_out_keeps_ids (w : world) :
  fan_out_ids_unique k w -> fan_out_ids_unique k (after_fan_out svc k w).
Proof.
  intros [Ha Hc]. rewrite fan_out_run.
  destruct (aggregate_loop_ids (pending_aggregates k w) w)
    as (w' & Hrun & Hci & Hai).
  rewrite Hrun. cbn [snd]. split; [rewrite Hai | rewrite Hci]; assumption.
Qed.

(** What one tick does to a contact row. *)
Lemma fan_out_contact (w : world) (c : contact) :
  fan_out_ids_unique k w ->
  In c (contacts_of k w) ->
  if is_pending (send_status c)
     && existsb (fun a => (agg_id a =? parent_id c)%Z)
          (pending_aggregates k w)
  then exists a d,
         In a (pending_aggregates k w) /\ agg_id a = parent_id c
         /\ attempt_of svc k (fanout_body k a) c d
         /\ attempts k (contact_id c) (after_fan_out svc k w)
            = attempts k (contact_id c) w ++ [d]
         /\ List.filter (fun r => (contact_id r =? contact_id c)%Z)
              (contacts_of k (after_fan_out svc k w))
            = [with_send_status (Some (status_of_answer (answer d))) c]
  else attempts k (contact_id c) (after_fan_out svc k w)
       = attempts k (contact_id c) w
       /\ List.filter (fun r => (contact_id r =? contact_id c)%Z)
            (contacts_of k (after_fan_out svc k w))
          = [c].
Proof.
  intros Hu Hc. pose proof (pending_aggregates_unique w Hu) as Hnda.
  destruct Hu as [_ Hndc]. rewrite fan_out_run.
  destruct (aggregate_loop_contact svc k (pending_aggregates k w) w c
              Hnda Hndc Hc) as (w' & Hrun & _ & _ & Hcase).
  rewrite Hrun. cbn [snd]. exact Hcase.
Qed.

(** What one tick does to an aggregate row. *)
Lemma fan_out_aggregate (w : world) (q : Z) :
  fan_out_ids_unique k w ->
  (rolled_up k (pending_aggregates k w) q w (after_fan_out svc k w)
   /\ List.filter (fun a => (agg_id a =? q)%Z)
        (aggregates_of k (after_fan_out svc k w))
      = map (with_agg_status (Some "sent"%string))
          (List.filter (fun a => (agg_id a =? q)%Z) (aggregates_of k w)))
  \/ (~ rolled_up k (pending_aggregates k w) q w (after_fan_out svc k w)
      /\ List.filter (fun a => (agg_id a =? q)%Z)
           (aggregates_of k (after_fan_out svc k w))
         = List.filter (fun a => (agg_id a =? q)%Z) (aggregates_of k w)).
Proof.
  intros Hu. pose proof (pending_aggregates_unique w Hu) as Hnda.
  destruct Hu as [_ Hndc]. rewrite fan_out_run.
  destruct (aggregate_loop_aggregate svc k (pending_aggregates k w) w q
              Hnda Hndc) as (w' & Hrun & Hcase).
  rewrite Hrun. cbn [snd]. exact Hcase.
Qed.

(** A pending contact of a pending aggregate gets one send in the
    tick, and its row records how the send went. *)
Lemma fan_out_attempt (w : world) (a : aggregate) (c : contact) :
  fan_out_ids_unique k w ->
  In a (pending_aggregates k w) ->
  In c (pending_contacts k (agg_id a) w) ->
  exists d,
    attempt_of svc k (fanout_body k a) c d
    /\ attempts k (contact_id c) (after_fan_out svc k w)
       = attempts k (contact_id c) w ++ [d]
    /\ List.filter (fun r => (contact_id r =? contact_id c)%Z)
         (contacts_of k (after_fan_out svc k w))
       = [with_send_status (Some (status_of_answer (answer d))) c].
Proof.
  intros Hu Ha Hc. apply in_pending_contacts in Hc.
  destruct Hc as (Hc & Hpar & Hp).
  pose proof (fan_out_contact w c Hu Hc) as Hcase.
  rewrite Hp in Hcase. cbn [andb] in Hcase.
  assert (Hex : existsb (fun a0 => (agg_id a0 =? parent_id c)%Z)
                  (pending_aggregates k w) = true).
  { apply existsb_exists. exists a. split; [exact Ha |].
    apply Z.eqb_eq. symmetry. exact Hpar. }
  rewrite Hex in Hcase. destruct Hcase as (a' & d & Ha' & Hid & Hrest).
  assert (a' = a).
  { eapply (key_inj agg_id); [apply pending_aggregates_unique, Hu | | |];
      eauto. congruence. }
  subst a'. exists d. exact Hrest.
Qed.

(** The row of an aggregate, under unique ids. *)
Lemma aggregate_row (w : world) (a : aggregate) :
  fan_out_ids_unique k w ->
  In a (aggregates_of k w) ->
  List.filter (fun r => (agg_id r =? agg_id a)%Z) (aggregates_of k w) = [a].
Proof. intros [Hnd _] Ha. apply (filter_key_unique agg_id _ _ Hnd Ha). Qed.

Lemma in_pending_aggregates (w : world) (a : aggregate) :
  In a (pending_aggregates k w)
  <-> In a (aggregates_of k w) /\ is_pending (agg_status a) = true.
Proof. unfold pending_aggregates. apply filter_In. Qed.

(** A send that raised leaves its contact, and the aggregate of the
    contact, selected for the next tick. *)
Lemma fan_out_failed_step (w : world) (a : aggregate) (c : contact) (d : delivery) :
  fan_out_ids_unique k w ->
  In a (pending_aggregates k w) ->
  In c (pending_contacts k (agg_id a) w) ->
  List.filter (fun r => (contact_id r =? contact_id c)%Z)
    (contacts_of k (after_fan_out svc k w))
  = [with_send_status (Some (status_of_answer (answer d))) c] ->
  answer d = Raise ->
  In (with_send_status (Some ""%string) c)
    (pending_contacts k (agg_id a) (after_fan_out svc k w))
  /\ In a (pending_aggregates k (after_fan_out svc k w)).
Proof.
  intros Hu Ha Hc Hrow Hd. rewrite Hd in Hrow. cbn [status_of_answer] in Hrow.
  pose proof Hc as Hc0. apply in_pending_contacts in Hc0.
  destruct Hc0 as (_ & Hpar & _).
  split.
  - apply in_pending_contacts. split; [| split; [exact Hpar | reflexivity]].
    assert (Hin : In (with_send_status (Some ""%string) c)
                    (List.filter
                       (fun r => (contact_id r =? contact_id c)%Z)
                       (contacts_of k (after_fan_out svc k w))))
      by (rewrite Hrow; left; reflexivity).
    apply filter_In in Hin. apply Hin.
  - pose proof Ha as Ha0. apply in_pending_aggregates in Ha0.
    destruct Ha0 as [Hin Hp].
    apply in_pending_aggregates. split; [| exact Hp].
    assert (Hsame : List.filter (fun r => (agg_id r =? agg_id a)%Z)
                      (aggregates_of k (after_fan_out svc k w))
                    = [a]).
    { destruct (fan_out_aggregate w (agg_id a) Hu)
        as [[(_ & _ & Hs) _] | [_ Hrows]].
      - specialize (Hs c Hc). unfold statuses in Hs. rewrite Hrow in Hs.
        discriminate.
      - rewrite Hrows. apply aggregate_row; assumption. }
    assert (Hin' : In a (List.filter (fun r => (agg_id r =? agg_id a)%Z)
                           (aggregates_of k (after_fan_out svc k w))))
      by (rewrite Hsame; left; reflexivity).
    apply filter_In in Hin'. apply Hin'.
Qed.

(** A contact the gateway always refuses is sent to once in every
    tick. *)
Lemma fan_out_retries (a : aggregate) (n : nat) :
  forall (w : world) (c : contact),
    fan_out_ids_unique k w ->
    In a (pending_aggregates k w) ->
    In c (pending_contacts k (agg_id a) w) ->
    (forall sent_before text,
        twilio svc sent_before (contact_address (contact_phone c)) text
        = Raise) ->
    length (attempts k (contact_id c) (after_fan_outs svc k n w))
    = (length (attempts k (contact_id c) w) + n)%nat.
Proof.
  induction n as [| n IH]; intros w c Hu Ha Hc Hfail.
  - cbn [after_fan_outs]. lia.
  - cbn [after_fan_outs].
    destruct (fan_out_attempt w a c Hu Ha Hc) as (d & Hcd & Hatt & Hrow).
    assert (Hd : answer d = Raise).
    { destruct Hcd as (_ & Hto & _ & pre & ->). rewrite Hto. apply Hfail. }
    destruct (fan_out_failed_step w a c d Hu Ha Hc Hrow Hd) as [Hc' Ha'].
    pose proof (IH (after_fan_out svc k w)
                  (with_send_status (Some ""%string) c)
                  (fan_out_keeps_ids w Hu) Ha' Hc' Hfail) as Hn.
    cbn [with_send_status contact_id] in Hn. rewrite Hn, Hatt.
    rewrite length_app. cbn [length]. lia.
Qed.

End FanOutTick.

(** C3, as the code has it.  A pending aggregate is ['sent'] after a
    fan-out tick if and only if the tick selected at least one pending
    contact row for it and each of the selected rows reads ['sent']
    after the tick; rows that were not selected are not looked at, and
    nothing is read again.  Otherwise the aggregate keeps the pending
    status it had. *)
Theorem aggregate_sent_iff_selected_rows_sent (svc : services) (k : kind)
    (w : world) (a : aggregate) :
  fan_out_ids_unique k w ->
  In a (pending_aggregates k w) ->
  (aggregate_statuses k (agg_id a) (after_fan_out svc k w)
   = [Some "sent"%string]
   <-> pending_contacts k (agg_id a) w <> []
       /\ forall c, In c (pending_contacts k (agg_id a) w) ->
                    statuses k (contact_id c) (after_fan_out svc k w)
                    = [Some "sent"%string])
  /\ (aggregate_statuses k (agg_id a) (after_fan_out svc k w)
      = [Some "sent"%string]
      \/ aggregate_statuses k (agg_id a) (after_fan_out svc k w)
         = [agg_status a]).
Proof.
  intros Hu Ha. pose proof Ha as Ha0.
  apply in_pending_aggregates in Ha0. destruct Ha0 as [Hin Hp].
  unfold aggregate_statuses.
  destruct (fan_out_aggregate svc k w (agg_id a) Hu)
    as [[(_ & Hne & Hs) Hrows] | [Hno Hrows]];
    rewrite Hrows, (aggregate_row k w a Hu Hin); cbn [map].
  - split; [| left; reflexivity].
    split; [intros _; split; assumption | reflexivity].
  - split; [| right; reflexivity]. split.
    + intros E. injection E as E. rewrite E in Hp. discriminate.
    + intros [Hne Hs]. exfalso. apply Hno.
      split; [apply in_map, Ha |]. split; assumption.
Qed.

Lemma broadcasts_world_ids : fan_out_ids_unique Messages broadcasts_world.
Proof. split; cbn; repeat constructor; cbn; intuition lia. Qed.

Lemma aggregate_sent_iff_selected_rows_sent_witness :
  (aggregate_statuses Messages (agg_id hello)
     (after_fan_out accepting Messages broadcasts_world)
   = [Some "sent"%string]
   <-> pending_contacts Messages (agg_id hello) broadcasts_world <> []
       /\ forall c,
            In c (pending_contacts Messages (agg_id hello) broadcasts_world) ->
            statuses Messages (contact_id c)
              (after_fan_out accepting Messages broadcasts_world)
            = [Some "sent"%string])
  /\ (aggregate_statuses Messages (agg_id hello)
        (after_fan_out accepting Messages broadcasts_world)
      = [Some "sent"%string]
      \/ aggregate_statuses Messages (agg_id hello)
           (after_fan_out accepting Messages broadcasts_world)
         = [agg_status hello]).
Proof.
  apply (aggregate_sent_iff_selected_rows_sent accepting Messages
           broadcasts_world hello).
  - split; cbn; repeat constructor; cbn; intuition lia.
  - left. reflexivity.
Defined.

(** C3, as stated, fails in both directions.  After a tick on
    [broadcasts_world] the first broadcast is ['sent'] although one of
    its contact rows reads ['processing'], and the second stays pending
    although its only contact row reads ['sent']. *)
Lemma aggregate_status_ignores_unselected_rows :
  aggregate_statuses Messages 1
    (after_fan_out accepting Messages broadcasts_world)
  = [Some "sent"%string]
  /\ all_rows_sent Messages 1
       (after_fan_out accepting Messages broadcasts_world) = false
  /\ aggregate_statuses Messages 2
       (after_fan_out accepting Messages broadcasts_world) = [None]
  /\ all_rows_sent Messages 2
       (after_fan_out accepting Messages broadcasts_world) = true.
Proof. repeat split. Qed.

(** C6.  In a fan-out tick every pending contact of a pending aggregate
    is sent to exactly once, whatever happened to the contacts before
    it.  When the gateway raises, the contact row is left with the
    empty string, which reads as pending, the aggregate stays pending,
    and the next tick selects both again.  A contact the gateway always
    refuses is sent to once in each of any number of ticks. *)
Theorem failed_send_reverts_to_pending (svc : services) (k : kind)
    (w : world) (a : aggregate) (c : contact) :
  fan_out_ids_unique k w ->
  In a (pending_aggregates k w) ->
  In c (pending_contacts k (agg_id a) w) ->
  (exists d,
      attempt_of svc k (fanout_body k a) c d
      /\ attempts k (contact_id c) (after_fan_out svc k w)
         = attempts k (contact_id c) w ++ [d]
      /\ statuses k (contact_id c) (after_fan_out svc k w)
         = [Some (status_of_answer (answer d))]
      /\ (answer d = Raise ->
          statuses k (contact_id c) (after_fan_out svc k w)
          = [Some ""%string]
          /\ In (with_send_status (Some ""%string) c)
               (pending_contacts k (agg_id a) (after_fan_out svc k w))
          /\ In a (pending_aggregates k (after_fan_out svc k w))))
  /\ ((forall sent_before text,
          twilio svc sent_before (contact_address (contact_phone c)) text
          = Raise) ->
      forall n,
        length (attempts k (contact_id c) (after_fan_outs svc k n w))
        = (length (attempts k (contact_id c) w) + n)%nat).
Proof.
  intros Hu Ha Hc. split.
  - destruct (fan_out_attempt svc k w a c Hu Ha Hc) as (d & Hcd & Hatt & Hrow).
    exists d. split; [exact Hcd |]. split; [exact Hatt |].
    unfold statuses. rewrite Hrow. split; [reflexivity |].
    intros Hd. split; [rewrite Hd; reflexivity |].
    apply (fan_out_failed_step svc k w a c d Hu Ha Hc Hrow Hd).
  - intros Hfail n. apply (fan_out_retries svc k a n w c Hu Ha Hc Hfail).
Qed.

Lemma failed_send_reverts_to_pending_witness :
  (exists d,
      attempt_of flaky Messages (fanout_body Messages hello) refused d
      /\ attempts Messages (contact_id refused)
           (after_fan_out flaky Messages flaky_world)
         = attempts Messages (contact_id refused) flaky_world ++ [d]
      /\ statuses Messages (contact_id refused)
           (after_fan_out flaky Messages flaky_world)
         = [Some (status_of_answer (answer d))]
      /\ (answer d = Raise ->
          statuses Messages (contact_id refused)
            (after_fan_out flaky Messages flaky_world)
          = [Some ""%string]
          /\ In (with_send_status (Some ""%string) refused)
               (pending_contacts Messages (agg_id hello)
                  (after_fan_out flaky Messages flaky_world))
          /\ In hello
               (pending_aggregates Messages
                  (after_fan_out flaky Messages flaky_world))))
  /\ ((forall sent_before text,
          twilio flaky sent_before
            (contact_address (contact_phone refused)) text
          = Raise) ->
      forall n,
        length (attempts Messages (contact_id refused)
                  (after_fan_outs flaky Messages n flaky_world))
        = (length (attempts Messages (contact_id refused) flaky_world)
           + n)%nat).
Proof.
  apply (failed_send_reverts_to_pending flaky Messages flaky_world hello
           refused).
  - split; cbn; repeat constructor; cbn; intuition lia.
  - left. reflexivity.
  - left. reflexivity.
Defined.

(** On the sample store the refused contact is sent to in each of three
    ticks, and the other contact of the broadcast once. *)
Example three_ticks_three_attempts :
  map answer (attempts Messages 31 (after_fan_outs flaky Messages 3 flaky_world))
  = [Raise; Raise; Raise]
  /\ map answer
       (attempts Messages 32 (after_fan_outs flaky Messages 3 flaky_world))
     = [Ok "SM0001"%string]
  /\ statuses Messages 31 (after_fan_outs flaky Messages 3 flaky_world)
     = [Some ""%string].
Proof. repeat split. Qed.

(* ===================================================================== *)
(** * Two checks at once                                                  *)
(* ===================================================================== *)

Section ProtocolFacts.
Context {G : Type}.
Context (permit : G -> op -> Prop).
Context (rely : G -> forall o : op, resp o -> Prop).
Context (next : G -> forall o : op, resp o -> G).




Lemma follows_call (o : op) (g : G) (Q : resp o -> G -> Prop) :
  permit g o ->
  (forall r, rely g o r -> Q r (next g o r)) ->
  follows permit rely next (call o) g Q.
Proof. intros Hp Hr. cbn [call follows]. auto. Qed.

(** Two programs that follow the protocol, run on a store that fits
    their stages. *)
Section Interleaving.
Context {W : Type} (h : handler W) (inv : G -> G -> W -> Prop).
Hypothesis step_left :
  forall g1 g2 w o,
    inv g1 g2 w -> permit g1 o ->
    rely g1 o (fst (h o w))
    /\ inv (next g1 o (fst (h o w))) g2 (snd (h o w)).
Hypothesis step_right :
  forall g1 g2 w o,
    inv g1 g2 w -> permit g2 o ->
    rely g2 o (fst (h o w))
    /\ inv g1 (next g2 o (fst (h o w))) (snd (h o w)).




End Interleaving.
End ProtocolFacts.

(** ** The store under the operations of a check *)







Section CheckOnStore.
Context (svc : services) (e : event) (ids : list Z) (pr : result profile).
Context (n0 : nat).






End CheckOnStore.

(** ** The check follows the protocol *)



Section CheckFollows.
Context (today : date) (e : event) (ids : list Z) (pr : result profile).
Hypothesis e_due : due today e = true.






End CheckFollows.




(** On the sample store, the two checks interleaved one operation each. *)
Example alternating_checks_send_once :
  notified_of 1
    (after_checks accepting march_third
       [true; false; true; false; true; false; true; false; true; false]
       reminders_world)
  = [Some "Yes"%string]
  /\ length (records_for 1
               (after_checks accepting march_third
                  [true; false; true; false; true; false; true; false; true;
                   false]
                  reminders_world))
     = 1%nat.
Proof. split; reflexivity. Qed.

(* ===================================================================== *)
(** * The reminder scheduler: guards, counters, events not yet due        *)
(* ===================================================================== *)






Section GuardBalance.
Context {W : Type} (h : handler W).


End GuardBalance.


(** ** The two counters of the summary line *)

Section Counters.
Context {W : Type} (h : handler W).

Lemma notify_event_sends (e : event) (w : W) :
  length (List.filter accepted (trace h (notify_event e) w))
  = match fst (run h (notify_event e) w) with
    | Ok Sent => 1%nat
    | _ => 0%nat
    end
  /\ (length (List.filter refused_send (trace h (notify_event e) w))
      <= match fst (run h (notify_event e) w) with
         | Ok Failed => 1
         | _ => 0
         end)%nat.
Proof.
  unfold notify_event, send_whatsapp_notification, log_notification_to_db,
    bind, ret, raise, call.
  cbn [pbind trace run fst snd].
  next_op h. destruct x as [cur |]; [| cbn; split; lia].
  destruct (already_notified cur); [cbn; split; lia |].
  cbn [pbind trace run fst snd]. next_op h.
  destruct x as [[| r rows] |]; try (cbn; split; lia).
  cbn [pbind trace run fst snd]. next_op h.
  destruct x as [p |]; [| cbn; split; lia].
  destruct (phone_number p) as [phone |]; [| cbn; split; lia].
  destruct (truthy phone); [| cbn; split; lia].
  cbn [pbind trace run fst snd]. next_op h.
  destruct x as [sid |]; destruct (truthy (user_id e));
    cbn [pbind trace run fst snd List.filter accepted refused_send length];
    split; lia.
Qed.

Lemma filter_length_app {A : Type} (p : A -> bool) (l1 l2 : list A) :
  length (List.filter p (l1 ++ l2))
  = (length (List.filter p l1) + length (List.filter p l2))%nat.
Proof. rewrite List.filter_app. apply length_app. Qed.

Lemma dispatch_counts (cands : list event) :
  forall s f w s' f',
    fst (run h (dispatch cands s f) w) = Ok (s', f') ->
    s' = (s + length (List.filter accepted
                        (trace h (dispatch cands s f) w)))%nat
    /\ (f + length (List.filter refused_send
                      (trace h (dispatch cands s f) w)) <= f')%nat.
Proof.
  induction cands as [| e rest IH]; intros s f w s' f'.
  - cbn. intros [= <- <-]. split; lia.
  - cbn [dispatch]. unfold call at 1 3 5. cbn [pbind trace run].
    next_op h. cbn [List.filter accepted refused_send].
    destruct x; cbn [negb]; [| apply IH].
    rewrite run_bind, !trace_bind, !filter_length_app,
      run_try_finally, !trace_try_finally, !filter_length_app.
    cbn [call trace run fst snd List.filter accepted refused_send length].
    destruct (notify_event_sends e w0) as [Hacc Href].
    destruct (fst (run h (notify_event e) w0)) as [[| |] |];
      cbn [fst]; try discriminate;
      intros Hrun; apply IH in Hrun; lia.
Qed.

End Counters.

(** X2: when a check ends with its summary line, the number it reports
    as sent is the number of gateway sends that were accepted during
    the check, and every send the gateway refused is among those it
    reports as failed; this holds whatever the store and the gateway
    answer. *)
Theorem sent_counter_counts_accepted_sends {W : Type} (h : handler W)
    (today : date) (w : W) (s f : nat) :
  fst (run h (check_and_send_notifications today) w) = Completed s f ->
  s = length (List.filter accepted
                (trace h (check_and_send_notifications today) w))
  /\ (length (List.filter refused_send
                (trace h (check_and_send_notifications today) w)) <= f)%nat.
Proof.
  unfold check_and_send_notifications.
  rewrite run_pbind, trace_pbind, !filter_length_app.
  match goal with
  | |- context [trace h (match ?r with Ok _ => _ | Raise => _ end) ?w1] =>
      assert (trace h (match r with Ok t => Ret t | Raise => Ret CriticalError end) w1 = []) as ->;
        [destruct r; reflexivity |]
  end.
  cbn [List.filter length]. rewrite !Nat.add_0_r.
  rewrite run_bind, trace_bind, !filter_length_app.
  cbn [call trace run fst snd List.filter accepted refused_send length].
  next_op h. destruct x as [rows |]; [| discriminate].
  rewrite run_bind, trace_bind, !filter_length_app.
  assert (Hscan : forall p, (forall o, is_send o = false ->
                               forall r, p (mkio o r) = false) ->
                  List.filter p (trace h (scan today rows []) w0) = []).
  { intros p Hp.
    pose proof (only_ops_trace h (fun o => is_send o = false) _ w0
                  (scan_footprint today rows [])) as Hall.
    induction Hall as [| [o r] t Ho _ IHt]; [reflexivity |].
    cbn [List.filter]. rewrite (Hp o Ho r). exact IHt. }
  rewrite !Hscan
    by (intros o Ho r; destruct o; try reflexivity; discriminate).
  cbn [length]. rewrite !Nat.add_0_l.
  destruct (fst (run h (scan _ _ _) _)) as [[| c cands] |];
    try discriminate.
  rewrite run_bind, trace_bind, !filter_length_app.
  destruct (fst (run h (dispatch _ _ _) _)) as [[s' f'] |] eqn:Hrun;
    [| discriminate].
  cbn [run ret fst snd trace List.filter length]. intros [= <- <-].
  apply dispatch_counts in Hrun. lia.
Qed.

Lemma sent_counter_counts_accepted_sends_witness :
  1%nat = length (List.filter accepted
                    (trace (exec accepting)
                       (check_and_send_notifications march_third)
                       reminders_world))
  /\ (length (List.filter refused_send
                (trace (exec accepting)
                   (check_and_send_notifications march_third)
                   reminders_world)) <= 0)%nat.
Proof.
  apply (sent_counter_counts_accepted_sends (exec accepting) march_third
           reminders_world 1 0).
  vm_compute. reflexivity.
Defined.

(** X3: a check leaves alone every event whose notification date is
    still ahead: its row, its NotificationRecords and its guard are not
    touched and no reminder is sent for it, whether it is pending or
    not. *)
Theorem event_not_yet_due_is_left_alone (svc : services) (today : date)
    (w : world) (e : event) :
  event_ids_unique w ->
  In e (events w) ->
  (toordinal today < notification_date e)%Z ->
  In e (events (after_check svc today w))
  /\ notified_of (event_id e) (after_check svc today w) = [notified e]
  /\ records_for (event_id e) (after_check svc today w)
     = records_for (event_id e) w
  /\ Forall (fun ev => dispatches (event_id e) (io_op ev) = false)
       (trace (exec svc) (check_and_send_notifications today) w).
Proof.
  intros Hnd He Hahead. unfold after_check.
  destruct (tick_run svc today w Hnd)
    as (res & w' & Hrun & _ & Hev & _ & _ & ns & Hns & Hlen).
  rewrite Hrun. cbn [snd].
  assert (Hdue : due today e = false)
    by (unfold due; apply Z.eqb_neq; lia).
  assert (Hover : overdue today e = false)
    by (unfold overdue; apply Z.ltb_ge; lia).
  assert (Hnot : ~ In (event_id e) (map event_id (candidates today w))).
  { intros Hin. apply in_map_iff in Hin. destruct Hin as (c & Hid & Hc).
    unfold candidates, pending_rows in Hc.
    apply filter_In in Hc. destruct Hc as [Hc Hcdue].
    apply filter_In in Hc. destruct Hc as [Hc _].
    rewrite (key_inj event_id _ _ _ Hnd Hc He Hid) in Hcdue. congruence. }
  assert (Hrow : tick_row today (processing_events w) e = e).
  { unfold tick_row. rewrite Hover, Hdue.
    destruct (is_pending (notified e)); reflexivity. }
  repeat split.
  - rewrite Hev, <- Hrow at 1. apply in_map, He.
  - rewrite (notified_of_map _ w w' e Hnd He (tick_row_id today _) Hev), Hrow.
    reflexivity.
  - rewrite (records_for_app _ w w' ns Hns).
    specialize (Hlen (event_id e)). unfold logged, dispatched in Hlen.
    rewrite (existsb_fresh_id _ _ Hnot), andb_false_r in Hlen.
    apply length_zero_iff_nil in Hlen. rewrite Hlen. apply app_nil_r.
  - apply tick_leaves_alone, Hnot.
Qed.

Lemma event_not_yet_due_is_left_alone_witness :
  In picnic (events (after_check accepting march_third reminders_world))
  /\ notified_of (event_id picnic)
       (after_check accepting march_third reminders_world)
     = [notified picnic]
  /\ records_for (event_id picnic)
       (after_check accepting march_third reminders_world)
     = records_for (event_id picnic) reminders_world
  /\ Forall (fun ev => dispatches (event_id picnic) (io_op ev) = false)
       (trace (exec accepting) (check_and_send_notifications march_third)
          reminders_world).
Proof.
  apply (event_not_yet_due_is_left_alone accepting march_third
           reminders_world picnic).
  - unfold event_ids_unique. cbn. repeat constructor; cbn; intuition lia.
  - right. right. left. reflexivity.
  - vm_compute. reflexivity.
Defined.

(* ===================================================================== *)
(** * Sending and logging one WhatsApp message                            *)
(* ===================================================================== *)

(** X4: [send_whatsapp_notification] calls the gateway once, at an
    address that starts with [whatsapp:+], and answers whether the
    gateway accepted.  For a truthy [user_id] it logs one record, whose
    status is ['sent'] exactly when it answers [True] and ['failed']
    otherwise, with the message sid only in the first case; for a falsy
    [user_id] it logs nothing.  Events, profiles and guards are left
    as they are. *)
Theorem send_whatsapp_notification_logs_outcome (svc : services)
    (phone message user : string) (event_id : option Z) (ntype : string)
    (w : world) :
  exists d,
    outbox (snd (run (exec svc)
                   (send_whatsapp_notification phone message user event_id
                      ntype) w))
    = outbox w ++ [d]
    /\ startswith "whatsapp:+" (to_address d) = true
    /\ body d = Some message
    /\ fst (run (exec svc)
              (send_whatsapp_notification phone message user event_id ntype)
              w)
       = is_ok (answer d)
    /\ notifications_sent
         (snd (run (exec svc)
                 (send_whatsapp_notification phone message user event_id
                    ntype) w))
       = notifications_sent w
         ++ (if truthy user
             then [mknotification user event_id ntype message
                     (if startswith "+" phone then phone
                      else ("+" +:+ phone)%string)
                     (match answer d with
                      | Ok sid => Some sid
                      | Raise => None
                      end)
                     (if is_ok (answer d) then "sent" else "failed")]
             else [])
    /\ events (snd (run (exec svc)
                      (send_whatsapp_notification phone message user event_id
                         ntype) w))
       = events w
    /\ processing_events
         (snd (run (exec svc)
                 (send_whatsapp_notification phone message user event_id
                    ntype) w))
       = processing_events w.
Proof.
  unfold send_whatsapp_notification, log_notification_to_db, call.
  cbn [pbind run exec fst snd].
  assert (Haddr : startswith "whatsapp:+"
                    ("whatsapp:" +:+ (if startswith "+" phone then phone
                                      else "+" +:+ phone)) = true).
  { unfold startswith. destruct (String.prefix "+" phone) eqn:E;
      cbv [append]; cbn; [exact E | destruct phone; reflexivity]. }
  destruct (twilio svc (outbox w) _ (Some message)) as [sid |] eqn:Hans;
    destruct (truthy user);
    cbn [pbind run exec fst snd outbox notifications_sent events
           processing_events set_outbox set_notifications_sent];
    eexists (mkdelivery _ _ _ _);
    (split; [reflexivity |]);
    cbn [to_address body answer is_ok]; rewrite ?app_nil_r;
    repeat split; exact Haddr.
Qed.

(* ===================================================================== *)
(** * Fan-out: what a tick leaves alone                                   *)
(* ===================================================================== *)

(** A part of the store that no operation of a program writes is the
    same after the program ran. *)
Lemma run_preserves {B : Type} (proj : world -> B) (P : op -> Prop)
    (svc : services) :
  (forall o w, P o -> proj (snd (exec svc o w)) = proj w) ->
  forall {A : Type} (p : prog A) w,
    only_ops P p -> proj (snd (run (exec svc) p w)) = proj w.
Proof.
  intros Hexec A p. induction p as [a | o k IH]; intros w; [reflexivity |].
  intros [Ho Hk]. cbn [run]. rewrite IH by apply Hk. apply Hexec, Ho.
Qed.

Lemma send_to_contact_ops k text c :
  only_ops (fan_out_op k) (send_to_contact k text c).
Proof. unfold send_to_contact. footprint; reflexivity. Qed.

Lemma contact_loop_ops k text cs b :
  only_ops (fan_out_op k) (contact_loop k text cs b).
Proof.
  revert b. induction cs as [| c cs IH]; intros b; [exact I |].
  cbn [contact_loop]. apply only_ops_bind.
  - apply send_to_contact_ops.
  - intros ok. apply IH.
Qed.

Lemma aggregate_loop_ops k aggs :
  only_ops (fan_out_op k) (aggregate_loop k aggs).
Proof.
  induction aggs as [| a aggs IH]; [exact I |].
  cbn [aggregate_loop]. apply only_ops_bind; [footprint; reflexivity |].
  intros [| c cs]; [exact IH |].
  apply only_ops_bind; [apply contact_loop_ops |].
  intros [|]; [| exact IH].
  apply only_ops_bind; [footprint; reflexivity | intros _; exact IH].
Qed.

Lemma fan_out_ops k : only_ops (fan_out_op k) (fan_out k).
Proof.
  unfold fan_out. apply only_ops_pbind; [| intros; exact I].
  apply only_ops_bind; [footprint; reflexivity |].
  intros [| a aggs]; [exact I | apply aggregate_loop_ops].
Qed.

(** X5: a fan-out tick reads and writes only its own pair of tables and
    the gateway.  It leaves the events, the profiles, the guards and the
    conversations as they are, logs nothing in [notifications_sent], and
    does not touch the tables of the other poller. *)
Theorem fan_out_touches_only_its_tables (svc : services) (k : kind)
    (w : world) :
  events (after_fan_out svc k w) = events w
  /\ profiles (after_fan_out svc k w) = profiles w
  /\ notifications_sent (after_fan_out svc k w) = notifications_sent w
  /\ processing_events (after_fan_out svc k w) = processing_events w
  /\ conversations (after_fan_out svc k w) = conversations w
  /\ aggregates_of (other_kind k) (after_fan_out svc k w)
     = aggregates_of (other_kind k) w
  /\ contacts_of (other_kind k) (after_fan_out svc k w)
     = contacts_of (other_kind k) w.
Proof.
  pose proof (run_preserves
                (fun w => (events w, profiles w, notifications_sent w,
                           processing_events w, conversations w,
                           aggregates_of (other_kind k) w,
                           contacts_of (other_kind k) w))
                (fan_out_op k) svc) as Hrun.
  cbv beta in Hrun.
  assert (Hexec : forall o w0,
             fan_out_op k o ->
             (events (snd (exec svc o w0)), profiles (snd (exec svc o w0)),
              notifications_sent (snd (exec svc o w0)),
              processing_events (snd (exec svc o w0)),
              conversations (snd (exec svc o w0)),
              aggregates_of (other_kind k) (snd (exec svc o w0)),
              contacts_of (other_kind k) (snd (exec svc o w0)))
             = (events w0, profiles w0, notifications_sent w0,
                processing_events w0, conversations w0,
                aggregates_of (other_kind k) w0,
                contacts_of (other_kind k) w0)).
  { intros o w0 Ho. destruct o; cbn [fan_out_op] in Ho; try contradiction;
      subst; destruct k; reflexivity. }
  specialize (Hrun Hexec unit (fan_out k) w (fan_out_ops k)).
  fold (after_fan_out svc k w) in Hrun.
  injection Hrun as -> -> -> -> -> -> ->. repeat split.
Qed.

(** ** Contacts a tick does not select *)

(** An aggregate that is pending after a tick was pending before it. *)
Lemma pending_aggregate_was_pending (svc : services) (k : kind) (w : world)
    (q : Z) :
  fan_out_ids_unique k w ->
  existsb (fun a => (agg_id a =? q)%Z)
    (pending_aggregates k (after_fan_out svc k w)) = true ->
  existsb (fun a => (agg_id a =? q)%Z) (pending_aggregates k w) = true.
Proof.
  intros Hu Hex. apply existsb_exists in Hex. destruct Hex as (a' & Ha' & Hid).
  apply in_pending_aggregates in Ha'. destruct Ha' as [Ha' Hp].
  assert (Hin : In a' (List.filter (fun a => (agg_id a =? q)%Z)
                         (aggregates_of k (after_fan_out svc k w))))
    by (apply filter_In; auto).
  apply existsb_exists.
  destruct (fan_out_aggregate svc k w q Hu) as [[_ Hrows] | [_ Hrows]];
    rewrite Hrows in Hin.
  - apply in_map_iff in Hin. destruct Hin as (a & <- & _). discriminate.
  - exists a'. split; [| exact Hid].
    apply filter_In in Hin. apply in_pending_aggregates. split; [apply Hin |].
    exact Hp.
Qed.

Lemma unselected_stays_unselected (svc : services) (k : kind) (w : world)
    (c : contact) :
  fan_out_ids_unique k w ->
  is_pending (send_status c)
  && existsb (fun a => (agg_id a =? parent_id c)%Z) (pending_aggregates k w)
  = false ->
  is_pending (send_status c)
  && existsb (fun a => (agg_id a =? parent_id c)%Z)
       (pending_aggregates k (after_fan_out svc k w))
  = false.
Proof.
  intros Hu Hsel. destruct (is_pending (send_status c)); [| reflexivity].
  cbn [andb] in *.
  destruct (existsb _ (pending_aggregates k (after_fan_out svc k w))) eqn:E;
    [| reflexivity].
  rewrite (pending_aggregate_was_pending svc k w _ Hu E) in Hsel.
  discriminate.
Qed.

(** X6: a fan-out tick sends only to the pending contacts of pending
    aggregates.  Every other contact row (one already ['sent'], one
    left ['processing'], or a pending one whose aggregate is not
    pending) is neither sent to nor modified, in any number of ticks:
    a delivered message is not sent again, and a row stuck at
    ['processing'] is never retried. *)
Theorem unselected_contact_is_never_sent_to (svc : services) (k : kind)
    (w : world) (c : contact) :
  fan_out_ids_unique k w ->
  In c (contacts_of k w) ->
  is_pending (send_status c)
  && existsb (fun a => (agg_id a =? parent_id c)%Z) (pending_aggregates k w)
  = false ->
  forall n,
    attempts k (contact_id c) (after_fan_outs svc k n w)
    = attempts k (contact_id c) w
    /\ List.filter (fun r => (contact_id r =? contact_id c)%Z)
         (contacts_of k (after_fan_outs svc k n w))
       = [c].
Proof.
  intros Hu Hc Hsel n. revert w Hu Hc Hsel.
  induction n as [| n IH]; intros w Hu Hc Hsel.
  - cbn [after_fan_outs]. split; [reflexivity |].
    destruct Hu as [_ Hnd]. apply (filter_key_unique contact_id _ _ Hnd Hc).
  - cbn [after_fan_outs].
    pose proof (fan_out_contact svc k w c Hu Hc) as Hstep.
    rewrite Hsel in Hstep. destruct Hstep as [Hatt Hrow].
    assert (Hc' : In c (contacts_of k (after_fan_out svc k w))).
    { assert (Hin : In c (List.filter
                            (fun r => (contact_id r =? contact_id c)%Z)
                            (contacts_of k (after_fan_out svc k w))))
        by (rewrite Hrow; left; reflexivity).
      apply filter_In in Hin. apply Hin. }
    destruct (IH (after_fan_out svc k w) (fan_out_keeps_ids svc k w Hu) Hc'
                (unselected_stays_unselected svc k w c Hu Hsel))
      as [Hatt' Hrow'].
    split; [rewrite Hatt', Hatt; reflexivity | exact Hrow'].
Qed.

Lemma unselected_contact_is_never_sent_to_witness :
  attempts Messages 22 (after_fan_outs accepting Messages 3 broadcasts_world)
  = attempts Messages 22 broadcasts_world
  /\ List.filter (fun r => (contact_id r =? 22)%Z)
       (contacts_of Messages
          (after_fan_outs accepting Messages 3 broadcasts_world))
     = [mkcontact 22 1 "+15550003" (Some "processing"%string) None].
Proof.
  refine (unselected_contact_is_never_sent_to accepting Messages
            broadcasts_world
            (mkcontact 22 1 "+15550003" (Some "processing"%string) None)
            _ _ _ 3%nat).
  - split; cbn; repeat constructor; cbn; intuition lia.
  - right. left. reflexivity.
  - reflexivity.
Defined.

(** ** A tick after a tick in which every send was accepted *)

Lemma aggregate_loop_idle (svc : services) (k : kind)
    (aggs : list aggregate) (w : world) :
  (forall a, In a aggs -> pending_contacts k (agg_id a) w = []) ->
  run (exec svc) (aggregate_loop k aggs) w = (Ok tt, w).
Proof.
  induction aggs as [| a aggs IH]; intros Hidle; [reflexivity |].
  cbn [aggregate_loop]. rewrite run_bind. cbn [call run exec fst snd].
  rewrite (Hidle a (or_introl eq_refl)).
  apply IH. intros a' Ha'. apply Hidle. right. exact Ha'.
Qed.

Lemma nothing_pending_after_success (svc : services) (k : kind) (w : world)
    (a : aggregate) :
  fan_out_ids_unique k w ->
  (forall sent_before to text, is_ok (twilio svc sent_before to text) = true) ->
  In a (pending_aggregates k (after_fan_out svc k w)) ->
  pending_contacts k (agg_id a) (after_fan_out svc k w) = [].
Proof.
  intros Hu Hok Ha.
  destruct (pending_contacts k (agg_id a) (after_fan_out svc k w))
    as [| r rest] eqn:Hpc; [reflexivity |].
  exfalso.
  assert (Hr : In r (pending_contacts k (agg_id a) (after_fan_out svc k w)))
    by (rewrite Hpc; left; reflexivity).
  apply in_pending_contacts in Hr. destruct Hr as (Hr & Hpar & Hpend).
  destruct (aggregate_loop_ids svc k (pending_aggregates k w) w)
    as (w' & Hrun & Hids & _).
  assert (Hw' : after_fan_out svc k w = w')
    by (rewrite fan_out_run, Hrun; reflexivity).
  assert (Hid : In (contact_id r) (map contact_id (contacts_of k w))).
  { rewrite <- Hids, <- Hw'. apply in_map, Hr. }
  apply in_map_iff in Hid. destruct Hid as (c & Hid & Hc).
  pose proof (fan_out_contact svc k w c Hu Hc) as Hstep.
  assert (Hin : In r (List.filter (fun x => (contact_id x =? contact_id c)%Z)
                        (contacts_of k (after_fan_out svc k w))))
    by (apply filter_In; split; [exact Hr | apply Z.eqb_eq; auto]).
  destruct (is_pending (send_status c)
            && existsb (fun a0 => (agg_id a0 =? parent_id c)%Z)
                 (pending_aggregates k w)) eqn:Hsel.
  - destruct Hstep as (a0 & d & _ & _ & Hatt & _ & Hrow).
    rewrite Hrow in Hin. destruct Hin as [<- | []].
    destruct Hatt as (_ & _ & _ & pre & Hans).
    cbn [send_status with_send_status] in Hpend.
    specialize (Hok pre (to_address d) (fanout_body k a0)).
    rewrite <- Hans in Hok. destruct (answer d); discriminate.
  - destruct Hstep as [_ Hrow].
    rewrite Hrow in Hin. destruct Hin as [<- | []].
    rewrite Hpend in Hsel. cbn [andb] in Hsel.
    assert (Hex : existsb (fun a0 => (agg_id a0 =? parent_id c)%Z)
                    (pending_aggregates k (after_fan_out svc k w)) = true).
    { apply existsb_exists. exists a. split; [exact Ha |].
      apply Z.eqb_eq. symmetry. exact Hpar. }
    rewrite (pending_aggregate_was_pending svc k w _ Hu Hex) in Hsel.
    discriminate.
Qed.

(** X7: when the gateway accepts every send, a fan-out tick settles
    everything it can: a second tick right after it finds no contact to
    send to and leaves the store, the gateway's record included,
    exactly as the first tick left it. *)
Theorem second_tick_after_success_is_idle (svc : services) (k : kind)
    (w : world) :
  fan_out_ids_unique k w ->
  (forall sent_before to text, is_ok (twilio svc sent_before to text) = true) ->
  after_fan_out svc k (after_fan_out svc k w) = after_fan_out svc k w.
Proof.
  intros Hu Hok. rewrite (fan_out_run svc k (after_fan_out svc k w)).
  rewrite aggregate_loop_idle; [reflexivity |].
  intros a Ha. apply nothing_pending_after_success; assumption.
Qed.

Lemma second_tick_after_success_is_idle_witness :
  after_fan_out accepting Messages
    (after_fan_out accepting Messages broadcasts_world)
  = after_fan_out accepting Messages broadcasts_world.
Proof.
  apply (second_tick_after_success_is_idle accepting Messages
           broadcasts_world).
  - split; cbn; repeat constructor; cbn; intuition lia.
  - reflexivity.
Defined.

(* ===================================================================== *)
(** * The reply handler: what it accepts and what it leaves alone         *)
(* ===================================================================== *)

Lemma skip_spaces_app (ws s : string) :
  all_space ws = true -> skip_spaces (ws +:+ s) = skip_spaces s.
Proof.
  induction ws as [| c ws IH]; [reflexivity |].
  cbn [all_space]. intros H. apply andb_true_iff in H. destruct H as [Hc Hws].
  cbv [append]. fold append. cbn [skip_spaces]. rewrite Hc. apply IH, Hws.
Qed.

Lemma skip_spaces_word (c : ascii) (s : string) :
  re_space c = false -> skip_spaces (String c s) = String c s.
Proof. intros H. cbn [skip_spaces]. rewrite H. reflexivity. Qed.

(** X8: the answer is matched as a prefix, and nothing anchors its
    end: a body that reads, in lower case, [rsvp:], any white space,
    then [yes] or [no], is understood as that answer whatever follows
    it ("rsvp: nope" is a no, "rsvp:yesterday" a yes). *)
Theorem rsvp_answer_is_a_prefix_match (text ws rest g : string) :
  all_space ws = true ->
  g = "yes"%string \/ g = "no"%string ->
  lower text = ("rsvp:" +:+ ws +:+ g +:+ rest)%string ->
  rsvp_search (lower text) = Some g.
Proof.
  intros Hws Hg ->.
  assert (Hhere : rsvp_match_here ("rsvp:" +:+ ws +:+ g +:+ rest) = Some g).
  { unfold rsvp_match_here.
    change (startswith "rsvp:" ("rsvp:" +:+ ws +:+ g +:+ rest))
      with (startswith "" (ws +:+ g +:+ rest)).
    replace (startswith "" (ws +:+ g +:+ rest)) with true
      by (destruct (ws +:+ g +:+ rest); reflexivity).
    change (drop_chars 5 ("rsvp:" +:+ ws +:+ g +:+ rest))
      with (ws +:+ g +:+ rest)%string.
    rewrite (skip_spaces_app ws _ Hws).
    destruct Hg as [-> | ->].
    - change ("yes" +:+ rest)%string
        with (String "y" (String "e" (String "s" rest))).
      rewrite skip_spaces_word by reflexivity.
      cbn. destruct rest; reflexivity.
    - change ("no" +:+ rest)%string with (String "n" (String "o" rest)).
      rewrite skip_spaces_word by reflexivity.
      cbn. destruct rest; reflexivity. }
  change ("rsvp:" +:+ ws +:+ g +:+ rest)%string
    with (String "r" ("svp:" +:+ ws +:+ g +:+ rest)) in *.
  cbn [rsvp_search]. rewrite Hhere. reflexivity.
Qed.

Lemma rsvp_answer_is_a_prefix_match_witness :
  rsvp_search (lower "RSVP:  Nope, sorry") = Some "no"%string.
Proof.
  apply (rsvp_answer_is_a_prefix_match "RSVP:  Nope, sorry" "  "
           "pe, sorry" "no").
  - reflexivity.
  - right. reflexivity.
  - reflexivity.
Defined.

Lemma rsvp_match_here_prefix (s g : string) :
  rsvp_match_here s = Some g -> startswith "rsvp:" s = true.
Proof.
  unfold rsvp_match_here. destruct (startswith "rsvp:" s); [reflexivity |].
  discriminate.
Qed.

Lemma rsvp_search_contains (s g : string) :
  rsvp_search s = Some g -> contains "rsvp:" s = true.
Proof.
  induction s as [| c s IH]; cbn [rsvp_search]; rewrite contains_unfold.
  - destruct (rsvp_match_here "") eqn:E; [| discriminate].
    intros _. rewrite (rsvp_match_here_prefix _ _ E). reflexivity.
  - destruct (rsvp_match_here (String c s)) eqn:E.
    + intros _. rewrite (rsvp_match_here_prefix _ _ E). reflexivity.
    + intros H. rewrite (IH H). apply orb_true_r.
Qed.

(** X9: a body that does not hold [rsvp:] (in any case) is answered
    with the "didn't understand" text and nothing else happens: the
    handler issues no operation at all, whatever the store and the
    gateway would answer. *)
Theorem reply_without_rsvp_is_not_understood {W : Type} (h : handler W)
    (from_number text : string) (w : W) :
  contains "rsvp:" (lower text) = false ->
  run h (handle_rsvp_reply from_number text) w = (not_understood_reply, w)
  /\ trace h (handle_rsvp_reply from_number text) w = [].
Proof.
  intros Hno. unfold handle_rsvp_reply. cbv zeta.
  destruct (rsvp_search (lower text)) as [g |] eqn:E.
  - rewrite (rsvp_search_contains _ _ E) in Hno. discriminate.
  - split; reflexivity.
Qed.

Lemma reply_without_rsvp_is_not_understood_witness :
  run (exec accepting) (handle_rsvp_reply "whatsapp:+15550001" "Yes please")
    invitations_world
  = (not_understood_reply, invitations_world)
  /\ trace (exec accepting)
       (handle_rsvp_reply "whatsapp:+15550001" "Yes please")
       invitations_world
     = [].
Proof.
  apply (reply_without_rsvp_is_not_understood (exec accepting)
           "whatsapp:+15550001" "Yes please" invitations_world).
  reflexivity.
Defined.

(** X10: a reply that is understood, from a number that has no
    invitation in state ['sent'], is answered with the "could not find"
    text; no row is written and no confirmation is sent. *)
Theorem reply_without_invitation_changes_nothing (svc : services)
    (from_number text g : string) (w : world) :
  rsvp_search (lower text) = Some g ->
  sent_invitations (normalize_number from_number) w = [] ->
  run (exec svc) (handle_rsvp_reply from_number text) w
  = (no_invitation_reply, w).
Proof.
  intros Hmatch Hnone. unfold handle_rsvp_reply. cbv zeta. rewrite Hmatch.
  rewrite run_pbind, run_bind. cbn [call run exec fst snd].
  rewrite Hnone. reflexivity.
Qed.

Lemma reply_without_invitation_changes_nothing_witness :
  run (exec accepting) (handle_rsvp_reply "whatsapp:+15550009" "rsvp: yes")
    invitations_world
  = (no_invitation_reply, invitations_world).
Proof.
  apply (reply_without_invitation_changes_nothing accepting
           "whatsapp:+15550009" "rsvp: yes" "yes" invitations_world);
    reflexivity.
Defined.

(** ** One reply after another *)

Lemma latest_map (f : contact -> contact) (rows : list contact) :
  (forall r, contact_id (f r) = contact_id r) ->
  latest (map f rows) = map f (latest rows).
Proof.
  intros Hf. destruct rows as [| c rest]; [reflexivity |].
  cbn [map latest]. f_equal. revert c.
  induction rest as [| r rest IH]; intros c; [reflexivity |].
  cbn [map fold_left]. rewrite !Hf.
  destruct (contact_id c <? contact_id r)%Z; apply IH.
Qed.

Lemma filter_map_same {A : Type} (p : A -> bool) (f : A -> A) (l : list A) :
  (forall r, p (f r) = p r) ->
  List.filter p (map f l) = map f (List.filter p l).
Proof.
  intros Hp. induction l as [| r l IH]; [reflexivity |].
  cbn [map List.filter]. rewrite Hp, IH. destruct (p r); reflexivity.
Qed.

(** What an understood reply from a number with a sent invitation does
    to the store. *)
Lemma handle_rsvp_reply_run (svc : services) (w : world)
    (from_number text g : string) :
  rsvp_search (lower text) = Some g ->
  sent_invitations (normalize_number from_number) w <> [] ->
  exists c,
    latest (sent_invitations (normalize_number from_number) w) = [c]
    /\ fst (run (exec svc) (handle_rsvp_reply from_number text) w)
       = confirmation_msg
    /\ rsvp_contact_status (after_reply svc from_number text w)
       = update_where contact_id (contact_id c) (with_reply (Some g))
           (rsvp_contact_status w).
Proof.
  intros Hmatch Hsent.
  destruct (latest_spec _ Hsent) as (c & Hlatest & _ & _).
  pose proof (rsvp_search_group _ _ Hmatch) as Hg.
  assert (Hstatus : (if String.eqb g "yes" then "yes"%string else "no"%string)
                    = g)
    by (destruct Hg as [-> | ->]; reflexivity).
  exists c. split; [exact Hlatest |].
  unfold after_reply, handle_rsvp_reply. cbv zeta. rewrite Hmatch, Hstatus.
  rewrite run_pbind, run_bind. cbn [call run exec fst snd]. rewrite Hlatest.
  rewrite run_bind. cbn [call run exec fst snd]. rewrite run_pbind.
  destruct (truthy from_number); cbn [pbind call run exec fst snd ret];
    split; reflexivity.
Qed.

(** X11: answering does not close an invitation.  When two understood
    replies arrive one after the other from a number with a sent
    invitation, both are confirmed, both go to the same invitation (the
    one with the greatest id), and the second answer replaces the
    first; every other row is as before. *)
Theorem last_reply_wins (svc : services) (w : world)
    (from_number text1 text2 g1 g2 : string) :
  rsvp_search (lower text1) = Some g1 ->
  rsvp_search (lower text2) = Some g2 ->
  sent_invitations (normalize_number from_number) w <> [] ->
  exists c,
    latest (sent_invitations (normalize_number from_number) w) = [c]
    /\ fst (run (exec svc) (handle_rsvp_reply from_number text2)
              (after_reply svc from_number text1 w))
       = confirmation_msg
    /\ rsvp_contact_status
         (after_reply svc from_number text2
            (after_reply svc from_number text1 w))
       = update_where contact_id (contact_id c) (with_reply (Some g2))
           (rsvp_contact_status w).
Proof.
  intros H1 H2 Hsent.
  destruct (handle_rsvp_reply_run svc w from_number text1 g1 H1 Hsent)
    as (c & Hlatest & _ & Htable1).
  set (w1 := after_reply svc from_number text1 w) in *.
  assert (Hsent1 : sent_invitations (normalize_number from_number) w1
                   = map (fun r => if (contact_id r =? contact_id c)%Z
                                   then with_reply (Some g1) r else r)
                       (sent_invitations (normalize_number from_number) w)).
  { unfold sent_invitations. rewrite Htable1. unfold update_where.
    apply filter_map_same. intros r.
    destruct (contact_id r =? contact_id c)%Z; reflexivity. }
  assert (Hlatest1 : latest (sent_invitations (normalize_number from_number)
                               w1)
                     = [with_reply (Some g1) c]).
  { rewrite Hsent1, latest_map, Hlatest.
    - cbn [map]. rewrite Z.eqb_refl. reflexivity.
    - intros r. destruct (contact_id r =? contact_id c)%Z; reflexivity. }
  destruct (handle_rsvp_reply_run svc w1 from_number text2 g2 H2)
    as (c1 & Hl1 & Hreply & Htable2).
  { rewrite Hsent1. destruct (sent_invitations _ w); [contradiction |].
    discriminate. }
  rewrite Hlatest1 in Hl1. injection Hl1 as <-.
  exists c. split; [exact Hlatest |]. split; [exact Hreply |].
  rewrite Htable2, Htable1. unfold update_where. rewrite map_map.
  apply map_ext. intros r. cbn [contact_id with_reply].
  destruct (contact_id r =? contact_id c)%Z eqn:E; cbn [contact_id with_reply].
  - rewrite E. reflexivity.
  - rewrite E. reflexivity.
Qed.

Lemma last_reply_wins_witness :
  exists c,
    latest (sent_invitations (normalize_number "whatsapp:+15550001")
              invitations_world) = [c]
    /\ fst (run (exec accepting)
              (handle_rsvp_reply "whatsapp:+15550001" "rsvp: no")
              (after_reply accepting "whatsapp:+15550001" "rsvp: yes"
                 invitations_world))
       = confirmation_msg
    /\ rsvp_contact_status
         (after_reply accepting "whatsapp:+15550001" "rsvp: no"
            (after_reply accepting "whatsapp:+15550001" "rsvp: yes"
               invitations_world))
       = update_where contact_id (contact_id c)
           (with_reply (Some "no"%string))
           (rsvp_contact_status invitations_world).
Proof.
  apply (last_reply_wins accepting invitations_world "whatsapp:+15550001"
           "rsvp: yes" "rsvp: no" "yes" "no").
  - reflexivity.
  - reflexivity.
  - vm_compute. discriminate.
Defined.

(* ===================================================================== *)
(** * The webhook and the conversation handler                            *)
(* ===================================================================== *)

(** A part of the store that the operations in [P] do not write is
    left as it is by a program that issues only such operations. *)
Ltac untouched P Hops :=
  match goal with
  | |- ?proj (snd (run (exec ?svc) ?p ?w)) = ?proj ?w =>
      apply (run_preserves proj P svc);
      [ let o := fresh "o" in
        let Ho := fresh "Ho" in
        intros o ? Ho; destruct o; cbn in Ho; try contradiction; reflexivity
      | exact Hops ]
  end.

Lemma handle_rsvp_reply_ops from text :
  only_ops rsvp_reply_op (handle_rsvp_reply from text).
Proof.
  unfold handle_rsvp_reply. cbv zeta.
  destruct (rsvp_search (lower text)); footprint.
Qed.

Lemma get_user_events_engine_ops user m y up today :
  only_ops engine_op (get_user_events user m y up today).
Proof. unfold get_user_events. footprint. Qed.

Lemma get_gemini_response_ops g now user text :
  only_ops engine_op (get_gemini_response g now user text).
Proof.
  unfold get_gemini_response. destruct g; cbn [negb]; [| exact I].
  apply only_ops_pbind; [footprint |]. intros _.
  apply only_ops_pbind; [| intros [t |]; exact I].
  unfold gemini_try.
  apply only_ops_pbind; [apply get_user_events_engine_ops |]. intros evs.
  apply only_ops_pbind.
  - unfold filtered_context. cbv zeta.
    destruct (any_in schedule_keywords (lower text)); [| exact I].
    apply only_ops_pbind.
    + unfold filter_events.
      destruct (analyze_event_query text); cbv zeta;
        try (apply only_ops_pbind;
             [apply get_user_events_engine_ops | intros; exact I]).
      exact I.
    + intros [[| x l] period]; exact I.
  - intros ctx. unfold chat_turn. footprint.
Qed.





(** X13: a request whose body starts with [rsvp:] goes to the reply
    handler and nowhere else: whatever the store and the gateway
    answer, the only operations are the query for the sent invitations,
    the write of the answer and the confirmation send; on the store,
    nothing is logged in [notifications_sent], no conversation is
    opened or extended, and the events, the profiles and the two
    broadcast tables are as before. *)
Theorem webhook_with_rsvp_prefix_only_answers_invitation (svc : services)
    (gemini_model : bool) (now : datetime) (Body From : option string)
    (w : world) :
  startswith "rsvp:" (lower (form_value Body)) = true ->
  Forall (fun ev => rsvp_reply_op (io_op ev))
    (trace (exec svc) (twilio_webhook gemini_model now Body From) w)
  /\ notifications_sent (after_webhook svc gemini_model now Body From w)
     = notifications_sent w
  /\ conversations (after_webhook svc gemini_model now Body From w)
     = conversations w
  /\ events (after_webhook svc gemini_model now Body From w) = events w
  /\ profiles (after_webhook svc gemini_model now Body From w) = profiles w
  /\ messages (after_webhook svc gemini_model now Body From w) = messages w
  /\ message_contact (after_webhook svc gemini_model now Body From w)
     = message_contact w
  /\ rsvp (after_webhook svc gemini_model now Body From w) = rsvp w.
Proof.
  intros Hroute. unfold after_webhook, twilio_webhook. cbv zeta.
  rewrite Hroute. split.
  { apply (only_ops_trace (exec svc) rsvp_reply_op),
      handle_rsvp_reply_ops. }
  repeat split; untouched rsvp_reply_op (handle_rsvp_reply_ops
                                           (form_value From)
                                           (form_value Body)).
Qed.

Lemma webhook_with_rsvp_prefix_only_answers_invitation_witness :
  Forall (fun ev => rsvp_reply_op (io_op ev))
    (trace (exec accepting)
       (twilio_webhook true march_first (Some "  RSVP: Yes  "%string)
          (Some "whatsapp:+15550001"%string))
       invitations_world)
  /\ notifications_sent
       (after_webhook accepting true march_first
          (Some "  RSVP: Yes  "%string) (Some "whatsapp:+15550001"%string)
          invitations_world)
     = notifications_sent invitations_world
  /\ conversations
       (after_webhook accepting true march_first
          (Some "  RSVP: Yes  "%string) (Some "whatsapp:+15550001"%string)
          invitations_world)
     = conversations invitations_world
  /\ events
       (after_webhook accepting true march_first
          (Some "  RSVP: Yes  "%string) (Some "whatsapp:+15550001"%string)
          invitations_world)
     = events invitations_world
  /\ profiles
       (after_webhook accepting true march_first
          (Some "  RSVP: Yes  "%string) (Some "whatsapp:+15550001"%string)
          invitations_world)
     = profiles invitations_world
  /\ messages
       (after_webhook accepting true march_first
          (Some "  RSVP: Yes  "%string) (Some "whatsapp:+15550001"%string)
          invitations_world)
     = messages invitations_world
  /\ message_contact
       (after_webhook accepting true march_first
          (Some "  RSVP: Yes  "%string) (Some "whatsapp:+15550001"%string)
          invitations_world)
     = message_contact invitations_world
  /\ rsvp
       (after_webhook accepting true march_first
          (Some "  RSVP: Yes  "%string) (Some "whatsapp:+15550001"%string)
          invitations_world)
     = rsvp invitations_world.
Proof.
  apply (webhook_with_rsvp_prefix_only_answers_invitation accepting true
           march_first (Some "  RSVP: Yes  "%string)
           (Some "whatsapp:+15550001"%string) invitations_world).
  reflexivity.
Defined.

(** The webhook strips the body before it looks at it. *)
Example webhook_strips_body :
  rsvp_contact_status
    (after_webhook accepting true march_first (Some "  RSVP: Yes  "%string)
       (Some " whatsapp:+15550001 "%string) invitations_world)
  = [mkcontact 10 1 "+15550001" (Some "sent"%string) None;
     mkcontact 12 1 "+15550002" (Some "sent"%string) None;
     mkcontact 14 2 "+15550001" (Some "sent"%string) (Some "yes"%string)].
Proof. vm_compute. reflexivity. Qed.

(** ** Who is writing *)

(** X14: the conversation handler resolves the sender by the phone
    number left when every [whatsapp:] is removed from the address.
    When no profile has that number, or more than one has it, it
    answers that it cannot identify the account and does nothing more:
    no chat, no log, the store as before. *)
Theorem unresolved_sender_gets_no_conversation (svc : services)
    (gemini_model : bool) (now : datetime) (from_number msg : string)
    (w : world) :
  single (List.filter
            (fun p => match phone_number p with
                      | Some n =>
                          String.eqb n (replace "whatsapp:" "" from_number)
                      | None => false
                      end)
            (profiles w)) = Raise ->
  run (exec svc) (handle_ai_conversation gemini_model now from_number msg) w
  = (unidentified_reply, w).
Proof.
  intros Hnone. unfold handle_ai_conversation,
    get_user_id_from_whatsapp_number.
  cbv zeta. rewrite !run_pbind. cbn [call run exec fst snd].
  rewrite Hnone. reflexivity.
Qed.

Lemma unresolved_sender_gets_no_conversation_witness :
  run (exec accepting)
    (handle_ai_conversation true march_first "whatsapp:+15550001"
       "What is due this week?")
    shared_phone_world
  = (unidentified_reply, shared_phone_world).
Proof.
  apply (unresolved_sender_gets_no_conversation accepting true march_first
           "whatsapp:+15550001" "What is due this week?" shared_phone_world).
  reflexivity.
Defined.

(** X15: for a sender it resolves to a profile with a truthy id, the
    conversation handler logs exactly one record of type
    ['ai_response'], for no event, holding the text it answers and
    marked ['sent'], whatever that text is (a chat answer or one of
    the two fallback texts); it sends nothing through the gateway and
    leaves events, profiles and guards as they are. *)
Theorem resolved_sender_gets_one_logged_answer (svc : services)
    (gemini_model : bool) (now : datetime) (from_number msg : string)
    (w : world) (p : profile) :
  single (List.filter
            (fun p => match phone_number p with
                      | Some n =>
                          String.eqb n (replace "whatsapp:" "" from_number)
                      | None => false
                      end)
            (profiles w)) = Ok p ->
  truthy (profile_id p) = true ->
  notifications_sent
    (snd (run (exec svc)
            (handle_ai_conversation gemini_model now from_number msg) w))
  = notifications_sent w
    ++ [mknotification (profile_id p) None "ai_response"
          (fst (run (exec svc)
                  (handle_ai_conversation gemini_model now from_number msg)
                  w))
          (replace "whatsapp:" "" from_number) None "sent"]
  /\ outbox
       (snd (run (exec svc)
               (handle_ai_conversation gemini_model now from_number msg) w))
     = outbox w
  /\ events
       (snd (run (exec svc)
               (handle_ai_conversation gemini_model now from_number msg) w))
     = events w
  /\ profiles
       (snd (run (exec svc)
               (handle_ai_conversation gemini_model now from_number msg) w))
     = profiles w
  /\ processing_events
       (snd (run (exec svc)
               (handle_ai_conversation gemini_model now from_number msg) w))
     = processing_events w.
Proof.
  intros Hone Hid.
  assert (Hkeep : forall o w0,
             engine_op o ->
             (notifications_sent (snd (exec svc o w0)),
              outbox (snd (exec svc o w0)), events (snd (exec svc o w0)),
              profiles (snd (exec svc o w0)),
              processing_events (snd (exec svc o w0)))
             = (notifications_sent w0, outbox w0, events w0, profiles w0,
                processing_events w0)).
  { intros o w0 Ho. destruct o; cbn [engine_op] in Ho; try contradiction;
      reflexivity. }
  pose proof (run_preserves
                (fun w => (notifications_sent w, outbox w, events w,
                           profiles w, processing_events w))
                engine_op svc Hkeep
                (get_gemini_response gemini_model now (profile_id p) msg) w
                (get_gemini_response_ops _ _ _ _)) as Hengine.
  cbv beta in Hengine.
  unfold handle_ai_conversation, get_user_id_from_whatsapp_number.
  cbv zeta. rewrite !run_pbind. cbn [call run exec fst snd].
  rewrite Hone. cbn [run fst snd]. rewrite Hid.
  rewrite !run_pbind. unfold log_notification_to_db, call.
  cbn [pbind run exec fst snd notifications_sent outbox events profiles
         processing_events set_notifications_sent].
  set (r := run (exec svc)
              (get_gemini_response gemini_model now (profile_id p) msg) w)
    in *.
  injection Hengine as -> -> -> -> ->. repeat split.
Qed.

Lemma resolved_sender_gets_one_logged_answer_witness :
  notifications_sent
    (snd (run (exec failing)
            (handle_ai_conversation true march_first "whatsapp:15550001"
               "What is due this week?")
            reminders_world))
  = notifications_sent reminders_world
    ++ [mknotification "u1" None "ai_response"
          (fst (run (exec failing)
                  (handle_ai_conversation true march_first
                     "whatsapp:15550001" "What is due this week?")
                  reminders_world))
          (replace "whatsapp:" "" "whatsapp:15550001") None "sent"]
  /\ outbox
       (snd (run (exec failing)
               (handle_ai_conversation true march_first "whatsapp:15550001"
                  "What is due this week?")
               reminders_world))
     = outbox reminders_world
  /\ events
       (snd (run (exec failing)
               (handle_ai_conversation true march_first "whatsapp:15550001"
                  "What is due this week?")
               reminders_world))
     = events reminders_world
  /\ profiles
       (snd (run (exec failing)
               (handle_ai_conversation true march_first "whatsapp:15550001"
                  "What is due this week?")
               reminders_world))
     = profiles reminders_world
  /\ processing_events
       (snd (run (exec failing)
               (handle_ai_conversation true march_first "whatsapp:15550001"
                  "What is due this week?")
               reminders_world))
     = processing_events reminders_world.
Proof.
  apply (resolved_sender_gets_one_logged_answer failing true march_first
           "whatsapp:15550001" "What is due this week?" reminders_world
           (mkprofile "u1" (Some "Ann"%string) (Some "15550001"%string)));
    reflexivity.
Defined.

(** With a chat that fails, the record holds the apology and is marked
    ['sent'] all the same. *)
Example failed_chat_is_logged_as_sent :
  notifications_sent
    (snd (run (exec failing)
            (handle_ai_conversation true march_first "whatsapp:15550001"
               "What is due this week?")
            reminders_world))
  = [mknotification "u1" None "ai_response" apology_reply "15550001" None
       "sent"].
Proof. vm_compute. reflexivity. Qed.

(* ===================================================================== *)
(** * The two maintenance routes                                          *)
(* ===================================================================== *)

(** X16: the test route answers 500 when the profile query raises,
    which is what [.single()] does for a user id with no profile (or
    with several): the 404 "User not found or no phone number" is only
    reached for a profile that exists and has no phone number.  For a
    profile with a phone number the route sends one message, answers
    200 when the gateway accepted it and 500 when it did not, and the
    attempt is logged as a ['test_notification'] for no event. *)
Theorem test_notification_outcomes (svc : services) (user : string)
    (w : world) :
  (single (List.filter (fun p => String.eqb (profile_id p) user)
             (profiles w)) = Raise ->
   run (exec svc) (test_notification user) w = (mkreply 500 "error" None, w))
  /\ (forall p,
        single (List.filter (fun p => String.eqb (profile_id p) user)
                  (profiles w)) = Ok p ->
        truthy_opt (phone_number p) = false ->
        run (exec svc) (test_notification user) w
        = (mkreply 404 "error"
             (Some "User not found or no phone number"%string), w))
  /\ (forall p phone,
        single (List.filter (fun p => String.eqb (profile_id p) user)
                  (profiles w)) = Ok p ->
        phone_number p = Some phone ->
        truthy phone = true ->
        exists d,
          outbox (snd (run (exec svc) (test_notification user) w))
          = outbox w ++ [d]
          /\ why d = Reminder None
          /\ body d = Some (test_message p)
          /\ reply_code (fst (run (exec svc) (test_notification user) w))
             = (if is_ok (answer d) then 200 else 500)%Z
          /\ notifications_sent
               (snd (run (exec svc) (test_notification user) w))
             = notifications_sent w
               ++ (if truthy user
                   then [mknotification user None "test_notification"
                           (test_message p)
                           (if startswith "+" phone then phone
                            else ("+" +:+ phone)%string)
                           (match answer d with
                            | Ok sid => Some sid
                            | Raise => None
                            end)
                           (if is_ok (answer d) then "sent" else "failed")]
                   else [])).
Proof.
  unfold test_notification. split; [| split].
  - intros Hnone. rewrite run_pbind. cbn [call run exec fst snd].
    rewrite Hnone. reflexivity.
  - intros p Hone Hphone. rewrite run_pbind. cbn [call run exec fst snd].
    rewrite Hone. cbn [run].
    destruct (phone_number p) as [phone |]; [| reflexivity].
    cbn [truthy_opt] in Hphone. rewrite Hphone. reflexivity.
  - intros p phone Hone Hphone Htruthy.
    rewrite run_pbind. cbn [call run exec fst snd].
    rewrite Hone. cbn [run]. rewrite Hphone, Htruthy.
    rewrite run_pbind.
    unfold send_whatsapp_notification, log_notification_to_db, call.
    cbn [pbind run exec fst snd].
    destruct (twilio svc (outbox w) _ (Some (test_message p))) as [sid |];
      destruct (truthy user);
      cbn [pbind run exec fst snd outbox notifications_sent set_outbox
             set_notifications_sent reply_code];
      eexists (mkdelivery _ _ _ _);
      (split; [reflexivity |]);
      cbn [why body answer is_ok]; rewrite ?app_nil_r; repeat split.
Qed.

(** A user id with no profile is answered 500, not 404. *)
Example test_notification_unknown_user :
  run (exec accepting) (test_notification "nobody") reminders_world
  = (mkreply 500 "error" None, reminders_world).
Proof. reflexivity. Qed.

(** X17: when the query for the pending events raises, the check stops
    there with its critical-error line, having asked the store nothing
    else; the manual route, which runs the check, answers 200
    ['success'] all the same. *)
Theorem manual_check_reports_success_on_critical_error {W : Type}
    (h : handler W) (today : date) (w : W) :
  fst (h SelectPendingEvents w) = Raise ->
  fst (run h (check_and_send_notifications today) w) = CriticalError
  /\ map io_op (trace h (check_and_send_notifications today) w)
     = [SelectPendingEvents]
  /\ fst (run h (manual_check_notifications today) w)
     = mkreply 200 "success"
         (Some "Manual notification check completed. Check server logs for details."%string).
Proof.
  intros Hdown. unfold manual_check_notifications.
  rewrite run_pbind. cbn [run fst].
  split; [| split; [| reflexivity]].
  - unfold check_and_send_notifications. rewrite run_pbind, run_bind.
    cbn [call run fst snd]. rewrite Hdown. reflexivity.
  - unfold check_and_send_notifications. rewrite trace_pbind, trace_bind.
    rewrite run_bind.
    cbn [call run trace fst snd map io_op app]. rewrite Hdown.
    reflexivity.
Qed.

Lemma manual_check_reports_success_on_critical_error_witness :
  fst (run (exec_down accepting) (check_and_send_notifications march_third)
         reminders_world)
  = CriticalError
  /\ map io_op (trace (exec_down accepting)
                  (check_and_send_notifications march_third) reminders_world)
     = [SelectPendingEvents]
  /\ fst (run (exec_down accepting) (manual_check_notifications march_third)
            reminders_world)
     = mkreply 200 "success"
         (Some "Manual notification check completed. Check server logs for details."%string).
Proof.
  apply (manual_check_reports_success_on_critical_error (exec_down accepting)
           march_third reminders_world).
  reflexivity.
Defined.

(* ===================================================================== *)
(** * The conversation engine on the store                                *)
(* ===================================================================== *)

Lemma get_user_events_run svc user m y up today w :
  run (exec svc) (get_user_events user m y up today) w
  = (List.filter
       (fun e => String.eqb (user_id e) user
                 && in_range (fst (events_range m y up today))
                      (snd (events_range m y up today)) (event_date e))
       (events w), w).
Proof. reflexivity. Qed.




(* ===================================================================== *)
(** * Intent classification: month names                                  *)
(* ===================================================================== *)

(** X19: a month name anywhere in the text, in any case and also
    inside a longer word, decides the classification before every
    keyword: the answer is the month of the first name of the table
    (January to December) that occurs.  A text that holds no month
    name is never classified as a specific month. *)
Theorem first_listed_month_name_wins (text : string) :
  (forall name n,
      In (name, n) month_names ->
      contains name (lower text) = true ->
      (forall name' n', In (name', n') month_names -> (n' < n)%Z ->
                        contains name' (lower text) = false) ->
      analyze_event_query text = specific_month n)
  /\ ((forall mn, In mn month_names -> contains (fst mn) (lower text) = false) ->
      forall n, analyze_event_query text <> specific_month n).
Proof.
  split.
  - intros name n Hin Hname Hmin.
    unfold analyze_event_query. cbv zeta.
    cbn [List.find month_names fst snd].
    cbn [In month_names] in Hin.
    repeat (destruct Hin as [[= <- <-] | Hin];
            [ rewrite ?(Hmin "january"%string 1%Z),
                ?(Hmin "february"%string 2%Z), ?(Hmin "march"%string 3%Z),
                ?(Hmin "april"%string 4%Z), ?(Hmin "may"%string 5%Z),
                ?(Hmin "june"%string 6%Z), ?(Hmin "july"%string 7%Z),
                ?(Hmin "august"%string 8%Z), ?(Hmin "september"%string 9%Z),
                ?(Hmin "october"%string 10%Z), ?(Hmin "november"%string 11%Z)
                by (first [lia | cbn; tauto]);
              rewrite Hname; reflexivity |]).
    contradiction.
  - intros Hnone n. unfold analyze_event_query. cbv zeta.
    rewrite (find_none_of _ _ Hnone).
    repeat match goal with |- context [if ?b then _ else _] => destruct b end;
      discriminate.
Qed.

(** "may" is found in "maybe". *)
Example maybe_names_may :
  analyze_event_query "Maybe next week?" = specific_month 5.
Proof. reflexivity. Qed.

(* ===================================================================== *)
(** * Month windows on the calendar                                       *)
(* ===================================================================== *)

Lemma div_step (y k : Z) :
  (0 < k)%Z ->
  (y / k - (y - 1) / k = if (y mod k =? 0)%Z then 1 else 0)%Z.
Proof.
  intros Hk. destruct (Z.eqb_spec (y mod k) 0) as [E | E];
    Z.to_euclidean_division_equations; nia.
Qed.

(** A year has 365 days, or 366. *)
Lemma days_before_next_year (y : Z) :
  days_before_year (y + 1)
  = (days_before_year y + 365 + if is_leap y then 1 else 0)%Z.
Proof.
  unfold days_before_year, is_leap. cbv zeta.
  replace (y + 1 - 1)%Z with y by lia.
  pose proof (div_step y 4 ltac:(lia)) as H4.
  pose proof (div_step y 100 ltac:(lia)) as H100.
  pose proof (div_step y 400 ltac:(lia)) as H400.
  assert (H100_4 : (y mod 100 = 0 -> y mod 4 = 0)%Z)
    by (Z.to_euclidean_division_equations; lia).
  assert (H400_100 : (y mod 400 = 0 -> y mod 100 = 0)%Z)
    by (Z.to_euclidean_division_equations; lia).
  destruct (Z.eqb_spec (y mod 4) 0), (Z.eqb_spec (y mod 100) 0),
    (Z.eqb_spec (y mod 400) 0); cbn [andb orb negb]; lia.
Qed.

Lemma days_before_year_mono (y1 y2 : Z) :
  (y1 <= y2)%Z -> (days_before_year y1 <= days_before_year y2)%Z.
Proof.
  intros H. replace y2 with (y1 + Z.of_nat (Z.to_nat (y2 - y1)))%Z by lia.
  generalize (Z.to_nat (y2 - y1)). clear. intros n.
  induction n as [| n IH]; [rewrite Z.add_0_r; lia |].
  replace (y1 + Z.of_nat (S n))%Z with (y1 + Z.of_nat n + 1)%Z by lia.
  rewrite days_before_next_year.
  destruct (is_leap _); lia.
Qed.

(** The ordinal of the first day of a month, and of the first day of
    the month after it. *)
Lemma month_cases (m : Z) :
  (1 <= m <= 12)%Z ->
  m = 1%Z \/ m = 2%Z \/ m = 3%Z \/ m = 4%Z \/ m = 5%Z \/ m = 6%Z \/ m = 7%Z
  \/ m = 8%Z \/ m = 9%Z \/ m = 10%Z \/ m = 11%Z \/ m = 12%Z.
Proof. lia. Qed.

Ltac each_month H :=
  apply month_cases in H;
  repeat (destruct H as [-> | H]); [.. | subst].

Lemma month_end (y m : Z) :
  (1 <= m <= 12)%Z ->
  toordinal (if (m =? 12)%Z then mkdate (y + 1) 1 1 else mkdate y (m + 1) 1)
  = (toordinal (mkdate y m 1)
     + nth (Z.to_nat (m - 1)) days_in_month_table 0
     + (if (m =? 2) && is_leap y then 1 else 0))%Z.
Proof.
  intros Hm. destruct (Z.eqb_spec m 12) as [-> | Hne];
    unfold toordinal, days_before_month; cbn [d_year d_month d_day].
  - rewrite days_before_next_year.
    generalize (days_before_year y). intros D.
    destruct (is_leap y); simpl; lia.
  - generalize (days_before_year y). intros D.
    destruct (is_leap y); each_month Hm; simpl; lia.
Qed.

Lemma month_start_mono (y m1 m2 : Z) :
  (1 <= m1 <= 12)%Z -> (1 <= m2 <= 12)%Z -> (m1 < m2)%Z ->
  (toordinal (mkdate y (m1 + 1) 1) <= toordinal (mkdate y m2 1))%Z.
Proof.
  intros H1 H2 Hlt. unfold toordinal, days_before_month.
  cbn [d_year d_month d_day].
  generalize (days_before_year y). intros D.
  destruct (is_leap y); each_month H1; each_month H2; try lia; simpl; lia.
Qed.

Lemma month_start_ge (y m : Z) :
  (1 <= m <= 12)%Z ->
  (toordinal (mkdate y 1 1) <= toordinal (mkdate y m 1))%Z.
Proof.
  intros H. unfold toordinal, days_before_month. cbn [d_year d_month d_day].
  generalize (days_before_year y). intros D.
  destruct (is_leap y); each_month H; simpl; lia.
Qed.

Lemma month_end_le (y m : Z) :
  (1 <= m <= 12)%Z ->
  (toordinal (if (m =? 12)%Z then mkdate (y + 1) 1 1 else mkdate y (m + 1) 1)
   <= toordinal (mkdate (y + 1) 1 1))%Z.
Proof.
  intros H. destruct (Z.eqb_spec m 12) as [-> | Hne];
    unfold toordinal, days_before_month; cbn [d_year d_month d_day];
    [lia |].
  rewrite days_before_next_year.
  generalize (days_before_year y). intros D.
  destruct (is_leap y); each_month H; simpl; lia.
Qed.

Lemma first_of_year (y : Z) :
  toordinal (mkdate y 1 1) = (days_before_year y + 1)%Z.
Proof.
  unfold toordinal, days_before_month. cbn [d_year d_month d_day].
  generalize (days_before_year y). intros D. simpl. lia.
Qed.

(** A valid date lies in the window of its own month. *)
Lemma date_in_own_month (d : date) :
  valid_date d = true ->
  (toordinal (mkdate (d_year d) (d_month d) 1) <= toordinal d
   < toordinal (if (d_month d =? 12)%Z then mkdate (d_year d + 1) 1 1
                else mkdate (d_year d) (d_month d + 1) 1))%Z.
Proof.
  unfold valid_date. rewrite !andb_true_iff, !Z.leb_le.
  intros (((((Hy1 & Hy2) & Hm1) & Hm2) & Hd1) & Hd2).
  rewrite month_end by lia.
  unfold toordinal. cbn [d_year d_month d_day]. lia.
Qed.

(** The window of a month holds the valid dates of that month and no
    others. *)
Lemma in_month_window (d : date) (y m : Z) :
  valid_date d = true ->
  (1 <= m <= 12)%Z ->
  in_range (Some (mkdate y m 1))
    (Some (if (m =? 12)%Z then mkdate (y + 1) 1 1 else mkdate y (m + 1) 1))
    d
  = ((d_year d =? y)%Z && (d_month d =? m)%Z).
Proof.
  intros Hvalid Hm.
  pose proof (date_in_own_month d Hvalid) as [Hlo Hhi].
  assert (HM : (1 <= d_month d <= 12)%Z).
  { unfold valid_date in Hvalid.
    rewrite !andb_true_iff, !Z.leb_le in Hvalid. lia. }
  unfold in_range, date_leb, date_ltb.
  destruct (Z.eqb_spec (d_year d) y) as [Ey | Ey];
    [destruct (Z.eqb_spec (d_month d) m) as [Em | Em] |]; cbn [andb].
  - subst. apply andb_true_iff. rewrite Z.leb_le, Z.ltb_lt. lia.
  - subst y. apply andb_false_iff.
    destruct (Z.lt_total (d_month d) m) as [Hlt | [E | Hgt]];
      [| contradiction |].
    + left. apply Z.leb_gt.
      pose proof (month_start_mono (d_year d) (d_month d) m HM Hm Hlt).
      destruct (Z.eqb_spec (d_month d) 12); lia.
    + right. apply Z.ltb_ge.
      pose proof (month_start_mono (d_year d) m (d_month d) Hm HM Hgt).
      destruct (Z.eqb_spec m 12); lia.
  - apply andb_false_iff.
    destruct (Z.lt_total (d_year d) y) as [Hlt | [E | Hgt]];
      [| contradiction |].
    + left. apply Z.leb_gt.
      pose proof (month_end_le (d_year d) (d_month d) HM).
      pose proof (days_before_year_mono (d_year d + 1) y ltac:(lia)).
      pose proof (month_start_ge y m Hm).
      rewrite first_of_year in *. lia.
    + right. apply Z.ltb_ge.
      pose proof (month_end_le y m Hm).
      pose proof (days_before_year_mono (y + 1) (d_year d) ltac:(lia)).
      pose proof (month_start_ge (d_year d) (d_month d) HM).
      rewrite first_of_year in *. lia.
Qed.

(** X20: asked for a month (1 to 12) of a year, [get_user_events]
    returns exactly the user's events dated in that calendar month,
    December and a leap February included, whatever [upcoming_only]
    says, and changes nothing. *)
Theorem month_query_returns_that_month (svc : services) (user : string)
    (m y : Z) (upcoming_only : bool) (today : date) (w : world) :
  (1 <= m <= 12)%Z ->
  y <> 0%Z ->
  Forall (fun e => valid_date (event_date e) = true) (events w) ->
  run (exec svc) (get_user_events user (Some m) (Some y) upcoming_only today)
    w
  = (List.filter
       (fun e => String.eqb (user_id e) user
                 && ((d_year (event_date e) =? y)%Z
                     && (d_month (event_date e) =? m)%Z))
       (events w), w).
Proof.
  intros Hm Hy Hvalid. rewrite get_user_events_run. f_equal.
  unfold events_range, truthy_int.
  replace (m =? 0)%Z with false by (symmetry; apply Z.eqb_neq; lia).
  replace (y =? 0)%Z with false by (symmetry; apply Z.eqb_neq; lia).
  cbn [negb andb fst snd].
  apply filter_ext_in. intros e He. f_equal.
  apply in_month_window; [| exact Hm].
  rewrite List.Forall_forall in Hvalid. apply Hvalid, He.
Qed.

Lemma month_query_returns_that_month_witness :
  run (exec accepting) (get_user_events "u1" (Some 12%Z) (Some 2024%Z) true
                          (mkdate 2025 6 1))
    year_end_world
  = (List.filter
       (fun e => String.eqb (user_id e) "u1"
                 && ((d_year (event_date e) =? 2024)%Z
                     && (d_month (event_date e) =? 12)%Z))
       (events year_end_world), year_end_world).
Proof.
  apply (month_query_returns_that_month accepting "u1" 12%Z 2024%Z true
           (mkdate 2025 6 1) year_end_world).
  - lia.
  - discriminate.
  - repeat constructor.
Defined.

(** The last day of December is in, the first of January is out. *)
Example december_window :
  map event_id
    (fst (run (exec accepting)
            (get_user_events "u1" (Some 12%Z) (Some 2024%Z) false
               (mkdate 2025 6 1))
            year_end_world))
  = [2; 3]%Z.
Proof. reflexivity. Qed.

(* ===================================================================== *)
(** * The listing of the current week                                     *)
(* ===================================================================== *)

Lemma weekday_range (d : date) : (0 <= weekday d <= 6)%Z.
Proof. unfold weekday. pose proof (Z.mod_pos_bound (toordinal d + 6) 7). lia. Qed.

(** X21: the listing for "this week" holds the user's events from
    today to the coming Sunday, both included: the week is counted
    from Monday, but only events that are not yet past are looked at,
    so the days of the week before today are left out.  The store is
    not changed. *)
Theorem this_week_runs_from_today_to_sunday (svc : services) (user : string)
    (all_user_events : list event) (today : date) (w : world) :
  snd (run (exec svc)
         (filter_events user all_user_events today current_week) w) = w
  /\ (0 <= weekday today <= 6)%Z
  /\ forall e,
       In e (fst (fst (run (exec svc)
                         (filter_events user all_user_events today
                            current_week) w)))
       <-> In e (events w)
           /\ user_id e = user
           /\ (toordinal today <= toordinal (event_date e)
               <= toordinal today + (6 - weekday today))%Z.
Proof.
  pose proof (weekday_range today) as Hwd.
  cbn [filter_events]. cbv zeta. rewrite run_pbind, get_user_events_run.
  cbn [run fst snd events_range].
  split; [reflexivity |]. split; [exact Hwd |].
  intros e. rewrite !filter_In, !andb_true_iff.
  unfold in_range, date_leb. rewrite !andb_true_iff, !Z.leb_le, Z.ltb_lt.
  rewrite String.eqb_eq. split.
  - intros ((He & Hu & Hlo & _) & _ & Hhi). repeat split; auto; lia.
  - intros (He & Hu & Hlo & Hhi). repeat split; auto; lia.
Qed.

(* ===================================================================== *)
(** * From the address of an invitation back to its row                   *)
(* ===================================================================== *)

Lemma contains_tail (needle : string) (c : ascii) (s : string) :
  contains needle (String c s) = false -> contains needle s = false.
Proof.
  rewrite contains_unfold. intros H. apply orb_false_iff in H. apply H.
Qed.

Lemma contains_head (needle s : string) :
  contains needle s = false -> startswith needle s = false.
Proof.
  destruct s; rewrite contains_unfold; intros H;
    apply orb_false_iff in H; apply H.
Qed.

(** Where [old] does not occur, [replace] changes nothing. *)
Lemma replace_from_absent (old new : string) (fuel : nat) :
  forall s, contains old s = false -> replace_from fuel old new s = s.
Proof.
  induction fuel as [| fuel IH]; intros s Hs; [reflexivity |].
  destruct s as [| c s]; [reflexivity |].
  cbn [replace_from]. rewrite (contains_head _ _ Hs).
  rewrite IH by (eapply contains_tail, Hs). reflexivity.
Qed.

Lemma replace_from_step (fuel : nat) (old new : string) (c : ascii)
    (s : string) :
  startswith old (String c s) = true ->
  replace_from (S fuel) old new (String c s)
  = (new +:+ replace_from fuel old new
               (drop_chars (String.length old) (String c s)))%string.
Proof. intros H. cbn [replace_from]. rewrite H. reflexivity. Qed.

Lemma replace_prefix (p : string) :
  contains "whatsapp:" p = false ->
  replace "whatsapp:" "" ("whatsapp:" +:+ p) = p.
Proof.
  intros Hp. unfold replace.
  change ("whatsapp:" +:+ p)%string
    with (String "w" ("hatsapp:" +:+ p)).
  change (String.length (String "w" ("hatsapp:" +:+ p)))
    with (S (String.length ("hatsapp:" +:+ p))).
  rewrite replace_from_step.
  - change (drop_chars (String.length "whatsapp:")
              (String "w" ("hatsapp:" +:+ p)))
      with p.
    rewrite replace_from_absent by exact Hp. reflexivity.
  - change (startswith "whatsapp:" (String "w" ("hatsapp:" +:+ p)))
      with (startswith "" p).
    destruct p; reflexivity.
Qed.

(** X22: the address an invitation is sent to leads back to its row.
    For a contact whose stored phone does not hold [whatsapp:], the
    poller sends to [whatsapp:] followed by the phone, and the reply
    handler, given that address as the sender, looks for exactly the
    stored phone: a contact whose invitation is ['sent'] is among the
    invitations a reply from its address is matched against. *)
Theorem reply_address_finds_the_invitation (w : world) (c : contact) :
  In c (rsvp_contact_status w) ->
  send_status c = Some "sent"%string ->
  contains "whatsapp:" (contact_phone c) = false ->
  normalize_number (contact_address (contact_phone c)) = contact_phone c
  /\ In c (sent_invitations
             (normalize_number (contact_address (contact_phone c))) w).
Proof.
  intros Hc Hsent Hplain.
  assert (Hnorm : normalize_number (contact_address (contact_phone c))
                  = contact_phone c).
  { unfold contact_address. rewrite (contains_head _ _ Hplain).
    unfold normalize_number.
    replace (truthy ("whatsapp:" +:+ contact_phone c)) with true
      by reflexivity.
    replace (startswith "whatsapp:" ("whatsapp:" +:+ contact_phone c))
      with true
      by (change (startswith "whatsapp:" ("whatsapp:" +:+ contact_phone c))
            with (startswith "" (contact_phone c));
          destruct (contact_phone c); reflexivity).
    cbn [andb]. apply replace_prefix, Hplain. }
  split; [exact Hnorm |].
  rewrite Hnorm. unfold sent_invitations. apply filter_In.
  split; [exact Hc |]. rewrite Hsent, String.eqb_refl. reflexivity.
Qed.

Lemma reply_address_finds_the_invitation_witness :
  normalize_number
    (contact_address
       (contact_phone (mkcontact 14 2 "+15550001" (Some "sent"%string) None)))
  = contact_phone (mkcontact 14 2 "+15550001" (Some "sent"%string) None)
  /\ In (mkcontact 14 2 "+15550001" (Some "sent"%string) None)
       (sent_invitations
          (normalize_number
             (contact_address
                (contact_phone
                   (mkcontact 14 2 "+15550001" (Some "sent"%string) None))))
          invitations_world).
Proof.
  apply (reply_address_finds_the_invitation invitations_world
           (mkcontact 14 2 "+15550001" (Some "sent"%string) None)).
  - right. right. left. reflexivity.
  - reflexivity.
  - reflexivity.
Defined.

(* ===================================================================== *)
(** * What the chat is given                                              *)
(* ===================================================================== *)







